(** * azure-appconfiguration-provider: the replica client manager

    A shallow embedding of [_client_manager.py]: the per-endpoint wrapper
    [_ConfigurationClientWrapper] (conditional sentinel checks, loads and
    refreshes) and the pool owner [ConfigurationClientManager] (construction,
    re-discovery, backoff), followed by the properties of the specification
    that were checked against them.

    Python objects that are shared and mutated (the sentinel dicts handed in
    by the caller, the wrapper objects held in the pool) live in explicit
    stores addressed by location, so that aliasing is visible.  Exceptions
    are values of [exn]; a raising computation keeps the state it reached. *)

From Stdlib Require Import ZArith QArith Lia Lqa.
From stdpp Require Import base tactics option list strings.

Set Default Proof Using "Type".

(** ** Python runtime pieces used by the module *)

Module Py.

(** The exceptions that can leave the functions of this module. *)
Inductive exn : Type :=
| HttpResponseError (status_code : Z)
| ValueError (msg : string)
| TypeError
| IndexError
| JSONDecodeError
| AttributeError.

Inductive result (A : Type) : Type :=
| Ok (a : A)
| Raise (e : exn).
Arguments Ok {A} a.
Arguments Raise {A} e.

(** State and exception monad: a raised exception keeps every mutation
    made so far, as in Python. *)
Definition M (St A : Type) : Type := St -> result A * St.

Definition ret {St A} (a : A) : M St A := fun st => (Ok a, st).

Definition raise {St A} (e : exn) : M St A := fun st => (Raise e, st).

Definition bind {St A B} (m : M St A) (k : A -> M St B) : M St B :=
  fun st =>
    match m st with
    | (Ok a, st') => k a st'
    | (Raise e, st') => (Raise e, st')
    end.

(** [try: body except e: handler e] *)
Definition try_except {St A} (body : M St A) (handler : exn -> M St A) : M St A :=
  fun st =>
    match body st with
    | (Ok a, st') => (Ok a, st')
    | (Raise e, st') => handler e st'
    end.

Definition gets {St A} (f : St -> A) : M St A := fun st => (Ok (f st), st).

Definition modify {St} (f : St -> St) : M St unit := fun st => (Ok tt, f st).

(** [for x in l: acc = body acc x] *)
Fixpoint for_each {St A B} (l : list A) (body : B -> A -> M St B) (acc : B) : M St B :=
  match l with
  | [] => ret acc
  | x :: l' => bind (body acc x) (for_each l' body)
  end.

(** A property of the state that a computation never breaks, whether it
    returns or raises. *)
Definition preserves {St A} (P : St -> Prop) (m : M St A) : Prop :=
  forall st, P st -> P (snd (m st)).

(** Store of heap objects of one class; a location is an index, and
    allocation appends. *)
Abbreviation loc := nat.
Abbreviation store := list.

Definition alloc {A} (h : store A) (a : A) : loc * store A := (length h, h ++ [a]).

(** ** [str.replace(old, new)]: every non-overlapping occurrence, scanning
    from the left. *)
Fixpoint replace_from (old new : string) (skip : nat) (s : string) : string :=
  match s with
  | EmptyString => EmptyString
  | String c s' =>
      match skip with
      | S k => replace_from old new k s'
      | O =>
          if String.prefix old s
          then String.append new (replace_from old new (String.length old - 1) s')
          else String c (replace_from old new O s')
      end
  end.

Fixpoint intersperse_after (new s : string) : string :=
  match s with
  | EmptyString => EmptyString
  | String c s' => String c (String.append new (intersperse_after new s'))
  end.

Definition replace (s old new : string) : string :=
  match old with
  | EmptyString => String.append new (intersperse_after new s)
  | _ => replace_from old new O s
  end.

(** Truth value of a [str] and of an [Optional] value. *)
Definition str_truthy (s : string) : bool :=
  match s with EmptyString => false | _ => true end.

Definition opt_str_truthy (s : option string) : bool :=
  match s with Some s => str_truthy s | None => false end.

Definition opt_truthy {A} (o : option A) : bool :=
  match o with Some _ => true | None => false end.

(** Truth value of a 2-tuple: a tuple is false only when it is empty. *)
Definition tuple2_len {A B} (t : A * B) : nat := 2.

Definition tuple2_truthy {A B} (t : A * B) : bool :=
  negb (Nat.eqb (tuple2_len t) 0).

(** ** [dict]: insertion ordered, keys unique. *)
Section Dict.
Context {K V : Type} `{EqDecision K}.

Definition dict : Type := list (K * V).

Fixpoint dict_get (d : dict) (k : K) : option V :=
  match d with
  | [] => None
  | (k', v) :: d' => if decide (k = k') then Some v else dict_get d' k
  end.

(** [k in d] *)
Definition dict_in (k : K) (d : dict) : bool :=
  match dict_get d k with Some _ => true | None => false end.

(** [d[k] = v]: an existing key keeps its position. *)
Fixpoint dict_set (d : dict) (k : K) (v : V) : dict :=
  match d with
  | [] => [(k, v)]
  | (k', v') :: d' =>
      if decide (k = k') then (k, v) :: d' else (k', v') :: dict_set d' k v
  end.

Definition dict_keys (d : dict) : list K := map fst d.
End Dict.
Arguments dict : clear implicits.

End Py.

Import Py.

Declare Scope py_scope.
Delimit Scope py_scope with py.
Notation "'let*' x ':=' m 'in' k" := (bind m (fun x => k))
  (at level 10, x name, m at level 100, k at level 200, only parsing) : py_scope.
Notation "'let*' ' pat ':=' m 'in' k" :=
  (bind m (fun x => match x with pat => k end))
  (at level 10, pat pattern, m at level 100, k at level 200, only parsing) : py_scope.
Notation "m ';;' k" := (bind m (fun _ => k))
  (at level 100, k at level 200, right associativity, only parsing) : py_scope.
Open Scope py_scope.


(** ** The wrapper around one endpoint: [_ConfigurationClientWrapper] *)

Module Setting.
(** [ConfigurationSetting]; [is_feature_flag] records whether the object is an
    instance of [FeatureFlagConfigurationSetting], whose [filters] are kept
    as the list of each filter's [get("name")]. *)
Record t : Type := mk {
  key : string;
  label : string;
  etag : option string;
  value : string;
  is_feature_flag : bool;
  filters : list (option string)
}.
End Setting.

Record SettingSelector : Type := {
  key_filter : string;
  label_filter : string
}.

(** A sentinel map: [(key, label) -> etag]. *)
Definition SentinelKeys : Type := dict (string * string) (option string).

Definition Headers : Type := list (string * string).

(** What one request to the service comes back with.  For the conditional
    GET, [Unmodified] is the client returning [None]; [Failed] is the client
    raising [HttpResponseError] with that status code. *)
Inductive GetAnswer : Type :=
| Found (s : Setting.t)
| Unmodified
| Failed (status_code : Z).

Inductive ListAnswer : Type :=
| Listed (l : list Setting.t)
| ListFailed (status_code : Z).

(** [AzureAppConfigurationClient], the transport of one endpoint, is outside
    this module: an interface over the state [Server] of the service it talks
    to. *)
Class AzureAppConfigurationClient (Server : Type) : Type := {
  get_configuration_setting :
    string -> string -> option string -> Headers -> Server -> GetAnswer * Server;
  list_configuration_settings :
    string -> string -> Server -> ListAnswer * Server
}.

(** Requests sent and loads entered, in order (a ghost record). *)
Inductive Event : Type :=
| SentGet (key label : string) (etag : option string)
| SentList (key_filter label_filter : string)
| EnteredLoadConfigurationSettings (selects : list SettingSelector) (refresh_on : loc)
| EnteredLoadFeatureFlags (selects : list SettingSelector) (refresh_enabled : bool).

Module Wrapper.
Section WithClient.
Context {Server : Type} `{client : AzureAppConfigurationClient Server}.

(** Names from [_constants.py] and [json.loads], which this file imports. *)
Context {Json : Type}.
Variable json_loads : string -> option Json.
Variable FEATURE_FLAG_PREFIX : string.
Variables PERCENTAGE_FILTER_NAMES TIME_WINDOW_FILTER_NAMES TARGETING_FILTER_NAMES : list string.
Variables CUSTOM_FILTER_KEY PERCENTAGE_FILTER_KEY TIME_WINDOW_FILTER_KEY TARGETING_FILTER_KEY : string.

Record World : Type := {
  server : Server;
  dicts : store SentinelKeys;
  events : list Event
}.

Definition log (e : Event) : M World unit :=
  modify (fun w => {| server := server w; dicts := dicts w; events := events w ++ [e] |}).

(** [self._client.get_configuration_setting(key=..., label=..., etag=...,
    match_condition=MatchConditions.IfModified, headers=...)] *)
Definition client_get (key label : string) (etag : option string) (headers : Headers)
  : M World (option Setting.t) :=
  fun w =>
    let '(answer, srv) := get_configuration_setting key label etag headers (server w) in
    let w' := {| server := srv; dicts := dicts w;
                 events := events w ++ [SentGet key label etag] |} in
    match answer with
    | Found s => (Ok (Some s), w')
    | Unmodified => (Ok None, w')
    | Failed status_code => (Raise (HttpResponseError status_code), w')
    end.

(** [self._client.list_configuration_settings(key_filter=..., label_filter=...)] *)
Definition client_list (key_filter label_filter : string) : M World (list Setting.t) :=
  fun w =>
    let '(answer, srv) := list_configuration_settings key_filter label_filter (server w) in
    let w' := {| server := srv; dicts := dicts w;
                 events := events w ++ [SentList key_filter label_filter] |} in
    match answer with
    | Listed l => (Ok l, w')
    | ListFailed status_code => (Raise (HttpResponseError status_code), w')
    end.

(** Reading and writing a dict object through a reference. *)
Definition read_dict (r : loc) : M World SentinelKeys :=
  fun w => match dicts w !! r with
           | Some d => (Ok d, w)
           | None => (Raise TypeError, w)
           end.

Definition setitem (r : loc) (k : string * string) (v : option string) : M World unit :=
  let* d := read_dict r in
  modify (fun w => {| server := server w; dicts := <[r := dict_set d k v]> (dicts w);
                      events := events w |}).

Definition new_dict (d : SentinelKeys) : M World loc :=
  fun w => let '(r, h) := alloc (dicts w) d in
           (Ok r, {| server := server w; dicts := h; events := events w |}).

Definition _check_configuration_setting
  (key label : string) (etag : option string) (headers : Headers)
  : M World (bool * option Setting.t) :=
  try_except
    (let* updated_sentinel := client_get key label etag headers in
     match updated_sentinel with
     | Some s => ret (true, Some s)
     | None => ret (false, None)
     end)
    (fun e =>
       match e with
       | HttpResponseError status_code =>
           if (status_code =? 404)%Z
           then match etag with
                | Some _ => ret (true, None)
                | None => ret (false, None)
                end
           else raise e
       | _ => raise e
       end).

(** [**kwargs] is handed on to the transport untouched, except for the
    keyword [sentinel_keys], which [load_configuration_settings] and
    [load_feature_flags] pop: [kwargs] below is that keyword when present. *)
Definition Kwargs : Type := option loc.

(** The body of the inner loop of [load_configuration_settings]: keep the
    setting and, when its (key, label) is in [refresh_on], assign its etag
    into [sentinel_keys].  The [isinstance] test on feature flags only
    [pass]es, so it has no counterpart here. *)
Definition keep_configuration (refresh_on sentinel_keys : loc)
  (configuration_settings : list Setting.t) (config : Setting.t)
  : M World (list Setting.t) :=
  let configuration_settings := configuration_settings ++ [config] in
  let* watched := read_dict refresh_on in
  if dict_in (Setting.key config, Setting.label config) watched
  then
    setitem sentinel_keys (Setting.key config, Setting.label config)
      (Setting.etag config) ;;
    ret configuration_settings
  else ret configuration_settings.

(** The body of the outer loop: list what one selector matches. *)
Definition load_select (refresh_on sentinel_keys : loc)
  (configuration_settings : list Setting.t) (select : SettingSelector)
  : M World (list Setting.t) :=
  let* configurations := client_list (key_filter select) (label_filter select) in
  for_each configurations (keep_configuration refresh_on sentinel_keys)
    configuration_settings.

Definition load_configuration_settings
  (selects : list SettingSelector) (refresh_on : loc) (kwargs : Kwargs)
  : M World (list Setting.t * loc) :=
  log (EnteredLoadConfigurationSettings selects refresh_on) ;;
  (* sentinel_keys = kwargs.pop("sentinel_keys", refresh_on) *)
  let sentinel_keys := default refresh_on kwargs in
  let* configuration_settings :=
    for_each selects (load_select refresh_on sentinel_keys) [] in
  ret (configuration_settings, sentinel_keys).

(** [filter.get("name") in NAMES] *)
Definition name_in (name : option string) (names : list string) : bool :=
  match name with
  | Some n => existsb (String.eqb n) names
  | None => false
  end.

Definition classify_filter (filters_used : dict string bool) (name : option string)
  : dict string bool :=
  if name_in name PERCENTAGE_FILTER_NAMES
  then dict_set filters_used PERCENTAGE_FILTER_KEY true
  else if name_in name TIME_WINDOW_FILTER_NAMES
  then dict_set filters_used TIME_WINDOW_FILTER_KEY true
  else if name_in name TARGETING_FILTER_NAMES
  then dict_set filters_used TARGETING_FILTER_KEY true
  else dict_set filters_used CUSTOM_FILTER_KEY true.

(** [feature_flag.filters]: only a [FeatureFlagConfigurationSetting] has the
    attribute; on a plain [ConfigurationSetting] the access raises. *)
Definition get_filters (feature_flag : Setting.t) : M World (list (option string)) :=
  if Setting.is_feature_flag feature_flag
  then ret (Setting.filters feature_flag)
  else raise AttributeError.

(** [if feature_flag.filters:] guards a loop over the filters, which does
    nothing on an empty list: the fold below covers both. *)
Definition load_feature_flags
  (feature_flag_selectors : list SettingSelector) (feature_flag_refresh_enabled : bool)
  (kwargs : Kwargs)
  : M World (list Json * loc * dict string bool) :=
  log (EnteredLoadFeatureFlags feature_flag_selectors feature_flag_refresh_enabled) ;;
  let* feature_flag_sentinel_keys := new_dict [] in
  let* '(loaded_feature_flags, filters_used) :=
    for_each feature_flag_selectors
      (fun acc select =>
         let* feature_flags :=
           client_list (String.append FEATURE_FLAG_PREFIX (key_filter select))
             (label_filter select) in
         for_each feature_flags
           (fun '(loaded_feature_flags, filters_used) feature_flag =>
              let* parsed :=
                match json_loads (Setting.value feature_flag) with
                | Some j => ret j
                | None => raise JSONDecodeError
                end in
              let loaded_feature_flags := loaded_feature_flags ++ [parsed] in
              (if feature_flag_refresh_enabled
               then setitem feature_flag_sentinel_keys
                      (Setting.key feature_flag, Setting.label feature_flag)
                      (Setting.etag feature_flag)
               else ret tt) ;;
              let* filters := get_filters feature_flag in
              ret (loaded_feature_flags,
                   fold_left classify_filter filters filters_used))
           acc)
      ([], []) in
  ret (loaded_feature_flags, feature_flag_sentinel_keys, filters_used).

(** The loop of [refresh_configuration_settings].  The iterator of
    [updated_sentinel_keys.items()] reads the dict as it is when each item is
    reached ([i] is the position, [n] what is left), and the body assigns into
    that same dict. *)
Fixpoint refresh_loop (headers : Headers) (n i : nat)
  (need_refresh : bool) (updated_sentinel_keys : SentinelKeys)
  : M World (bool * SentinelKeys) :=
  match n with
  | O => ret (need_refresh, updated_sentinel_keys)
  | S n' =>
      match updated_sentinel_keys !! i with
      | None => ret (need_refresh, updated_sentinel_keys)
      | Some ((key, label), etag) =>
          let* '(changed, updated_sentinel) :=
            _check_configuration_setting key label etag headers in
          let need_refresh := if changed then true else need_refresh in
          let updated_sentinel_keys :=
            match updated_sentinel with
            | Some s => dict_set updated_sentinel_keys (key, label) (Setting.etag s)
            | None => updated_sentinel_keys
            end in
          refresh_loop headers n' (S i) need_refresh updated_sentinel_keys
      end
  end.

Definition refresh_configuration_settings
  (selects : list SettingSelector) (refresh_on : loc) (headers : Headers) (kwargs : Kwargs)
  : M World (bool * loc * list Setting.t) :=
  (* updated_sentinel_keys = dict(refresh_on): a copy that stays local *)
  let* updated_sentinel_keys := read_dict refresh_on in
  let* '(need_refresh, _) :=
    refresh_loop headers (length updated_sentinel_keys) 0 false updated_sentinel_keys in
  if need_refresh
  then
    let* '(configuration_settings, sentinel_keys) :=
      load_configuration_settings selects refresh_on kwargs in
    ret (true, sentinel_keys, configuration_settings)
  else ret (false, refresh_on, []).

(** The loop of [refresh_feature_flags]; [changed] is the whole tuple that
    [_check_configuration_setting] returns, tested for truth as it is. *)
Fixpoint refresh_feature_flags_loop
  (feature_flag_selectors : list SettingSelector) (headers : Headers) (kwargs : Kwargs)
  (items : list ((string * string) * option string))
  : M World (bool * option loc * option (list Json) * dict string bool) :=
  match items with
  | [] => ret (false, None, None, [])
  | ((key, label), etag) :: items' =>
      let* changed := _check_configuration_setting key label etag headers in
      if tuple2_truthy changed
      then
        let* '(feature_flags, feature_flag_sentinel_keys, filters_used) :=
          load_feature_flags feature_flag_selectors true kwargs in
        ret (true, Some feature_flag_sentinel_keys, Some feature_flags, filters_used)
      else refresh_feature_flags_loop feature_flag_selectors headers kwargs items'
  end.

Definition refresh_feature_flags
  (refresh_on : loc) (feature_flag_selectors : list SettingSelector)
  (headers : Headers) (kwargs : Kwargs)
  : M World (bool * option loc * option (list Json) * dict string bool) :=
  let* feature_flag_sentinel_keys := read_dict refresh_on in
  refresh_feature_flags_loop feature_flag_selectors headers kwargs
    feature_flag_sentinel_keys.

End WithClient.
End Wrapper.

(** ** The pool of wrappers: [ConfigurationClientManager] *)

Definition FALLBACK_CLIENT_REFRESH_EXPIRED_INTERVAL : Q := 3600.
Definition MINIMAL_CLIENT_REFRESH_INTERVAL : Q := 30.

(** An opaque [TokenCredential] and the keyword arguments kept in [_args]. *)
Definition TokenCredential : Type := nat.
Definition Args : Type := list (string * string).

(** The transport object of one endpoint as it was constructed, and whether
    [close()] has been called on it. *)
Inductive Auth : Type :=
| WithCredential (endpoint : string) (credential : option TokenCredential)
| WithConnectionString (connection_string : string).

Record Transport : Type := {
  auth : Auth;
  user_agent : string;
  retry_total : Z;
  retry_backoff_max : Z;
  extra : Args;
  closed : bool
}.

(** The fields of the dataclass [_ConfigurationClientWrapper]; [_client] is a
    reference to the transport it owns. *)
Record _ConfigurationClientWrapper : Type := {
  endpoint : string;
  _client : loc;
  backoff_end_time : Q;
  failed_attempts : Z
}.

(** The clock, the jitter source, [_discovery.find_auto_failover_endpoints]
    and the constructors of [AzureAppConfigurationClient] are outside this
    module: an interface over the state [Env] of the surroundings.  Discovery
    answers [None] when it cannot tell.
    [AzureAppConfigurationClient.from_connection_string] raises
    [ValueError("Invalid connection string.")] on a string that it cannot
    parse; [connection_string_parses] tells which strings it can. *)
Class Surroundings (Env : Type) : Type := {
  time_time : Env -> Q * Env;
  random_uniform : Env -> Q * Env;
  find_auto_failover_endpoints : string -> bool -> Env -> option (list string) * Env;
  connection_string_parses : string -> bool
}.

(** Calls made to the surroundings, in order (a ghost record). *)
Inductive Call : Type :=
| ReadClock
| DrewJitter
| Discovered (endpoint : string) (replica_discovery_enabled : bool).

Record ConfigurationClientManager : Type := {
  _replica_clients : list loc;
  _original_endpoint : string;
  _original_connection_string : option string;
  _credential : option TokenCredential;
  _user_agent : string;
  _retry_total : Z;
  _retry_backoff_max : Z;
  _replica_discovery_enabled : bool;
  _next_update_time : Q;
  _args : Args;
  _min_backoff_sec : Z;
  _max_backoff_sec : Z
}.

Definition set_replica_clients (self : ConfigurationClientManager) (l : list loc)
  : ConfigurationClientManager :=
  {| _replica_clients := l;
     _original_endpoint := _original_endpoint self;
     _original_connection_string := _original_connection_string self;
     _credential := _credential self;
     _user_agent := _user_agent self;
     _retry_total := _retry_total self;
     _retry_backoff_max := _retry_backoff_max self;
     _replica_discovery_enabled := _replica_discovery_enabled self;
     _next_update_time := _next_update_time self;
     _args := _args self;
     _min_backoff_sec := _min_backoff_sec self;
     _max_backoff_sec := _max_backoff_sec self |}.

Definition set_next_update_time (self : ConfigurationClientManager) (t : Q)
  : ConfigurationClientManager :=
  {| _replica_clients := _replica_clients self;
     _original_endpoint := _original_endpoint self;
     _original_connection_string := _original_connection_string self;
     _credential := _credential self;
     _user_agent := _user_agent self;
     _retry_total := _retry_total self;
     _retry_backoff_max := _retry_backoff_max self;
     _replica_discovery_enabled := _replica_discovery_enabled self;
     _next_update_time := t;
     _args := _args self;
     _min_backoff_sec := _min_backoff_sec self;
     _max_backoff_sec := _max_backoff_sec self |}.

Module Manager.
Section WithSurroundings.
Context {Env : Type} `{surroundings : Surroundings Env}.

Record World : Type := {
  wrappers : store _ConfigurationClientWrapper;
  transports : store Transport;
  env : Env;
  calls : list Call
}.

Definition now : M World Q :=
  fun w =>
    let '(t, e) := time_time (env w) in
    (Ok t, {| wrappers := wrappers w; transports := transports w; env := e;
              calls := calls w ++ [ReadClock] |}).

Definition uniform01 : M World Q :=
  fun w =>
    let '(u, e) := random_uniform (env w) in
    (Ok u, {| wrappers := wrappers w; transports := transports w; env := e;
              calls := calls w ++ [DrewJitter] |}).

Definition discover (endpoint : string) (replica_discovery_enabled : bool)
  : M World (option (list string)) :=
  fun w =>
    let '(r, e) := find_auto_failover_endpoints endpoint replica_discovery_enabled (env w) in
    (Ok r, {| wrappers := wrappers w; transports := transports w; env := e;
              calls := calls w ++ [Discovered endpoint replica_discovery_enabled] |}).

Definition new_transport (t : Transport) : M World loc :=
  fun w =>
    let '(r, h) := alloc (transports w) t in
    (Ok r, {| wrappers := wrappers w; transports := h; env := env w; calls := calls w |}).

Definition new_wrapper (c : _ConfigurationClientWrapper) : M World loc :=
  fun w =>
    let '(r, h) := alloc (wrappers w) c in
    (Ok r, {| wrappers := h; transports := transports w; env := env w; calls := calls w |}).

Definition read_wrapper (r : loc) : M World _ConfigurationClientWrapper :=
  fun w => match wrappers w !! r with
           | Some c => (Ok c, w)
           | None => (Raise TypeError, w)
           end.

Definition write_wrapper (r : loc) (c : _ConfigurationClientWrapper) : M World unit :=
  modify (fun w => {| wrappers := <[r := c]> (wrappers w); transports := transports w;
                      env := env w; calls := calls w |}).

(** [cls(endpoint, AzureAppConfigurationClient(endpoint, credential, ...))]:
    the constructor of the transport raises [ValueError("Missing credential")]
    when it is given no credential, and no wrapper is made then. *)
Definition from_credential
  (endpoint : string) (credential : option TokenCredential) (user_agent : string)
  (retry_total retry_backoff_max : Z) (kwargs : Args) : M World loc :=
  (if opt_truthy credential
   then ret tt
   else raise (ValueError "Missing credential")) ;;
  let* c := new_transport {| auth := WithCredential endpoint credential;
                             user_agent := user_agent; retry_total := retry_total;
                             retry_backoff_max := retry_backoff_max; extra := kwargs;
                             closed := false |} in
  new_wrapper {| endpoint := endpoint; _client := c;
                 backoff_end_time := 0; failed_attempts := 0 |}.

(** [cls(endpoint, AzureAppConfigurationClient.from_connection_string(...))]:
    the transport is constructed first, and when that raises no wrapper is
    made. *)
Definition from_connection_string
  (endpoint connection_string user_agent : string)
  (retry_total retry_backoff_max : Z) (kwargs : Args) : M World loc :=
  (if connection_string_parses connection_string
   then ret tt
   else raise (ValueError "Invalid connection string.")) ;;
  let* c := new_transport {| auth := WithConnectionString connection_string;
                             user_agent := user_agent; retry_total := retry_total;
                             retry_backoff_max := retry_backoff_max; extra := kwargs;
                             closed := false |} in
  new_wrapper {| endpoint := endpoint; _client := c;
                 backoff_end_time := 0; failed_attempts := 0 |}.

(** [self.backoff_end_time <= time.time() * 1000] *)
Definition is_active (self : loc) : M World bool :=
  let* c := read_wrapper self in
  let* t := now in
  ret (Qle_bool (backoff_end_time c) (t * 1000)).

(** [_ConfigurationClientWrapper.close]: [self._client.close()] *)
Definition wrapper_close (self : loc) : M World unit :=
  let* c := read_wrapper self in
  fun w =>
    match transports w !! _client c with
    | Some t =>
        (Ok tt,
         {| wrappers := wrappers w;
            transports := <[_client c := {| auth := auth t; user_agent := user_agent t;
                                            retry_total := retry_total t;
                                            retry_backoff_max := retry_backoff_max t;
                                            extra := extra t; closed := true |}]>
                            (transports w);
            env := env w; calls := calls w |})
    | None => (Raise TypeError, w)
    end.

(** Iterating over the result of discovery, which fails on [None]. *)
Definition iterate (failover_endpoints : option (list string)) : M World (list string) :=
  match failover_endpoints with
  | Some l => ret l
  | None => raise TypeError
  end.

Definition __init__
  (connection_string : option string) (endpoint : string)
  (credential : option TokenCredential) (user_agent : string)
  (retry_total retry_backoff_max : Z) (replica_discovery_enabled : bool)
  (min_backoff_sec max_backoff_sec : Z) (kwargs : Args)
  : M World ConfigurationClientManager :=
  let* t := now in
  let self :=
    {| _replica_clients := [];
       _original_endpoint := endpoint;
       _original_connection_string := connection_string;
       _credential := credential;
       _user_agent := user_agent;
       _retry_total := retry_total;
       _retry_backoff_max := retry_backoff_max;
       _replica_discovery_enabled := replica_discovery_enabled;
       _next_update_time := t + MINIMAL_CLIENT_REFRESH_INTERVAL;
       _args := kwargs;
       _min_backoff_sec := min_backoff_sec;
       _max_backoff_sec := max_backoff_sec |} in
  let* failover_endpoints := discover endpoint replica_discovery_enabled in
  if opt_str_truthy connection_string && str_truthy endpoint
  then
    let cs := default EmptyString connection_string in
    let* c := from_connection_string endpoint cs user_agent retry_total
                retry_backoff_max kwargs in
    let* eps := iterate failover_endpoints in
    let* clients :=
      for_each eps
        (fun clients failover_endpoint =>
           let failover_connection_string := replace cs endpoint failover_endpoint in
           let* c' := from_connection_string failover_endpoint
                        failover_connection_string user_agent retry_total
                        retry_backoff_max kwargs in
           ret (clients ++ [c']))
        [c] in
    ret (set_replica_clients self clients)
  else if str_truthy endpoint && opt_truthy credential
  then
    let* c := from_credential endpoint credential user_agent retry_total
                retry_backoff_max kwargs in
    let* eps := iterate failover_endpoints in
    let* clients :=
      for_each eps
        (fun clients failover_endpoint =>
           let* c' := from_credential failover_endpoint credential user_agent
                        retry_total retry_backoff_max kwargs in
           ret (clients ++ [c']))
        [c] in
    ret (set_replica_clients self clients)
  else
    raise (ValueError
      "Please pass either endpoint and credential, or a connection string with a value.").

(** The inner loop of [refresh_clients]: the first client of the pool whose
    endpoint is [failover_endpoint], if any ([break] on the first match). *)
Fixpoint find_client (failover_endpoint : string) (clients : list loc)
  : M World (option loc) :=
  match clients with
  | [] => ret None
  | client :: clients' =>
      let* c := read_wrapper client in
      if String.eqb (endpoint c) failover_endpoint
      then ret (Some client)
      else find_client failover_endpoint clients'
  end.

(** The body of the loop of [refresh_clients] over the discovered endpoints:
    take the client of the pool that has this endpoint, or make a new one. *)
Definition pick_client (self : ConfigurationClientManager)
  (new_clients : list loc) (failover_endpoint : string) : M World (list loc) :=
  let* found := find_client failover_endpoint (_replica_clients self) in
  match found with
  | Some client => ret (new_clients ++ [client])
  | None =>
      if opt_str_truthy (_original_connection_string self)
      then
        let failover_connection_string :=
          replace (default EmptyString (_original_connection_string self))
            (_original_endpoint self) failover_endpoint in
        let* c := from_connection_string failover_endpoint
                    failover_connection_string (_user_agent self)
                    (_retry_total self) (_retry_backoff_max self) (_args self) in
        ret (new_clients ++ [c])
      else
        let* c := from_credential failover_endpoint (_credential self)
                    (_user_agent self) (_retry_total self)
                    (_retry_backoff_max self) (_args self) in
        ret (new_clients ++ [c])
  end.

Definition refresh_clients (self : ConfigurationClientManager)
  : M World ConfigurationClientManager :=
  if negb (_replica_discovery_enabled self) then ret self else
  let* t := now in
  (* self._next_update_time > time.time() *)
  if negb (Qle_bool (_next_update_time self) t) then ret self else
  let* failover_endpoints :=
    discover (_original_endpoint self) (_replica_discovery_enabled self) in
  match failover_endpoints with
  | None =>
      let* t := now in
      ret (set_next_update_time self (t + FALLBACK_CLIENT_REFRESH_EXPIRED_INTERVAL))
  | Some [] =>
      let* t := now in
      ret (set_next_update_time self (t + MINIMAL_CLIENT_REFRESH_INTERVAL))
  | Some failover_endpoints =>
      (* new_clients = [self._replica_clients[0]] *)
      let* original :=
        match _replica_clients self with
        | c :: _ => ret c
        | [] => raise IndexError
        end in
      let* new_clients :=
        for_each failover_endpoints (pick_client self) [original] in
      let* t := now in
      ret (set_next_update_time (set_replica_clients self new_clients)
             (t + MINIMAL_CLIENT_REFRESH_INTERVAL))
  end.

Definition get_active_clients (self : ConfigurationClientManager) : M World (list loc) :=
  for_each (_replica_clients self)
    (fun active_clients client =>
       let* active := is_active client in
       if active then ret (active_clients ++ [client]) else ret active_clients)
    [].

Definition get_client_count (self : ConfigurationClientManager) : nat :=
  length (_replica_clients self).

Definition _calculate_backoff (self : ConfigurationClientManager) (attempts : Z)
  : M World Q :=
  let max_attempts := 63%Z in
  let ms_per_second := 1000%Z in
  let min_backoff_milliseconds := (_min_backoff_sec self * ms_per_second)%Z in
  let max_backoff_milliseconds := (_max_backoff_sec self * ms_per_second)%Z in
  if (_max_backoff_sec self <=? _min_backoff_sec self)%Z
  then ret (inject_Z min_backoff_milliseconds)
  else
    (* 1 << n raises ValueError for a negative n *)
    if (Z.min attempts max_attempts <? 0)%Z
    then raise (ValueError "negative shift count")
    else
      let calculated_milliseconds :=
        (Z.max 1 min_backoff_milliseconds
         * Z.shiftl 1 (Z.min attempts max_attempts))%Z in
      let calculated_milliseconds :=
        if ((calculated_milliseconds >? max_backoff_milliseconds)
            || (calculated_milliseconds <=? 0))%Z
        then max_backoff_milliseconds
        else calculated_milliseconds in
      let* u := uniform01 in
      ret (inject_Z min_backoff_milliseconds
           + u * inject_Z (calculated_milliseconds - min_backoff_milliseconds))%Q.

Definition backoff (self : ConfigurationClientManager) (client : loc) : M World unit :=
  let* c := read_wrapper client in
  let c := {| endpoint := endpoint c; _client := _client c;
              backoff_end_time := backoff_end_time c;
              failed_attempts := failed_attempts c + 1 |} in
  write_wrapper client c ;;
  let* backoff_time := _calculate_backoff self (failed_attempts c) in
  let* t := now in
  let* c := read_wrapper client in
  write_wrapper client
    {| endpoint := endpoint c; _client := _client c;
       backoff_end_time := t * 1000 + backoff_time;
       failed_attempts := failed_attempts c |}.

(** Equality of two wrappers as the dataclass generates it: field by field,
    the transports by identity. *)
Definition wrapper_eqb (a b : _ConfigurationClientWrapper) : bool :=
  String.eqb (endpoint a) (endpoint b)
  && Nat.eqb (_client a) (_client b)
  && Qeq_bool (backoff_end_time a) (backoff_end_time b)
  && Z.eqb (failed_attempts a) (failed_attempts b).

(** The loop of [__eq__] over two pools of the same length. *)
Fixpoint eq_loop (l1 l2 : list loc) : M World bool :=
  match l1, l2 with
  | r1 :: l1', r2 :: l2' =>
      let* a := read_wrapper r1 in
      let* b := read_wrapper r2 in
      if negb (wrapper_eqb a b) then ret false else eq_loop l1' l2'
  | _, _ => ret true
  end.

Definition __eq__ (self other : ConfigurationClientManager) : M World bool :=
  if negb (Nat.eqb (length (_replica_clients self)) (length (_replica_clients other)))
  then ret false
  else eq_loop (_replica_clients self) (_replica_clients other).

Definition close (self : ConfigurationClientManager) : M World unit :=
  for_each (_replica_clients self) (fun _ client => wrapper_close client) tt.

End WithSurroundings.
End Manager.

(** ** Vocabulary of the specification *)

Module ChangeDetection.
Section WithClient.
Context {Server : Type} `{client : AzureAppConfigurationClient Server}.

(** The case table that the specification gives for [checkForChange]: the
    result as a function of the answer of the service (written from the
    specification, to be compared with [_check_configuration_setting]). *)
Definition checkForChange (etag : option string) (answer : GetAnswer)
  : result (bool * option Setting.t) :=
  match answer with
  | Found s => Ok (true, Some s)
  | Unmodified => Ok (false, None)
  | Failed status_code =>
      if decide (status_code = 404%Z)
      then match etag with
           | Some _ => Ok (true, None)
           | None => Ok (false, None)
           end
      else Raise (HttpResponseError status_code)
  end.

(** An answer that the check understands: anything but a transport error
    other than 404. *)
Definition recognised (answer : GetAnswer) : bool :=
  match answer with
  | Failed status_code => bool_decide (status_code = 404%Z)
  | _ => true
  end.

(** Whether the entry with this etag counts as changed under this answer. *)
Definition reports_change (entry : (string * string) * option string) (answer : GetAnswer)
  : bool :=
  match answer with
  | Found _ => true
  | Unmodified => false
  | Failed status_code => bool_decide (status_code = 404%Z) && opt_truthy (snd entry)
  end.

(** The answers of the service to the conditional GETs for [items], asked one
    after the other, and the state the service is left in. *)
Fixpoint ask_all (headers : Headers) (items : list ((string * string) * option string))
  (srv : Server) : list GetAnswer * Server :=
  match items with
  | [] => ([], srv)
  | ((key, label), etag) :: items' =>
      let '(a, srv1) := get_configuration_setting key label etag headers srv in
      let '(rest, srv2) := ask_all headers items' srv1 in
      (a :: rest, srv2)
  end.

Definition sent_gets (items : list ((string * string) * option string)) : list Event :=
  map (fun item => SentGet (fst (fst item)) (snd (fst item)) (snd item)) items.

(** A watched entry overwritten in place by a setting that a load returned. *)
Definition overwrite_watched (d : SentinelKeys) (config : Setting.t) : SentinelKeys :=
  if dict_in (Setting.key config, Setting.label config) d
  then dict_set d (Setting.key config, Setting.label config) (Setting.etag config)
  else d.

(** The world once the conditional GETs for [items] have been answered: the
    service has moved on and the requests are on record; no dict is touched. *)
Definition after_gets (items : list ((string * string) * option string)) (srv : Server)
  (w : Wrapper.World (Server := Server)) : Wrapper.World (Server := Server) :=
  {| Wrapper.server := srv; Wrapper.dicts := Wrapper.dicts w;
     Wrapper.events := Wrapper.events w ++ sent_gets items |}.

Definition after_get (key label : string) (etag : option string) (srv : Server)
  (w : Wrapper.World (Server := Server)) : Wrapper.World (Server := Server) :=
  after_gets [((key, label), etag)] srv w.

(** The world with its store of dicts replaced. *)
Definition with_dicts (w : Wrapper.World (Server := Server)) (ds : store SentinelKeys)
  : Wrapper.World (Server := Server) :=
  {| Wrapper.server := Wrapper.server w; Wrapper.dicts := ds;
     Wrapper.events := Wrapper.events w |}.

(** Which entries count as changed, given the answers in order. *)
Definition any_changed (items : list ((string * string) * option string))
  (answers : list GetAnswer) : bool :=
  existsb (fun p => reports_change (fst p) (snd p)) (zip items answers).

Definition is_load_configuration_settings (e : Event) : bool :=
  match e with EnteredLoadConfigurationSettings _ _ => true | _ => false end.

Definition is_load_feature_flags (e : Event) : bool :=
  match e with EnteredLoadFeatureFlags _ _ => true | _ => false end.

Definition count_events (p : Event -> bool) (l : list Event) : nat :=
  length (List.filter p l).

End WithClient.
End ChangeDetection.

Module Pool.
(** The first client of [pool] whose wrapper has this endpoint. *)
Fixpoint first_with_endpoint (ws : store _ConfigurationClientWrapper) (e : string)
  (pool : list loc) : option loc :=
  match pool with
  | [] => None
  | client :: pool' =>
      match ws !! client with
      | Some c => if String.eqb (endpoint c) e then Some client
                  else first_with_endpoint ws e pool'
      | None => None
      end
  end.

(** Every reference of the pool points to a wrapper. *)
Definition valid (ws : store _ConfigurationClientWrapper) (pool : list loc) : Prop :=
  Forall (fun client => client < length ws) pool.

Definition endpoints (ws : store _ConfigurationClientWrapper) (pool : list loc)
  : list (option string) :=
  (fun client => endpoint <$> ws !! client) <$> pool.
End Pool.

Module Rebuild.
Section WithSurroundings.
Context {Env : Type} `{surroundings : Surroundings Env}.

(** What the clock shows when it is read in world [w]. *)
Definition reading (w : Manager.World (Env := Env)) : Q := fst (time_time (Manager.env w)).

(** The world after one reading of the clock, and after one call of
    discovery (no object is touched by either), and what discovery answers
    when called in world [w]. *)
Definition after_clock (w : Manager.World (Env := Env)) : Manager.World (Env := Env) :=
  snd (Manager.now w).

Definition after_discovery (endpoint : string) (enabled : bool)
  (w : Manager.World (Env := Env)) : Manager.World (Env := Env) :=
  snd (Manager.discover endpoint enabled w).

Definition discovered (endpoint : string) (enabled : bool)
  (w : Manager.World (Env := Env)) : option (list string) :=
  fst (find_auto_failover_endpoints endpoint enabled (Manager.env w)).

Definition is_discovery (c : Call) : bool :=
  match c with Discovered _ _ => true | _ => false end.

(** The next [n] readings of the clock. *)
Fixpoint readings (n : nat) (e : Env) : list Q :=
  match n with
  | O => []
  | S n' => let '(t, e') := time_time e in t :: readings n' e'
  end.

(** No object that existed in [w] has been changed or removed in [w']:
    both stores have only grown at the end. *)
Definition objects_kept (w w' : Manager.World (Env := Env)) : Prop :=
  Manager.wrappers w `prefix_of` Manager.wrappers w'
  /\ Manager.transports w `prefix_of` Manager.transports w'.

(** The clients that a rebuild has to make for these endpoints can be made:
    for each endpoint that no wrapper of the pool has, the connection string
    made for it parses when the manager has a connection string, and the
    manager has a credential when it has none. *)
Definition connectable (self : ConfigurationClientManager)
  (ws : store _ConfigurationClientWrapper) (eps : list string) : Prop :=
  forall e, e ∈ eps ->
    Pool.first_with_endpoint ws e (_replica_clients self) = None ->
    if opt_str_truthy (_original_connection_string self)
    then connection_string_parses
           (replace (default EmptyString (_original_connection_string self))
              (_original_endpoint self) e) = true
    else opt_truthy (_credential self) = true.

(** The two managers compare equal in world [w], provided the pool of the
    first one is valid there. *)
Definition compare_equal (self' self : ConfigurationClientManager)
  (w : Manager.World (Env := Env)) : Prop :=
  Pool.valid (Manager.wrappers w) (_replica_clients self') ->
  Manager.__eq__ self' self w = (Ok true, w).

End WithSurroundings.
End Rebuild.

(** ** A scripted service and scripted surroundings, for concrete runs *)

Module Scripted.

(** The service answers each request with the next scripted answer; when the
    script is exhausted a GET is unmodified and a listing is empty. *)
Record Server : Type := {
  get_answers : list GetAnswer;
  list_answers : list ListAnswer
}.

#[export] Instance scripted_client : AzureAppConfigurationClient Server := {|
  get_configuration_setting _ _ _ _ s :=
    match get_answers s with
    | a :: rest => (a, {| get_answers := rest; list_answers := list_answers s |})
    | [] => (Unmodified, s)
    end;
  list_configuration_settings _ _ s :=
    match list_answers s with
    | a :: rest => (a, {| get_answers := get_answers s; list_answers := rest |})
    | [] => (Listed [], s)
    end
|}.

(** A frozen clock, a fixed jitter draw and a fixed discovery answer; the
    connection strings that parse are those that start with [Endpoint=]. *)
Record Env : Type := {
  clock : Q;
  jitter : Q;
  replicas : option (list string)
}.

#[export] Instance scripted_surroundings : Surroundings Env := {|
  time_time e := (clock e, e);
  random_uniform e := (jitter e, e);
  find_auto_failover_endpoints _ _ e := (replicas e, e);
  connection_string_parses s := String.prefix "Endpoint=" s
|}.

Definition setting (key label etag : string) : Setting.t :=
  Setting.mk key label (Some etag) "{}" false [].

Definition flag (key label etag : string) (filters : list (option string)) : Setting.t :=
  Setting.mk key label (Some etag) "{}" true filters.

Definition select_all : SettingSelector := {| key_filter := "*"; label_filter := "\0" |}.

(** Feature-flag loading with the constants of [_constants.py] and the
    identity for [json.loads]. *)
Definition load_feature_flags :=
  Wrapper.load_feature_flags (Server := Server) (Json := string) Some
    ".appconfig.featureflag/"
    ["Percentage"; "PercentageFilter"; "Microsoft.Percentage"; "Microsoft.PercentageFilter"]
    ["TimeWindow"; "TimeWindowFilter"; "Microsoft.TimeWindow"; "Microsoft.TimeWindowFilter"]
    ["Targeting"; "TargetingFilter"; "Microsoft.Targeting"; "Microsoft.TargetingFilter"]
    "CSTM" "PRCNT" "TIME" "TRGT".

Definition refresh_feature_flags :=
  Wrapper.refresh_feature_flags (Server := Server) (Json := string) Some
    ".appconfig.featureflag/"
    ["Percentage"; "PercentageFilter"; "Microsoft.Percentage"; "Microsoft.PercentageFilter"]
    ["TimeWindow"; "TimeWindowFilter"; "Microsoft.TimeWindow"; "Microsoft.TimeWindowFilter"]
    ["Targeting"; "TargetingFilter"; "Microsoft.Targeting"; "Microsoft.TargetingFilter"]
    "CSTM" "PRCNT" "TIME" "TRGT".

(** The caller watches one key at etag [e1]; the service now has it at
    [e2] and lists it together with an unwatched key. *)
Definition world_sentinel_moved : Wrapper.World (Server := Server) :=
  {| Wrapper.server :=
       {| get_answers := [Found (setting "sentinel" "" "e2")];
          list_answers := [Listed [setting "sentinel" "" "e2"; setting "other" "" "x"]] |};
     Wrapper.dicts := [[(("sentinel", ""), Some "e1")]];
     Wrapper.events := [] |}.

(** The caller watches one key and the service reports it as not modified. *)
Definition world_sentinel_unmodified : Wrapper.World (Server := Server) :=
  {| Wrapper.server :=
       {| get_answers := [Unmodified];
          list_answers := [Listed [setting "sentinel" "" "e1"]] |};
     Wrapper.dicts := [[(("sentinel", ""), Some "e1")]];
     Wrapper.events := [] |}.

(** The caller watches one feature flag and the service reports it as not
    modified. *)
Definition world_flag_unmodified : Wrapper.World (Server := Server) :=
  {| Wrapper.server :=
       {| get_answers := [Unmodified];
          list_answers :=
            [Listed [flag ".appconfig.featureflag/beta" "" "e1" [Some "Percentage"]]] |};
     Wrapper.dicts := [[((".appconfig.featureflag/beta", ""), Some "e1")]];
     Wrapper.events := [] |}.

(** A world whose service answers one GET as scripted. *)
Definition world_answering (a : GetAnswer) : Wrapper.World (Server := Server) :=
  {| Wrapper.server := {| get_answers := [a]; list_answers := [] |};
     Wrapper.dicts := [];
     Wrapper.events := [] |}.

Definition wrapper_at (endpoint : string) (client : loc) (failed : Z) (until : Q)
  : _ConfigurationClientWrapper :=
  {| endpoint := endpoint; _client := client;
     backoff_end_time := until; failed_attempts := failed |}.

Definition open_transport (connection_string : string) : Transport :=
  {| auth := WithConnectionString connection_string; user_agent := "ua";
     retry_total := 3; retry_backoff_max := 60; extra := []; closed := false |}.

(** A pool of the original client and one replica that has failed twice;
    the clock shows 1000 and discovery answers [replicas]. *)
Definition pool_world (replicas : option (list string)) : Manager.World (Env := Env) :=
  {| Manager.wrappers :=
       [wrapper_at "https://a.io" 0 0 0; wrapper_at "https://b.io" 1 2 (2000000 # 1)];
     Manager.transports :=
       [open_transport "Endpoint=https://a.io;Id=1;Secret=s";
        open_transport "Endpoint=https://b.io;Id=1;Secret=s"];
     Manager.env := {| clock := 1000; jitter := 1 # 2; replicas := replicas |};
     Manager.calls := [] |}.

Definition pool_manager (discovery_enabled : bool) (next_update_time : Q)
  : ConfigurationClientManager :=
  {| _replica_clients := [0; 1];
     _original_endpoint := "https://a.io";
     _original_connection_string := Some "Endpoint=https://a.io;Id=1;Secret=s";
     _credential := None;
     _user_agent := "ua";
     _retry_total := 3;
     _retry_backoff_max := 60;
     _replica_discovery_enabled := discovery_enabled;
     _next_update_time := next_update_time;
     _args := [];
     _min_backoff_sec := 30;
     _max_backoff_sec := 600 |}.

(** Two wrapper objects over one transport, with equal fields, and a third
    one that has failed once. *)
Definition twin_world : Manager.World (Env := Env) :=
  {| Manager.wrappers :=
       [wrapper_at "https://a.io" 0 0 0; wrapper_at "https://a.io" 0 0 0;
        wrapper_at "https://a.io" 0 1 0];
     Manager.transports := [open_transport "Endpoint=https://a.io;Id=1;Secret=s"];
     Manager.env := {| clock := 1000; jitter := 1 # 2; replicas := None |};
     Manager.calls := [] |}.

(** A manager with no pool, only backoff bounds in seconds. *)
Definition backoff_manager (min_backoff_sec max_backoff_sec : Z)
  : ConfigurationClientManager :=
  {| _replica_clients := [];
     _original_endpoint := "https://a.io";
     _original_connection_string := None;
     _credential := Some 7;
     _user_agent := "ua";
     _retry_total := 3;
     _retry_backoff_max := 60;
     _replica_discovery_enabled := false;
     _next_update_time := 0;
     _args := [];
     _min_backoff_sec := min_backoff_sec;
     _max_backoff_sec := max_backoff_sec |}.

(** Nothing built yet; the clock shows 100 and discovery answers [replicas]. *)
Definition empty_world (replicas : option (list string)) : Manager.World (Env := Env) :=
  {| Manager.wrappers := []; Manager.transports := [];
     Manager.env := {| clock := 100; jitter := 1 # 2; replicas := replicas |};
     Manager.calls := [] |}.

(** A second selector, for one label. *)
Definition select_prod : SettingSelector := {| key_filter := "app/*"; label_filter := "prod" |}.

(** The caller watches one key; the first listing succeeds and the second
    one fails. *)
Definition world_listing_fails : Wrapper.World (Server := Server) :=
  {| Wrapper.server :=
       {| get_answers := [];
          list_answers := [Listed [setting "sentinel" "" "e2"]; ListFailed 503] |};
     Wrapper.dicts := [[(("sentinel", ""), Some "e1")]];
     Wrapper.events := [] |}.

(** The caller watches one key at etag [e1]; the service now has it at
    [e2], answers the first listing and fails the second; asked again about
    the key it says not modified. *)
Definition world_load_fails_midway : Wrapper.World (Server := Server) :=
  {| Wrapper.server :=
       {| get_answers := [Found (setting "sentinel" "" "e2"); Unmodified];
          list_answers := [Listed [setting "sentinel" "" "e2"]; ListFailed 503] |};
     Wrapper.dicts := [[(("sentinel", ""), Some "e1")]];
     Wrapper.events := [] |}.

(** The caller watches one key at etag [e1]; the service now has it at
    [e2], and the selectors of the load do not match it. *)
Definition world_sentinel_not_listed : Wrapper.World (Server := Server) :=
  {| Wrapper.server :=
       {| get_answers := [Found (setting "sentinel" "" "e2")];
          list_answers := [Listed [setting "other" "" "x"]] |};
     Wrapper.dicts := [[(("sentinel", ""), Some "e1")]];
     Wrapper.events := [] |}.

(** The watched map at location 0 and another, empty dict at location 1. *)
Definition world_two_maps : Wrapper.World (Server := Server) :=
  {| Wrapper.server :=
       {| get_answers := [];
          list_answers := [Listed [setting "sentinel" "" "e2"; setting "other" "" "x"]] |};
     Wrapper.dicts := [[(("sentinel", ""), Some "e1")]; []];
     Wrapper.events := [] |}.

(** Three keys are watched; the check of the first is not modified and the
    check of the second fails with 503. *)
Definition world_check_fails : Wrapper.World (Server := Server) :=
  {| Wrapper.server :=
       {| get_answers := [Unmodified; Failed 503];
          list_answers := [Listed [setting "a" "" "1"]] |};
     Wrapper.dicts := [[(("a", ""), Some "1"); (("b", ""), Some "2"); (("c", ""), Some "3")]];
     Wrapper.events := [] |}.

(** One feature flag is watched and its check fails with 500. *)
Definition world_flag_check_fails : Wrapper.World (Server := Server) :=
  {| Wrapper.server :=
       {| get_answers := [Failed 500];
          list_answers :=
            [Listed [flag ".appconfig.featureflag/beta" "" "e1" [Some "Percentage"]]] |};
     Wrapper.dicts := [[((".appconfig.featureflag/beta", ""), Some "e1")]];
     Wrapper.events := [] |}.

(** A plain setting is listed under the feature-flag prefix, after a flag. *)
Definition world_plain_under_flags : Wrapper.World (Server := Server) :=
  {| Wrapper.server :=
       {| get_answers := [];
          list_answers :=
            [Listed [flag ".appconfig.featureflag/beta" "" "e1" [Some "Percentage"];
                     setting ".appconfig.featureflag/odd" "" "e1"]] |};
     Wrapper.dicts := [];
     Wrapper.events := [] |}.

(** Nothing is watched. *)
Definition world_nothing_watched : Wrapper.World (Server := Server) :=
  {| Wrapper.server := {| get_answers := []; list_answers := [] |};
     Wrapper.dicts := [[]];
     Wrapper.events := [] |}.

(** A flag with a percentage filter, a filter of an unknown name and a
    filter without a name, and a flag without filters. *)
Definition flag_with_filters : Setting.t :=
  flag ".appconfig.featureflag/beta" "" "e1" [Some "Percentage"; Some "Mystery"; None].

Definition flag_without_filters : Setting.t :=
  flag ".appconfig.featureflag/plain" "" "e1" [].

End Scripted.

(** ** Vocabulary for loads *)

Module Loading.
Section WithClient.
Context {Server : Type} `{client : AzureAppConfigurationClient Server}.
Context {Json : Type}.
Variable json_loads : string -> option Json.
Variable FEATURE_FLAG_PREFIX : string.
Variables PERCENTAGE_FILTER_NAMES TIME_WINDOW_FILTER_NAMES TARGETING_FILTER_NAMES : list string.
Variables CUSTOM_FILTER_KEY PERCENTAGE_FILTER_KEY TIME_WINDOW_FILTER_KEY TARGETING_FILTER_KEY : string.

(** The (key filter, label filter) pairs that a load of plain settings
    lists, and those that a load of feature flags lists. *)
Definition filters_of (selects : list SettingSelector) : list (string * string) :=
  (fun select => (key_filter select, label_filter select)) <$> selects.

Definition flag_filters_of (selects : list SettingSelector) : list (string * string) :=
  (fun select => (String.append FEATURE_FLAG_PREFIX (key_filter select),
                  label_filter select)) <$> selects.

(** The answers of the service to these listings, asked one after the
    other, and the state the service is left in. *)
Fixpoint ask_lists (filters : list (string * string)) (srv : Server)
  : list ListAnswer * Server :=
  match filters with
  | [] => ([], srv)
  | (kf, lf) :: filters' =>
      let '(a, srv1) := list_configuration_settings kf lf srv in
      let '(rest, srv2) := ask_lists filters' srv1 in
      (a :: rest, srv2)
  end.

Definition is_listed (a : ListAnswer) : bool :=
  match a with Listed _ => true | ListFailed _ => false end.

Definition settings_of (a : ListAnswer) : list Setting.t :=
  match a with Listed l => l | ListFailed _ => [] end.

(** Everything that was listed, in the order of the listings. *)
Definition listed_settings (answers : list ListAnswer) : list Setting.t :=
  concat (settings_of <$> answers).

Definition sent_lists (filters : list (string * string)) : list Event :=
  (fun p => SentList (fst p) (snd p)) <$> filters.

(** A setting that is watched in [watched] has its etag assigned into
    [target], a dict that may be another object. *)
Definition overwrite_into (watched target : SentinelKeys) (config : Setting.t)
  : SentinelKeys :=
  if dict_in (Setting.key config, Setting.label config) watched
  then dict_set target (Setting.key config, Setting.label config) (Setting.etag config)
  else target.

(** The sentinel map that a load of feature flags builds. *)
Definition track_flag (d : SentinelKeys) (flag : Setting.t) : SentinelKeys :=
  dict_set d (Setting.key flag, Setting.label flag) (Setting.etag flag).

(** What the sentinel map holds after these flags, starting from [d]. *)
Definition track (refresh_enabled : bool) (flags : list Setting.t) (d : SentinelKeys)
  : SentinelKeys :=
  if refresh_enabled then fold_left track_flag flags d else d.

Definition tracked (refresh_enabled : bool) (flags : list Setting.t) : SentinelKeys :=
  track refresh_enabled flags [].

(** The key that [classify_filter] sets for a filter of this name. *)
Definition filter_key (name : option string) : string :=
  if Wrapper.name_in name PERCENTAGE_FILTER_NAMES then PERCENTAGE_FILTER_KEY
  else if Wrapper.name_in name TIME_WINDOW_FILTER_NAMES then TIME_WINDOW_FILTER_KEY
  else if Wrapper.name_in name TARGETING_FILTER_NAMES then TARGETING_FILTER_KEY
  else CUSTOM_FILTER_KEY.

(** The tally of filter kinds over all flags. *)
Definition tally_flag (filters_used : dict string bool) (flag : Setting.t)
  : dict string bool :=
  fold_left
    (Wrapper.classify_filter PERCENTAGE_FILTER_NAMES TIME_WINDOW_FILTER_NAMES
       TARGETING_FILTER_NAMES CUSTOM_FILTER_KEY PERCENTAGE_FILTER_KEY
       TIME_WINDOW_FILTER_KEY TARGETING_FILTER_KEY)
    (Setting.filters flag) filters_used.

Definition tally (flags : list Setting.t) : dict string bool :=
  fold_left tally_flag flags [].

(** The values of all flags parsed, if they all parse. *)
Fixpoint parse_all (flags : list Setting.t) : option (list Json) :=
  match flags with
  | [] => Some []
  | flag :: flags' =>
      match json_loads (Setting.value flag), parse_all flags' with
      | Some j, Some js => Some (j :: js)
      | _, _ => None
      end
  end.

(** The world once these listings have been answered. *)
Definition after_lists (filters : list (string * string)) (srv : Server)
  (ds : store SentinelKeys) (before : list Event)
  : Wrapper.World (Server := Server) :=
  {| Wrapper.server := srv; Wrapper.dicts := ds;
     Wrapper.events := before ++ sent_lists filters |}.

End WithClient.

(** The tally of filter kinds with the constants of [_constants.py]. *)
Definition tally_with_constants : list Setting.t -> dict string bool :=
  tally
    ["Percentage"; "PercentageFilter"; "Microsoft.Percentage"; "Microsoft.PercentageFilter"]
    ["TimeWindow"; "TimeWindowFilter"; "Microsoft.TimeWindow"; "Microsoft.TimeWindowFilter"]
    ["Targeting"; "TargetingFilter"; "Microsoft.Targeting"; "Microsoft.TargetingFilter"]
    "CSTM" "PRCNT" "TIME" "TRGT".

End Loading.

(** ** Vocabulary for the life of the pool *)

Module Lifecycle.

(** A transport after [close()]. *)
Definition closing (t : Transport) : Transport :=
  {| auth := auth t; user_agent := user_agent t; retry_total := retry_total t;
     retry_backoff_max := retry_backoff_max t; extra := extra t; closed := true |}.

(** The transports that the wrappers of a pool own. *)
Definition clients_of (ws : store _ConfigurationClientWrapper) (pool : list loc)
  : list loc :=
  omap (fun client => _client <$> ws !! client) pool.

(** Every client of the pool is a wrapper whose transport exists. *)
Definition closable (ws : store _ConfigurationClientWrapper) (ts : store Transport)
  (pool : list loc) : Prop :=
  Forall (fun client => exists wc, ws !! client = Some wc /\ _client wc < length ts) pool.

(** A wrapper as the constructors of the class make it. *)
Definition fresh_wrapper (endpoint : string) (client : loc) : _ConfigurationClientWrapper :=
  {| endpoint := endpoint; _client := client;
     backoff_end_time := 0; failed_attempts := 0 |}.

(** The transport that the manager makes for a replica endpoint: from the
    connection string with the original endpoint replaced, when the manager
    has a connection string, from the credential otherwise. *)
Definition replica_transport (self : ConfigurationClientManager) (endpoint : string)
  : Transport :=
  {| auth :=
       if opt_str_truthy (_original_connection_string self)
       then WithConnectionString
              (replace (default EmptyString (_original_connection_string self))
                 (_original_endpoint self) endpoint)
       else WithCredential endpoint (_credential self);
     user_agent := _user_agent self;
     retry_total := _retry_total self;
     retry_backoff_max := _retry_backoff_max self;
     extra := _args self;
     closed := false |}.

(** The transport that the manager makes for its original endpoint. *)
Definition original_transport (self : ConfigurationClientManager) : Transport :=
  {| auth :=
       if opt_str_truthy (_original_connection_string self)
       then WithConnectionString (default EmptyString (_original_connection_string self))
       else WithCredential (_original_endpoint self) (_credential self);
     user_agent := _user_agent self;
     retry_total := _retry_total self;
     retry_backoff_max := _retry_backoff_max self;
     extra := _args self;
     closed := false |}.

(** No wrapper of the pool has this endpoint, and how many of the first [i]
    discovered endpoints are in that case. *)
Definition is_missing (ws : store _ConfigurationClientWrapper) (pool : list loc)
  (e : string) : bool :=
  match Pool.first_with_endpoint ws e pool with
  | None => true
  | Some _ => false
  end.

Definition missing_before (ws : store _ConfigurationClientWrapper) (pool : list loc)
  (eps : list string) (i : nat) : nat :=
  length (List.filter (is_missing ws pool) (take i eps)).

(** The manager that the constructor returns for these arguments, with this
    pool and this time of the next discovery. *)
Definition constructed
  (connection_string : option string) (endpoint : string)
  (credential : option TokenCredential) (user_agent : string)
  (retry_total retry_backoff_max : Z) (replica_discovery_enabled : bool)
  (min_backoff_sec max_backoff_sec : Z) (kwargs : Args)
  (pool : list loc) (next_update_time : Q) : ConfigurationClientManager :=
  {| _replica_clients := pool;
     _original_endpoint := endpoint;
     _original_connection_string := connection_string;
     _credential := credential;
     _user_agent := user_agent;
     _retry_total := retry_total;
     _retry_backoff_max := retry_backoff_max;
     _replica_discovery_enabled := replica_discovery_enabled;
     _next_update_time := next_update_time;
     _args := kwargs;
     _min_backoff_sec := min_backoff_sec;
     _max_backoff_sec := max_backoff_sec |}.

(** The wrappers made, one after the other, for these endpoints when the
    store of transports has [n] objects. *)
Definition fresh_wrappers (n : nat) (endpoints : list string)
  : list _ConfigurationClientWrapper :=
  imap (fun i endpoint => fresh_wrapper endpoint (n + i)) endpoints.

(** The arguments pass the checks of the constructor. *)
Definition accepted (connection_string : option string) (endpoint : string)
  (credential : option TokenCredential) : bool :=
  (opt_str_truthy connection_string && str_truthy endpoint)
  || (str_truthy endpoint && opt_truthy credential).

(** The connection strings that the constructor hands to the constructor of
    the transport, in order: its own and, for each discovered endpoint, its
    own with the endpoint replaced. *)
Definition connection_strings_used (connection_string : option string)
  (endpoint : string) (eps : list string) : list string :=
  match connection_string with
  | Some cs =>
      if str_truthy cs && str_truthy endpoint
      then cs :: ((fun fe => replace cs endpoint fe) <$> eps)
      else []
  | None => []
  end.

(** Two wrappers have the same endpoint, the same transport object, ends of
    backoff that are equal as numbers and the same count of failed
    attempts. *)
Definition equal_fields (a b : _ConfigurationClientWrapper) : Prop :=
  endpoint a = endpoint b
  /\ _client a = _client b
  /\ (backoff_end_time a == backoff_end_time b)%Q
  /\ failed_attempts a = failed_attempts b.

(** Two pools hold wrappers with equal fields position by position. *)
Definition same_wrappers (ws : store _ConfigurationClientWrapper) (pool1 pool2 : list loc)
  : Prop :=
  Forall2 (fun c1 c2 =>
             exists a b, ws !! c1 = Some a /\ ws !! c2 = Some b /\ equal_fields a b)
    pool1 pool2.

End Lifecycle.

(** * Properties *)

(** ** Invariants of computations *)

Section Preserves.
Context {St : Type}.
Implicit Types (P : St -> Prop).

Lemma preserves_ret {A} P (a : A) : preserves P (ret a).
Proof. intros st Hst. exact Hst. Qed.

Lemma preserves_raise {A} P e : preserves P (raise (A := A) e).
Proof. intros st Hst. exact Hst. Qed.

Lemma preserves_gets {A} P (f : St -> A) : preserves P (gets f).
Proof. intros st Hst. exact Hst. Qed.

Lemma preserves_bind {A B} P (m : M St A) (k : A -> M St B) :
  preserves P m -> (forall a, preserves P (k a)) -> preserves P (bind m k).
Proof.
  intros Hm Hk st Hst. unfold bind. specialize (Hm st Hst).
  destruct (m st) as [[a|e] st']; simpl in *; [apply Hk; exact Hm|exact Hm].
Qed.

Lemma preserves_try_except {A} P (m : M St A) (h : exn -> M St A) :
  preserves P m -> (forall e, preserves P (h e)) -> preserves P (try_except m h).
Proof.
  intros Hm Hh st Hst. unfold try_except. specialize (Hm st Hst).
  destruct (m st) as [[a|e] st']; simpl in *; [exact Hm|apply Hh; exact Hm].
Qed.

Lemma preserves_for_each {A B} P (body : B -> A -> M St B) l :
  (forall acc x, preserves P (body acc x)) ->
  forall acc, preserves P (for_each l body acc).
Proof.
  intros Hbody. induction l as [|x l IH]; intros acc; simpl.
  - apply preserves_ret.
  - apply preserves_bind; [apply Hbody|exact IH].
Qed.

End Preserves.

(** ** Dicts and stores *)

Section DictFacts.
Context {K V : Type} `{EqDecision K}.
Implicit Types (d : dict K V) (k : K) (v : V).

Lemma dict_set_keys_present d k v :
  dict_in k d = true -> dict_keys (dict_set d k v) = dict_keys d.
Proof.
  unfold dict_in. induction d as [|[k' v'] d IH]; simpl; [discriminate|].
  destruct (decide (k = k')) as [->|Hne]; simpl; [reflexivity|].
  intros Hin. f_equal. auto.
Qed.

Lemma dict_set_length_present d k v :
  dict_in k d = true -> length (dict_set d k v) = length d.
Proof.
  intros Hin. rewrite <- (length_map fst (dict_set d k v)), <- (length_map fst d).
  change (length (dict_keys (dict_set d k v)) = length (dict_keys d)).
  now rewrite dict_set_keys_present.
Qed.

Lemma dict_in_set d k k' v :
  dict_in k' d = true -> dict_in k (dict_set d k' v) = dict_in k d.
Proof.
  unfold dict_in. induction d as [|[k0 v0] d IH]; simpl; [discriminate|].
  destruct (decide (k' = k0)) as [->|Hne]; simpl.
  - intros _. destruct (decide (k = k0)); reflexivity.
  - intros Hin. destruct (decide (k = k0)); [reflexivity|]. auto.
Qed.

(** Assigning to the key found at position [i] leaves all later items as
    they were: the first occurrence of that key is at [i] or before. *)
Lemma dict_set_drop d i k v v' :
  d !! i = Some (k, v) -> drop (S i) (dict_set d k v') = drop (S i) d.
Proof.
  revert i. induction d as [|[k0 v0] d IH]; intros i Hi; [discriminate|].
  simpl. destruct (decide (k = k0)) as [->|Hne]; [reflexivity|].
  destruct i as [|i]; simpl in Hi.
  - congruence.
  - simpl. destruct i; simpl; rewrite <- (IH _ Hi); reflexivity.
Qed.

Lemma dict_set_lookup_key d i k v v' :
  d !! i = Some (k, v) -> exists v'', dict_set d k v' !! i = Some (k, v'').
Proof.
  revert i. induction d as [|[k0 v0] d IH]; intros i Hi; [discriminate|].
  simpl. destruct (decide (k = k0)) as [->|Hne].
  - destruct i; simpl in *; [eauto|]. eauto.
  - destruct i; simpl in *; [congruence|]. eauto.
Qed.

End DictFacts.

Lemma drop_lookup_cons {A} (l : list A) i x rest :
  drop i l = x :: rest -> l !! i = Some x /\ drop (S i) l = rest.
Proof.
  revert i. induction l as [|y l IH]; intros i Hd.
  - rewrite drop_nil in Hd. discriminate.
  - destruct i; simpl in *.
    + inversion Hd; subst. split; [reflexivity|]. now rewrite drop_0.
    + apply IH in Hd. exact Hd.
Qed.

Lemma drop_nil_lookup {A} (l : list A) i : drop i l = [] -> l !! i = None.
Proof.
  intros Hd. apply lookup_ge_None. 
  assert (Hl : length (drop i l) = 0) by now rewrite Hd.
  rewrite length_drop in Hl. lia.
Qed.

(** ** The conditional check *)

Section WrapperFacts.
Context {Server : Type} `{client : AzureAppConfigurationClient Server}.
Import ChangeDetection.

Local Abbreviation World := (Wrapper.World (Server := Server)).

Lemma check_unfold key label etag headers (w : World) :
  Wrapper._check_configuration_setting key label etag headers w =
  (checkForChange etag (fst (get_configuration_setting key label etag headers (Wrapper.server w))),
   after_get key label etag
     (snd (get_configuration_setting key label etag headers (Wrapper.server w))) w).
Proof.
  unfold Wrapper._check_configuration_setting, try_except, bind, Wrapper.client_get,
    after_get, checkForChange.
  destruct (get_configuration_setting key label etag headers (Wrapper.server w))
    as [[s| |status_code] srv]; simpl; try reflexivity.
  destruct (Z.eqb_spec status_code 404) as [->|Hne].
  - destruct (decide (404%Z = 404%Z)); [|contradiction].
    destruct etag; reflexivity.
  - destruct (decide (status_code = 404%Z)); [contradiction|]. reflexivity.
Qed.

(** C4. [_check_configuration_setting] is a total function of the answer of
    the service to its one conditional GET: a returned setting gives
    [(True, setting)], not-modified gives [(False, None)], a 404 gives
    [(True, None)] when an etag was supplied and [(False, None)] when none
    was, and every other transport error is raised to the caller. *)
Theorem check_configuration_setting_by_answer key label etag headers (w : World) :
  let answer := fst (get_configuration_setting key label etag headers (Wrapper.server w)) in
  fst (Wrapper._check_configuration_setting key label etag headers w) =
    checkForChange etag answer
  /\ (forall s, answer = Found s ->
        fst (Wrapper._check_configuration_setting key label etag headers w)
        = Ok (true, Some s))
  /\ (answer = Unmodified ->
        fst (Wrapper._check_configuration_setting key label etag headers w)
        = Ok (false, None))
  /\ (answer = Failed 404 -> etag <> None ->
        fst (Wrapper._check_configuration_setting key label etag headers w)
        = Ok (true, None))
  /\ (answer = Failed 404 -> etag = None ->
        fst (Wrapper._check_configuration_setting key label etag headers w)
        = Ok (false, None))
  /\ (forall status_code, answer = Failed status_code -> status_code <> 404%Z ->
        fst (Wrapper._check_configuration_setting key label etag headers w)
        = Raise (HttpResponseError status_code)).
Proof.
  intros answer. rewrite check_unfold. simpl. fold answer.
  split; [reflexivity|].
  repeat split.
  - intros s ->. reflexivity.
  - intros ->. reflexivity.
  - intros -> Hetag. simpl. destruct etag; [reflexivity|contradiction].
  - intros -> ->. reflexivity.
  - intros status_code -> Hne. simpl.
    destruct (decide (status_code = 404%Z)); [contradiction|reflexivity].
Qed.

(** ** The refresh of plain configuration settings *)

Lemma checkForChange_recognised entry answer :
  recognised answer = true ->
  checkForChange (snd entry) answer =
  Ok (reports_change entry answer,
      match answer with Found s => Some s | _ => None end).
Proof.
  destruct answer as [s| |status_code]; simpl; try reflexivity.
  intros Hrec. apply bool_decide_eq_true in Hrec. subst.
  destruct (decide (404%Z = 404%Z)); [|contradiction].
  destruct (snd entry); reflexivity.
Qed.

Lemma after_gets_cons key label etag items srv srv' (w : World) :
  after_gets items srv' (after_get key label etag srv w)
  = after_gets (((key, label), etag) :: items) srv' w.
Proof.
  unfold after_get, after_gets. simpl. f_equal.
  rewrite <- app_assoc. reflexivity.
Qed.

(** The loop asks about every item, each with the etag the map held on
    entry, whatever it assigns to the copy on the way. *)
Lemma refresh_loop_run headers items :
  forall n i need_refresh (usk : SentinelKeys) (w : World),
    drop i usk = items ->
    length items <= n ->
    forallb recognised (fst (ask_all headers items (Wrapper.server w))) = true ->
    exists usk',
      Wrapper.refresh_loop headers n i need_refresh usk w =
      (Ok (need_refresh
           || any_changed items (fst (ask_all headers items (Wrapper.server w))),
           usk'),
       after_gets items (snd (ask_all headers items (Wrapper.server w))) w).
Proof.
  induction items as [|[[key label] etag] items IH];
    intros n i need_refresh usk w Hdrop Hlen Hrec.
  - exists usk. apply drop_nil_lookup in Hdrop.
    unfold after_gets, any_changed. simpl. rewrite app_nil_r, orb_false_r.
    destruct n; simpl; [|unfold SentinelKeys, dict in *; rewrite Hdrop];
      destruct w; reflexivity.
  - apply drop_lookup_cons in Hdrop as [Hi Hrest].
    destruct n as [|n]; [simpl in Hlen; lia|].
    simpl in Hlen. simpl in Hrec. simpl.
    unfold SentinelKeys, dict in *. rewrite Hi. unfold bind at 1. rewrite check_unfold.
    destruct (get_configuration_setting key label etag headers (Wrapper.server w))
      as [a srv1] eqn:Hget. simpl in *.
    destruct (ask_all headers items srv1) as [rest srv2] eqn:Hask. simpl in *.
    apply andb_prop in Hrec as [Hreca Hrecs].
    pose proof (checkForChange_recognised ((key, label), etag) a Hreca) as Hcheck.
    simpl in Hcheck. rewrite Hcheck. clear Hcheck. cbv beta iota.
    set (usk1 := match match a with Found s => Some s | _ => None end with
                 | Some s => dict_set usk (key, label) (Setting.etag s)
                 | None => usk
                 end).
    assert (Hrest1 : drop (S i) usk1 = items).
    { unfold usk1. destruct a; try exact Hrest.
      rewrite (dict_set_drop _ _ _ _ _ Hi). exact Hrest. }
    destruct (IH n (S i)
                (if reports_change ((key, label), etag) a then true else need_refresh)
                usk1 (after_get key label etag srv1 w) Hrest1 ltac:(lia))
      as [usk' Hrun].
    { simpl. rewrite Hask. exact Hrecs. }
    exists usk'. etransitivity; [exact Hrun|]. simpl. rewrite Hask. simpl.
    rewrite after_gets_cons. f_equal. f_equal. f_equal.
    unfold any_changed. simpl.
    destruct (reports_change ((key, label), etag) a), need_refresh; reflexivity.
Qed.

(** Events are only ever added at the end, so counting is additive. *)
Lemma count_events_app p l1 l2 :
  count_events p (l1 ++ l2) = count_events p l1 + count_events p l2.
Proof. unfold count_events. now rewrite List.filter_app, length_app. Qed.

Lemma count_loads_sent_gets items :
  count_events is_load_configuration_settings (sent_gets items) = 0.
Proof. induction items as [|x items IH]; [reflexivity|exact IH]. Qed.

(** Properties that only look at the record of events. *)
Lemma preserves_read_dict (P : World -> Prop) r : preserves P (Wrapper.read_dict r).
Proof.
  intros w Hw. unfold Wrapper.read_dict. destruct (Wrapper.dicts w !! r); exact Hw.
Qed.

Lemma preserves_setitem (P : list Event -> Prop) r k v :
  preserves (fun w : World => P (Wrapper.events w)) (Wrapper.setitem r k v).
Proof.
  intros w Hw. unfold Wrapper.setitem, bind, Wrapper.read_dict, modify.
  destruct (Wrapper.dicts w !! r); exact Hw.
Qed.

Lemma preserves_client_list n key_filter label_filter :
  preserves
    (fun w : World =>
       count_events is_load_configuration_settings (Wrapper.events w) = n)
    (Wrapper.client_list key_filter label_filter).
Proof.
  intros w Hw. unfold Wrapper.client_list.
  destruct (list_configuration_settings key_filter label_filter (Wrapper.server w))
    as [[l|status_code] srv]; simpl;
    rewrite count_events_app, Hw; unfold count_events; simpl; lia.
Qed.

(** One call of [load_configuration_settings] is one entry on record,
    however it ends. *)
Lemma load_configuration_settings_counts_once selects refresh_on kwargs (w : World) :
  count_events is_load_configuration_settings
    (Wrapper.events (snd (Wrapper.load_configuration_settings selects refresh_on kwargs w)))
  = S (count_events is_load_configuration_settings (Wrapper.events w)).
Proof.
  unfold Wrapper.load_configuration_settings.
  unfold bind at 1. unfold Wrapper.log, modify. simpl.
  match goal with
  | |- context [bind ?m ?k ?w1] =>
      apply (preserves_bind
               (fun w' => count_events is_load_configuration_settings (Wrapper.events w')
                          = S (count_events is_load_configuration_settings
                                 (Wrapper.events w))) m k)
  end.
  - apply preserves_for_each. intros acc select. unfold Wrapper.load_select.
    apply preserves_bind; [apply preserves_client_list|].
    intros configurations. apply preserves_for_each. intros acc' config.
    unfold Wrapper.keep_configuration.
    apply preserves_bind; [apply preserves_read_dict|].
    intros watched. destruct (dict_in _ watched).
    + apply preserves_bind; [|intros; apply preserves_ret].
      apply (preserves_setitem (fun l => count_events _ l = _)).
    + apply preserves_ret.
  - intros a. apply preserves_ret.
  - simpl. rewrite count_events_app. unfold count_events. simpl. lia.
Qed.

(** C5. [refresh_configuration_settings] asks about every watched entry
    (provided the service answers each check with something the check
    understands); a change is needed exactly when some entry reports one;
    then [load_configuration_settings] runs exactly once, with the given
    selectors and the caller's map as it was before the checks, and its
    settings and sentinel map are returned; otherwise the result is
    [(False, refresh_on, [])]. *)
Theorem refresh_configuration_settings_checks_all_loads_once
  selects refresh_on headers kwargs (w : World) (d : SentinelKeys) :
  Wrapper.dicts w !! refresh_on = Some d ->
  forallb recognised (fst (ask_all headers d (Wrapper.server w))) = true ->
  let answers := fst (ask_all headers d (Wrapper.server w)) in
  let w1 := after_gets d (snd (ask_all headers d (Wrapper.server w))) w in
  let run := Wrapper.refresh_configuration_settings selects refresh_on headers kwargs w in
  Wrapper.dicts w1 = Wrapper.dicts w
  /\ (any_changed d answers = false ->
        run = (Ok (false, refresh_on, []), w1)
        /\ count_events is_load_configuration_settings (Wrapper.events (snd run))
           = count_events is_load_configuration_settings (Wrapper.events w))
  /\ (any_changed d answers = true ->
        run = match Wrapper.load_configuration_settings selects refresh_on kwargs w1 with
              | (Ok (configuration_settings, sentinel_keys), w2) =>
                  (Ok (true, sentinel_keys, configuration_settings), w2)
              | (Raise e, w2) => (Raise e, w2)
              end
        /\ count_events is_load_configuration_settings (Wrapper.events (snd run))
           = S (count_events is_load_configuration_settings (Wrapper.events w))).
Proof.
  intros Hd Hrec answers w1 run.
  split; [reflexivity|].
  assert (Hrun : run =
    if any_changed d answers
    then match Wrapper.load_configuration_settings selects refresh_on kwargs w1 with
         | (Ok (configuration_settings, sentinel_keys), w2) =>
             (Ok (true, sentinel_keys, configuration_settings), w2)
         | (Raise e, w2) => (Raise e, w2)
         end
    else (Ok (false, refresh_on, []), w1)).
  { unfold run, Wrapper.refresh_configuration_settings.
    unfold bind at 1. unfold Wrapper.read_dict. rewrite Hd.
    unfold bind at 1.
    destruct (refresh_loop_run headers d (length d) 0 false d w
                (drop_0 d) (le_n _) Hrec) as [usk' ->].
    simpl. fold answers. fold w1.
    destruct (any_changed d answers); [|reflexivity].
    unfold bind.
    destruct (Wrapper.load_configuration_settings selects refresh_on kwargs w1)
      as [[[cs sk]|e] w2]; reflexivity. }
  assert (Hw1 : count_events is_load_configuration_settings (Wrapper.events w1)
                = count_events is_load_configuration_settings (Wrapper.events w)).
  { unfold w1, after_gets. simpl. rewrite count_events_app, count_loads_sent_gets. lia. }
  split; intros Hchanged; rewrite Hchanged in Hrun; rewrite Hrun.
  - split; [reflexivity|exact Hw1].
  - split; [reflexivity|].
    pose proof (load_configuration_settings_counts_once selects refresh_on kwargs w1)
      as Hcount.
    destruct (Wrapper.load_configuration_settings selects refresh_on kwargs w1)
      as [[[cs sk]|e] w2]; simpl in *; rewrite Hcount, Hw1; reflexivity.
Qed.

(** ** Who owns the sentinel map *)

Lemma with_dicts_id (w : World) : with_dicts w (Wrapper.dicts w) = w.
Proof. destruct w; reflexivity. Qed.

(** The inner loop of a load keeps every setting and writes the etags of the
    watched ones into the caller's own dict. *)
Lemma keep_configurations_run refresh_on configs :
  forall acc (w : World) (d : SentinelKeys),
    Wrapper.dicts w !! refresh_on = Some d ->
    for_each configs (Wrapper.keep_configuration refresh_on refresh_on) acc w =
    (Ok (acc ++ configs),
     with_dicts w
       (<[refresh_on := fold_left overwrite_watched configs d]> (Wrapper.dicts w))).
Proof.
  induction configs as [|config configs IH]; intros acc w d Hd.
  - simpl. unfold ret. rewrite app_nil_r, list_insert_id by exact Hd.
    now rewrite with_dicts_id.
  - cbn [for_each fold_left].
    unfold bind at 1. unfold Wrapper.keep_configuration at 1.
    unfold bind at 1. unfold Wrapper.read_dict at 1. rewrite Hd.
    assert (Hlt : refresh_on < length (Wrapper.dicts w))
      by (eapply lookup_lt_Some; exact Hd).
    unfold overwrite_watched at 2.
    destruct (dict_in (Setting.key config, Setting.label config) d) eqn:Hin.
    + unfold bind at 1. unfold Wrapper.setitem, bind, Wrapper.read_dict, modify, ret.
      rewrite Hd.
      rewrite (IH _ _ (dict_set d (Setting.key config, Setting.label config)
                         (Setting.etag config))).
      * unfold with_dicts. simpl. rewrite list_insert_insert_eq, <- app_assoc.
        reflexivity.
      * simpl. now apply list_lookup_insert_eq.
    + unfold ret. rewrite (IH _ _ d Hd), <- app_assoc. reflexivity.
Qed.

(** The outer loop, when it returns. *)
Lemma load_selects_run refresh_on selects :
  forall acc (w : World) (d : SentinelKeys) res w',
    Wrapper.dicts w !! refresh_on = Some d ->
    for_each selects (Wrapper.load_select refresh_on refresh_on) acc w = (Ok res, w') ->
    exists new,
      res = acc ++ new
      /\ Wrapper.dicts w'
         = <[refresh_on := fold_left overwrite_watched new d]> (Wrapper.dicts w).
Proof.
  induction selects as [|select selects IH]; intros acc w d res w' Hd Hrun.
  - simpl in Hrun. unfold ret in Hrun. inversion Hrun; subst.
    exists []. rewrite app_nil_r. simpl. now rewrite list_insert_id.
  - cbn [for_each] in Hrun. unfold bind at 1 in Hrun.
    unfold Wrapper.load_select at 1 in Hrun. unfold bind at 1 in Hrun.
    unfold Wrapper.client_list at 1 in Hrun.
    destruct (list_configuration_settings (key_filter select) (label_filter select)
                (Wrapper.server w)) as [[l|status_code] srv]; [|discriminate].
    rewrite (keep_configurations_run refresh_on l acc _ d) in Hrun by exact Hd.
    assert (Hlt : refresh_on < length (Wrapper.dicts w))
      by (eapply lookup_lt_Some; exact Hd).
    eapply IH in Hrun as (new & -> & Hdicts).
    + exists (l ++ new). split; [now rewrite app_assoc|].
      rewrite Hdicts. simpl. now rewrite list_insert_insert_eq, fold_left_app.
    + simpl. now apply list_lookup_insert_eq.
Qed.

Lemma overwrite_watched_keys (d : SentinelKeys) config :
  dict_keys (overwrite_watched d config) = dict_keys d.
Proof.
  unfold overwrite_watched.
  destruct (dict_in (Setting.key config, Setting.label config) d) eqn:Hin;
    [|reflexivity].
  now apply dict_set_keys_present.
Qed.

Lemma overwrite_all_watched_keys configs : forall d : SentinelKeys,
  dict_keys (fold_left overwrite_watched configs d) = dict_keys d.
Proof.
  induction configs as [|config configs IH]; intros d; [reflexivity|].
  simpl. now rewrite IH, overwrite_watched_keys.
Qed.

Lemma load_configuration_settings_in_place selects refresh_on (w : World)
  (d : SentinelKeys) settings r w' :
  Wrapper.dicts w !! refresh_on = Some d ->
  Wrapper.load_configuration_settings selects refresh_on None w = (Ok (settings, r), w') ->
  r = refresh_on
  /\ Wrapper.dicts w'
     = <[refresh_on := fold_left overwrite_watched settings d]> (Wrapper.dicts w).
Proof.
  intros Hd Hrun. unfold Wrapper.load_configuration_settings in Hrun.
  unfold bind at 1 in Hrun. unfold Wrapper.log, modify in Hrun.
  unfold bind at 1 in Hrun. simpl default in Hrun.
  match type of Hrun with
  | context [for_each selects ?body ?acc ?w1] =>
      destruct (for_each selects body acc w1) as [[res|e] w2] eqn:Hloop;
        [|discriminate]
  end.
  unfold ret in Hrun. inversion Hrun; subst.
  split; [reflexivity|].
  eapply load_selects_run in Hloop as (new & -> & Hdicts); [|exact Hd].
  exact Hdicts.
Qed.

(** Checking never touches a dict. *)
Lemma preserves_dicts_check (ds : store SentinelKeys) key label etag headers :
  preserves (fun w : World => Wrapper.dicts w = ds)
    (Wrapper._check_configuration_setting key label etag headers).
Proof. intros w Hw. rewrite check_unfold. exact Hw. Qed.

Lemma preserves_dicts_refresh_loop (ds : store SentinelKeys) headers n :
  forall i need_refresh usk,
    preserves (fun w : World => Wrapper.dicts w = ds)
      (Wrapper.refresh_loop headers n i need_refresh usk).
Proof.
  induction n as [|n IH]; intros i need_refresh usk; simpl.
  - apply preserves_ret.
  - destruct (usk !! i) as [[[key label] etag]|]; [|apply preserves_ret].
    apply preserves_bind; [apply preserves_dicts_check|].
    intros [changed updated_sentinel]. apply IH.
Qed.

(** What the two operations do to the caller's map whenever they return.
    [load_configuration_settings] (called without a
    separate [sentinel_keys]) returns the caller's own map object, not a
    copy, having overwritten in place the etag of every watched (key, label)
    among the settings it returns; no other dict is touched, none is created
    and the keys of the map stay as they were.
    [refresh_configuration_settings] leaves the caller's map untouched while
    it checks and, when nothing changed, returns that same object unmodified;
    when something changed it returns what that load returns, the copy it
    made for the checks being handed to no one. *)
Lemma sentinel_map_is_updated_in_place selects refresh_on headers (w : World)
  (d : SentinelKeys) :
  Wrapper.dicts w !! refresh_on = Some d ->
  (forall settings r w',
      Wrapper.load_configuration_settings selects refresh_on None w
      = (Ok (settings, r), w') ->
      r = refresh_on
      /\ Wrapper.dicts w'
         = <[refresh_on := fold_left overwrite_watched settings d]> (Wrapper.dicts w)
      /\ dict_keys (fold_left overwrite_watched settings d) = dict_keys d)
  /\ (forall changed settings r w',
        Wrapper.refresh_configuration_settings selects refresh_on headers None w
        = (Ok (changed, r, settings), w') ->
        r = refresh_on
        /\ Wrapper.dicts w'
           = <[refresh_on := fold_left overwrite_watched settings d]> (Wrapper.dicts w)
        /\ (changed = false -> settings = [] /\ Wrapper.dicts w' = Wrapper.dicts w)).
Proof.
  intros Hd. split.
  - intros settings r w' Hrun.
    destruct (load_configuration_settings_in_place _ _ _ _ _ _ _ Hd Hrun) as [-> Hdicts].
    repeat split; [exact Hdicts|apply overwrite_all_watched_keys].
  - intros changed settings r w' Hrun.
    unfold Wrapper.refresh_configuration_settings in Hrun.
    unfold bind at 1 in Hrun. unfold Wrapper.read_dict at 1 in Hrun. rewrite Hd in Hrun.
    unfold bind at 1 in Hrun.
    pose proof (preserves_dicts_refresh_loop (Wrapper.dicts w) headers (length d) 0
                  false d w eq_refl) as Hsame.
    destruct (Wrapper.refresh_loop headers (length d) 0 false d w)
      as [[[need_refresh usk]|e] w1]; [|discriminate].
    simpl in Hsame. destruct need_refresh.
    + unfold bind at 1 in Hrun.
      destruct (Wrapper.load_configuration_settings selects refresh_on None w1)
        as [[[cs sk]|e] w2] eqn:Hload; [|discriminate].
      unfold ret in Hrun. inversion Hrun; subst.
      rewrite <- Hsame in Hd.
      destruct (load_configuration_settings_in_place _ _ _ _ _ _ _ Hd Hload)
        as [-> Hdicts].
      rewrite Hsame in Hdicts. repeat split; [exact Hdicts|discriminate|discriminate].
    + unfold ret in Hrun. inversion Hrun; subst.
      simpl. rewrite Hsame, list_insert_id by exact Hd.
      repeat split; reflexivity.
Qed.

End WrapperFacts.

(** ** The refresh of feature flags *)

Section FeatureFlagFacts.
Context {Server : Type} `{client : AzureAppConfigurationClient Server}.
Context {Json : Type}.
Variable json_loads : string -> option Json.
Variable FEATURE_FLAG_PREFIX : string.
Variables PERCENTAGE_FILTER_NAMES TIME_WINDOW_FILTER_NAMES TARGETING_FILTER_NAMES : list string.
Variables CUSTOM_FILTER_KEY PERCENTAGE_FILTER_KEY TIME_WINDOW_FILTER_KEY TARGETING_FILTER_KEY : string.

Local Abbreviation World := (Wrapper.World (Server := Server)).
Local Abbreviation load_feature_flags :=
  (Wrapper.load_feature_flags json_loads FEATURE_FLAG_PREFIX
     PERCENTAGE_FILTER_NAMES TIME_WINDOW_FILTER_NAMES TARGETING_FILTER_NAMES
     CUSTOM_FILTER_KEY PERCENTAGE_FILTER_KEY TIME_WINDOW_FILTER_KEY TARGETING_FILTER_KEY).
Local Abbreviation refresh_feature_flags :=
  (Wrapper.refresh_feature_flags json_loads FEATURE_FLAG_PREFIX
     PERCENTAGE_FILTER_NAMES TIME_WINDOW_FILTER_NAMES TARGETING_FILTER_NAMES
     CUSTOM_FILTER_KEY PERCENTAGE_FILTER_KEY TIME_WINDOW_FILTER_KEY TARGETING_FILTER_KEY).

(** Whatever the first check returns, the tuple it returns is true: as soon
    as the first watched key has been asked about without an error, the
    feature flags are loaded. *)
Lemma refresh_feature_flags_first_check_loads
  refresh_on selectors headers kwargs (w : World) key label etag
  (items : SentinelKeys) :
  Wrapper.dicts w !! refresh_on = Some ((((key, label), etag) :: items) : SentinelKeys) ->
  refresh_feature_flags refresh_on selectors headers kwargs w =
  match Wrapper._check_configuration_setting key label etag headers w with
  | (Ok _, w1) =>
      match load_feature_flags selectors true kwargs w1 with
      | (Ok (feature_flags, sentinel_keys, filters_used), w2) =>
          (Ok (true, Some sentinel_keys, Some feature_flags, filters_used), w2)
      | (Raise e, w2) => (Raise e, w2)
      end
  | (Raise e, w1) => (Raise e, w1)
  end.
Proof.
  intros Hd. unfold Wrapper.refresh_feature_flags.
  unfold bind at 1. unfold Wrapper.read_dict at 1. rewrite Hd.
  cbn [Wrapper.refresh_feature_flags_loop]. unfold bind at 1.
  destruct (Wrapper._check_configuration_setting key label etag headers w)
    as [[changed|e] w1]; [|reflexivity].
  change (tuple2_truthy changed) with true. cbv iota. unfold bind at 1.
  destruct (Wrapper.load_feature_flags _ _ _ _ _ _ _ _ _ selectors true kwargs w1)
    as [[[[ff sk] fu]|e] w2]; reflexivity.
Qed.

End FeatureFlagFacts.

(** ** Concrete runs against the scripted service *)

Section ScriptedRuns.
Import Scripted ChangeDetection.

(** C1, on the code.  One feature flag is watched and the service reports it
    as not modified on the one check made; [refresh_feature_flags] still
    enters [load_feature_flags] once and returns [True] with the reloaded
    sentinel map, flags and tally, where the claim has
    [(False, None, None, {})] and no load. *)
Theorem refresh_feature_flags_loads_though_unmodified :
  let w := world_flag_unmodified in
  let run := Scripted.refresh_feature_flags 0 [select_all] [] None w in
  fst (ask_all [] [((".appconfig.featureflag/beta", ""), Some "e1")] (Wrapper.server w))
  = [Unmodified]
  /\ fst run = Ok (true, Some 1, Some ["{}"], [("PRCNT", true)])
  /\ count_events is_load_feature_flags (Wrapper.events (snd run)) = 1
  /\ fst run <> Ok (false, None, None, []).
Proof. vm_compute. repeat split; discriminate. Qed.

(** C2, on the code.  The caller watches one key at etag [e1] and the
    service now has it at [e2].  [refresh_configuration_settings] copies the
    map for its checks, but hands the caller's own map to the load and
    returns what the load returns: the object returned is the caller's map
    (location 0), and after the call that map holds [e2], where the claim has
    it hold [e1] still and a copy returned; the same holds of
    [load_configuration_settings] called on its own.  When the selectors do
    not match the watched key, the map returned still holds [e1]: what the
    checks noted in the copy is in no map that the caller gets.  When the
    second listing of the load fails, the call raises with [e2] already
    written into the caller's map; the next refresh then asks with [e2], is
    told that nothing was modified, and reports no change. *)
Theorem refresh_operations_mutate_caller_map :
  let w := world_sentinel_moved in
  let refreshed := Wrapper.refresh_configuration_settings [select_all] 0 [] None w in
  let loaded := Wrapper.load_configuration_settings [select_all] 0 None w in
  let failed :=
    Wrapper.refresh_configuration_settings [select_all; select_prod] 0 [] None
      world_load_fails_midway in
  let again :=
    Wrapper.refresh_configuration_settings [select_all; select_prod] 0 [] None
      (snd failed) in
  let stale :=
    Wrapper.refresh_configuration_settings [select_prod] 0 [] None
      world_sentinel_not_listed in
  Wrapper.dicts w !! 0 = Some [(("sentinel", ""), Some "e1")]
  /\ fst refreshed
     = Ok (true, 0, [setting "sentinel" "" "e2"; setting "other" "" "x"])
  /\ Wrapper.dicts (snd refreshed) !! 0 = Some [(("sentinel", ""), Some "e2")]
  /\ Wrapper.dicts (snd refreshed) !! 0 <> Wrapper.dicts w !! 0
  /\ fst loaded = Ok ([setting "sentinel" "" "e2"; setting "other" "" "x"], 0)
  /\ Wrapper.dicts (snd loaded) !! 0 = Some [(("sentinel", ""), Some "e2")]
  /\ fst stale = Ok (true, 0, [setting "other" "" "x"])
  /\ Wrapper.dicts (snd stale) !! 0 = Some [(("sentinel", ""), Some "e1")]
  /\ Wrapper.dicts world_load_fails_midway !! 0 = Some [(("sentinel", ""), Some "e1")]
  /\ fst failed = Raise (HttpResponseError 503)
  /\ Wrapper.dicts (snd failed) !! 0 = Some [(("sentinel", ""), Some "e2")]
  /\ fst again = Ok (false, 0, [])
  /\ Wrapper.events (snd again)
     = [SentGet "sentinel" "" (Some "e1");
        EnteredLoadConfigurationSettings [select_all; select_prod] 0;
        SentList "*" "\0"; SentList "app/*" "prod";
        SentGet "sentinel" "" (Some "e2")].
Proof. vm_compute. repeat split; discriminate. Qed.

Lemma check_configuration_setting_by_answer_witness :
  let s := setting "sentinel" "" "e2" in
  fst (Wrapper._check_configuration_setting "sentinel" "" (Some "e1") []
         (world_answering (Found s))) = Ok (true, Some s)
  /\ fst (Wrapper._check_configuration_setting "sentinel" "" (Some "e1") []
            (world_answering Unmodified)) = Ok (false, None)
  /\ fst (Wrapper._check_configuration_setting "sentinel" "" (Some "e1") []
            (world_answering (Failed 404))) = Ok (true, None)
  /\ fst (Wrapper._check_configuration_setting "sentinel" "" None []
            (world_answering (Failed 404))) = Ok (false, None)
  /\ fst (Wrapper._check_configuration_setting "sentinel" "" (Some "e1") []
            (world_answering (Failed 503))) = Raise (HttpResponseError 503).
Proof.
  intros s. split; [|split; [|split; [|split]]].
  - destruct (check_configuration_setting_by_answer "sentinel" "" (Some "e1") []
                (world_answering (Found s))) as (_ & H & _).
    apply H. reflexivity.
  - destruct (check_configuration_setting_by_answer "sentinel" "" (Some "e1") []
                (world_answering Unmodified)) as (_ & _ & H & _).
    apply H. reflexivity.
  - destruct (check_configuration_setting_by_answer "sentinel" "" (Some "e1") []
                (world_answering (Failed 404))) as (_ & _ & _ & H & _).
    apply H; [reflexivity|discriminate].
  - destruct (check_configuration_setting_by_answer "sentinel" "" None []
                (world_answering (Failed 404))) as (_ & _ & _ & _ & H & _).
    apply H; reflexivity.
  - destruct (check_configuration_setting_by_answer "sentinel" "" (Some "e1") []
                (world_answering (Failed 503))) as (_ & _ & _ & _ & _ & H).
    apply H; [reflexivity|discriminate].
Defined.

Lemma refresh_configuration_settings_checks_all_loads_once_witness :
  count_events is_load_configuration_settings
    (Wrapper.events
       (snd (Wrapper.refresh_configuration_settings [select_all] 0 [] None
               world_sentinel_moved))) = 1
  /\ Wrapper.refresh_configuration_settings [select_all] 0 [] None
       world_sentinel_unmodified
     = (Ok (false, 0, []),
        after_gets [(("sentinel", ""), Some "e1")]
          {| get_answers := []; list_answers := [Listed [setting "sentinel" "" "e1"]] |}
          world_sentinel_unmodified).
Proof.
  split.
  - assert (Hrec : forallb recognised
                     (fst (ask_all [] [(("sentinel", ""), Some "e1")]
                             (Wrapper.server world_sentinel_moved))) = true)
      by (vm_compute; reflexivity).
    destruct (refresh_configuration_settings_checks_all_loads_once [select_all] 0 []
                None world_sentinel_moved [(("sentinel", ""), Some "e1")]
                eq_refl Hrec) as (_ & _ & Hchanged).
    refine (proj2 (Hchanged _)). vm_compute. reflexivity.
  - assert (Hrec : forallb recognised
                     (fst (ask_all [] [(("sentinel", ""), Some "e1")]
                             (Wrapper.server world_sentinel_unmodified))) = true)
      by (vm_compute; reflexivity).
    destruct (refresh_configuration_settings_checks_all_loads_once [select_all] 0 []
                None world_sentinel_unmodified [(("sentinel", ""), Some "e1")]
                eq_refl Hrec) as (_ & Hsame & _).
    refine (proj1 (Hsame _)). vm_compute. reflexivity.
Defined.

End ScriptedRuns.

(** ** Backoff *)

Section ManagerFacts.
Context {Env : Type} `{surroundings : Surroundings Env}.
Import Rebuild.

Local Abbreviation MWorld := (Manager.World (Env := Env)).

Lemma shiftl_one_pos k : (0 <= k)%Z -> (1 <= Z.shiftl 1 k)%Z.
Proof.
  intros Hk. rewrite Z.shiftl_1_l.
  pose proof (Z.pow_pos_nonneg 2 k ltac:(lia) Hk). lia.
Qed.

(** The ceiling used for the draw lies between the floor and the maximum. *)
Lemma backoff_ceiling_bounds (lo hi k : Z) :
  (lo < hi)%Z -> (0 <= k)%Z ->
  let c := (Z.max 1 lo * Z.shiftl 1 k)%Z in
  let c' := if ((c >? hi) || (c <=? 0))%Z then hi else c in
  (lo <= c' <= hi)%Z.
Proof.
  intros Hlt Hk c c'. pose proof (shiftl_one_pos k Hk) as Hp.
  assert (Hc : (lo <= c)%Z) by (unfold c; nia).
  unfold c'. destruct (Z.gtb_spec c hi); simpl; [lia|].
  destruct (Z.leb_spec c 0); lia.
Qed.

Lemma jitter_between (lo c : Z) (u : Q) :
  (lo <= c)%Z -> (0 <= u)%Q -> (u <= 1)%Q ->
  (inject_Z lo <= inject_Z lo + u * inject_Z (c - lo))%Q
  /\ (inject_Z lo + u * inject_Z (c - lo) <= inject_Z c)%Q.
Proof.
  intros Hle Hu0 Hu1.
  assert (Hx : (0 <= inject_Z (c - lo))%Q).
  { change 0%Q with (inject_Z 0). rewrite <- Zle_Qle. lia. }
  assert (Hsum : (inject_Z c == inject_Z lo + inject_Z (c - lo))%Q).
  { rewrite <- inject_Z_plus. f_equiv. lia. }
  pose proof (Qmult_le_0_compat _ _ Hu0 Hx) as Hprod0.
  pose proof (Qmult_le_compat_r _ _ _ Hu1 Hx) as Hprod1.
  rewrite Qmult_1_l in Hprod1.
  split; [lra|]. rewrite Hsum. lra.
Qed.

(** C6. When the maximum does not exceed the minimum, [_calculate_backoff]
    returns exactly the minimum in milliseconds, whatever [attempts]; when it
    does, for [attempts >= 0] and a jitter draw in [[0, 1]] the result lies
    between the minimum and the maximum in milliseconds. *)
Theorem calculate_backoff_within_bounds (self : ConfigurationClientManager)
  (attempts : Z) (w : MWorld) :
  let min_ms := (_min_backoff_sec self * 1000)%Z in
  let max_ms := (_max_backoff_sec self * 1000)%Z in
  let u := fst (random_uniform (Manager.env w)) in
  ((_max_backoff_sec self <= _min_backoff_sec self)%Z ->
     fst (Manager._calculate_backoff self attempts w) = Ok (inject_Z min_ms))
  /\ ((_min_backoff_sec self < _max_backoff_sec self)%Z ->
      (0 <= attempts)%Z -> (0 <= u)%Q -> (u <= 1)%Q ->
      exists r, fst (Manager._calculate_backoff self attempts w) = Ok r
                /\ (inject_Z min_ms <= r)%Q /\ (r <= inject_Z max_ms)%Q).
Proof.
  intros min_ms max_ms u. unfold Manager._calculate_backoff. split.
  - intros Hle. destruct (Z.leb_spec (_max_backoff_sec self) (_min_backoff_sec self));
      [reflexivity|lia].
  - intros Hlt Hattempts Hu0 Hu1.
    destruct (Z.leb_spec (_max_backoff_sec self) (_min_backoff_sec self)); [lia|].
    destruct (Z.ltb_spec (Z.min attempts 63) 0); [lia|].
    unfold bind, Manager.uniform01, ret. fold u.
    destruct (random_uniform (Manager.env w)) as [u' e] eqn:Hdraw. simpl in u.
    simpl. eexists. split; [reflexivity|].
    pose proof (backoff_ceiling_bounds min_ms max_ms (Z.min attempts 63)
                  ltac:(unfold min_ms, max_ms; lia) ltac:(lia)) as Hc.
    cbv zeta in Hc. fold min_ms max_ms.
    set (c' := if _ : bool then max_ms else _) in *.
    destruct (jitter_between min_ms c' u' ltac:(lia) Hu0 Hu1) as [Hlo Hhi].
    split; [exact Hlo|].
    eapply Qle_trans; [exact Hhi|]. rewrite <- Zle_Qle. lia.
Qed.

(** ** Re-discovery *)

Lemma now_run (w : MWorld) : Manager.now w = (Ok (reading w), after_clock w).
Proof.
  unfold after_clock, reading, Manager.now.
  destruct (time_time (Manager.env w)); reflexivity.
Qed.

Lemma discover_run endpoint enabled (w : MWorld) :
  Manager.discover endpoint enabled w
  = (Ok (discovered endpoint enabled w), after_discovery endpoint enabled w).
Proof.
  unfold after_discovery, discovered, Manager.discover.
  destruct (find_auto_failover_endpoints endpoint enabled (Manager.env w)); reflexivity.
Qed.

Lemma after_clock_objects (w : MWorld) :
  Manager.wrappers (after_clock w) = Manager.wrappers w
  /\ Manager.transports (after_clock w) = Manager.transports w
  /\ Manager.calls (after_clock w) = Manager.calls w ++ [ReadClock].
Proof.
  unfold after_clock, Manager.now.
  destruct (time_time (Manager.env w)); repeat split.
Qed.

Lemma after_discovery_objects endpoint enabled (w : MWorld) :
  Manager.wrappers (after_discovery endpoint enabled w) = Manager.wrappers w
  /\ Manager.transports (after_discovery endpoint enabled w) = Manager.transports w
  /\ Manager.calls (after_discovery endpoint enabled w)
     = Manager.calls w ++ [Discovered endpoint enabled].
Proof.
  unfold after_discovery, Manager.discover.
  destruct (find_auto_failover_endpoints endpoint enabled (Manager.env w)); repeat split.
Qed.

Lemma wrapper_eqb_refl c : Manager.wrapper_eqb c c = true.
Proof.
  unfold Manager.wrapper_eqb.
  rewrite String.eqb_refl, Nat.eqb_refl, Z.eqb_refl.
  rewrite (proj2 (Qeq_bool_iff _ _) (Qeq_refl _)). reflexivity.
Qed.

Lemma eq_loop_refl pool (w : MWorld) :
  Pool.valid (Manager.wrappers w) pool -> Manager.eq_loop pool pool w = (Ok true, w).
Proof.
  induction 1 as [|client pool Hlt _ IH]; [reflexivity|].
  simpl. unfold bind, Manager.read_wrapper.
  destruct (lookup_lt_is_Some_2 _ _ Hlt) as [c Hc].
  rewrite Hc. cbv beta iota. rewrite Hc. cbv beta iota.
  rewrite wrapper_eqb_refl. simpl. exact IH.
Qed.

Lemma compare_equal_same_pool (self' self : ConfigurationClientManager) (w : MWorld) :
  _replica_clients self' = _replica_clients self -> compare_equal self' self w.
Proof.
  intros Hpool Hvalid. unfold Manager.__eq__. rewrite <- Hpool, Nat.eqb_refl. simpl.
  now apply eq_loop_refl.
Qed.

(** C8. [refresh_clients] leaves the pool as it is, element for element (so
    that the manager still compares equal to what it was), when discovery is
    disabled; when the clock has not reached [_next_update_time], in which
    case discovery is not called; when discovery answers that it does not
    know, the next attempt then being an hour after the clock's reading; and
    when discovery answers with no endpoint, the next attempt then being
    thirty seconds after. *)
Theorem refresh_clients_leaves_pool_unchanged
  (self : ConfigurationClientManager) (w : MWorld) :
  let w1 := after_clock w in
  let answer := discovered (_original_endpoint self) true w1 in
  let w2 := after_discovery (_original_endpoint self) true w1 in
  let w3 := after_clock w2 in
  (_replica_discovery_enabled self = false ->
     Manager.refresh_clients self w = (Ok self, w))
  /\ (_replica_discovery_enabled self = true ->
      Qle_bool (_next_update_time self) (reading w) = false ->
      Manager.refresh_clients self w = (Ok self, w1)
      /\ List.filter is_discovery (Manager.calls w1)
         = List.filter is_discovery (Manager.calls w))
  /\ (_replica_discovery_enabled self = true ->
      Qle_bool (_next_update_time self) (reading w) = true ->
      answer = None ->
      Manager.refresh_clients self w
      = (Ok (set_next_update_time self
               (reading w2 + FALLBACK_CLIENT_REFRESH_EXPIRED_INTERVAL)), w3))
  /\ (_replica_discovery_enabled self = true ->
      Qle_bool (_next_update_time self) (reading w) = true ->
      answer = Some [] ->
      Manager.refresh_clients self w
      = (Ok (set_next_update_time self
               (reading w2 + MINIMAL_CLIENT_REFRESH_INTERVAL)), w3))
  /\ (forall t, compare_equal (set_next_update_time self t) self w3
                /\ compare_equal self self w1 /\ compare_equal self self w
                /\ _replica_clients (set_next_update_time self t) = _replica_clients self)
  /\ Manager.wrappers w1 = Manager.wrappers w
  /\ Manager.wrappers w3 = Manager.wrappers w.
Proof.
  intros w1 answer w2 w3.
  destruct (after_clock_objects w) as (Hw1 & _ & Hc1).
  destruct (after_discovery_objects (_original_endpoint self) true w1) as (Hw2 & _ & _).
  destruct (after_clock_objects w2) as (Hw3 & _ & _).
  fold w1 in Hw1, Hc1. fold w2 in Hw2, Hw3. fold w3 in Hw3.
  split; [|split; [|split; [|split; [|split; [|split]]]]].
  - intros Hoff. unfold Manager.refresh_clients. rewrite Hoff. reflexivity.
  - intros Hon Hearly. unfold Manager.refresh_clients. rewrite Hon. simpl.
    unfold bind. rewrite now_run, Hearly. simpl. split; [reflexivity|].
    rewrite Hc1, List.filter_app. simpl. now rewrite app_nil_r.
  - intros Hon Hdue Hnone. unfold Manager.refresh_clients. rewrite Hon. simpl.
    unfold bind at 1. rewrite now_run, Hdue. simpl.
    unfold bind at 1. rewrite discover_run. fold w1 answer w2. rewrite Hnone.
    unfold bind, ret. rewrite now_run. reflexivity.
  - intros Hon Hdue Hempty. unfold Manager.refresh_clients. rewrite Hon. simpl.
    unfold bind at 1. rewrite now_run, Hdue. simpl.
    unfold bind at 1. rewrite discover_run. fold w1 answer w2. rewrite Hempty.
    unfold bind, ret. rewrite now_run. reflexivity.
  - intros t. repeat split; try (apply compare_equal_same_pool; reflexivity).
  - exact Hw1.
  - now rewrite Hw3, Hw2.
Qed.

(** ** Rebuilding the pool *)

Lemma objects_kept_refl (w : MWorld) : objects_kept w w.
Proof. split; reflexivity. Qed.

Lemma objects_kept_trans (w1 w2 w3 : MWorld) :
  objects_kept w1 w2 -> objects_kept w2 w3 -> objects_kept w1 w3.
Proof. intros [H1 H2] [H3 H4]. split; etransitivity; eassumption. Qed.

Lemma preserves_kept_now (w0 : MWorld) : preserves (objects_kept w0) Manager.now.
Proof.
  intros w Hw. rewrite now_run. simpl.
  destruct (after_clock_objects w) as (H1 & H2 & _).
  unfold objects_kept in *. now rewrite H1, H2.
Qed.

Lemma preserves_kept_discover (w0 : MWorld) endpoint enabled :
  preserves (objects_kept w0) (Manager.discover endpoint enabled).
Proof.
  intros w Hw. rewrite discover_run. simpl.
  destruct (after_discovery_objects endpoint enabled w) as (H1 & H2 & _).
  unfold objects_kept in *. now rewrite H1, H2.
Qed.

Lemma preserves_read_wrapper (P : MWorld -> Prop) r :
  preserves P (Manager.read_wrapper r).
Proof.
  intros w Hw. unfold Manager.read_wrapper.
  destruct (Manager.wrappers w !! r); exact Hw.
Qed.

Lemma preserves_find_client (P : MWorld -> Prop) e pool :
  preserves P (Manager.find_client e pool).
Proof.
  induction pool as [|client pool IH]; simpl; [apply preserves_ret|].
  apply preserves_bind; [apply preserves_read_wrapper|].
  intros c. destruct (String.eqb (endpoint c) e); [apply preserves_ret|exact IH].
Qed.

Lemma preserves_kept_new_transport (w0 : MWorld) t :
  preserves (objects_kept w0) (Manager.new_transport t).
Proof.
  intros w [H1 H2]. unfold Manager.new_transport, alloc. simpl.
  split; [exact H1|]. simpl. now apply prefix_app_r.
Qed.

Lemma preserves_kept_new_wrapper (w0 : MWorld) c :
  preserves (objects_kept w0) (Manager.new_wrapper c).
Proof.
  intros w [H1 H2]. unfold Manager.new_wrapper, alloc. simpl.
  split; [|exact H2]. simpl. now apply prefix_app_r.
Qed.

Lemma preserves_kept_from_connection_string (w0 : MWorld) e cs ua rt rb kw :
  preserves (objects_kept w0) (Manager.from_connection_string e cs ua rt rb kw).
Proof.
  apply preserves_bind.
  { destruct (connection_string_parses cs); [apply preserves_ret|apply preserves_raise]. }
  intros _. apply preserves_bind; [apply preserves_kept_new_transport|].
  intros c. apply preserves_kept_new_wrapper.
Qed.

Lemma preserves_kept_from_credential (w0 : MWorld) e cr ua rt rb kw :
  preserves (objects_kept w0) (Manager.from_credential e cr ua rt rb kw).
Proof.
  apply preserves_bind.
  { destruct (opt_truthy cr); [apply preserves_ret|apply preserves_raise]. }
  intros _. apply preserves_bind; [apply preserves_kept_new_transport|].
  intros c. apply preserves_kept_new_wrapper.
Qed.

Lemma preserves_kept_pick_client (w0 : MWorld) self acc e :
  preserves (objects_kept w0) (Manager.pick_client self acc e).
Proof.
  unfold Manager.pick_client.
  apply preserves_bind; [apply preserves_find_client|].
  intros [client|]; [apply preserves_ret|].
  destruct (opt_str_truthy (_original_connection_string self)).
  - apply preserves_bind; [apply preserves_kept_from_connection_string|].
    intros c. apply preserves_ret.
  - apply preserves_bind; [apply preserves_kept_from_credential|].
    intros c. apply preserves_ret.
Qed.

(** Whatever [refresh_clients] does and however it ends, every wrapper and
    every transport that existed before is still there, unchanged. *)
Lemma refresh_clients_keeps_objects self (w : MWorld) :
  objects_kept w (snd (Manager.refresh_clients self w)).
Proof.
  assert (Hkeep : preserves (objects_kept w) (Manager.refresh_clients self));
    [|apply Hkeep, objects_kept_refl].
  unfold Manager.refresh_clients.
  destruct (negb (_replica_discovery_enabled self)); [apply preserves_ret|].
  apply preserves_bind; [apply preserves_kept_now|]. intros t.
  destruct (negb (Qle_bool (_next_update_time self) t)); [apply preserves_ret|].
  apply preserves_bind; [apply preserves_kept_discover|].
  intros [[|e eps]|].
  - apply preserves_bind; [apply preserves_kept_now|]. intros; apply preserves_ret.
  - apply preserves_bind.
    { destruct (_replica_clients self); [apply preserves_raise|apply preserves_ret]. }
    intros original. apply preserves_bind.
    { apply preserves_for_each. intros acc x. apply preserves_kept_pick_client. }
    intros new_clients. apply preserves_bind; [apply preserves_kept_now|].
    intros; apply preserves_ret.
  - apply preserves_bind; [apply preserves_kept_now|]. intros; apply preserves_ret.
Qed.

Lemma first_with_endpoint_Some ws e pool c :
  Pool.first_with_endpoint ws e pool = Some c ->
  c ∈ pool /\ exists wc, ws !! c = Some wc /\ endpoint wc = e.
Proof.
  induction pool as [|client pool IH]; simpl; [discriminate|].
  destruct (ws !! client) as [wc|] eqn:Hc; [|discriminate].
  destruct (String.eqb_spec (endpoint wc) e) as [He|Hne].
  - intros [= <-]. split; [apply list_elem_of_here|]. eauto.
  - intros Hrest. destruct (IH Hrest) as [Hin Hwc].
    split; [now apply list_elem_of_further|exact Hwc].
Qed.

Lemma endpoints_lookup ws pool j c wc :
  pool !! j = Some c -> ws !! c = Some wc ->
  Pool.endpoints ws pool !! j = Some (Some (endpoint wc)).
Proof.
  intros Hj Hc. unfold Pool.endpoints.
  rewrite list_lookup_fmap, Hj. simpl. now rewrite Hc.
Qed.

(** With distinct endpoints in a valid pool, looking up the endpoint of a
    client of the pool finds that very client. *)
Lemma first_with_endpoint_own ws pool j c wc :
  Pool.valid ws pool -> NoDup (Pool.endpoints ws pool) ->
  pool !! j = Some c -> ws !! c = Some wc ->
  Pool.first_with_endpoint ws (endpoint wc) pool = Some c.
Proof.
  intros Hvalid. revert j.
  induction Hvalid as [|client pool Hlt _ IH]; intros j Hnd Hj Hc; [discriminate|].
  simpl in Hnd. apply NoDup_cons in Hnd as [Hnotin Hnd].
  destruct (lookup_lt_is_Some_2 _ _ Hlt) as [wc' Hc'].
  destruct j as [|j]; simpl in Hj |- *.
  - inversion Hj; subst. rewrite Hc, String.eqb_refl. reflexivity.
  - rewrite Hc'.
    destruct (String.eqb_spec (endpoint wc') (endpoint wc)) as [He|Hne];
      [|now apply (IH j)].
    exfalso. apply Hnotin. rewrite Hc'. simpl. rewrite He.
    apply list_elem_of_lookup. exists j. exact (endpoints_lookup _ _ _ _ _ Hj Hc).
Qed.

Lemma find_client_run ws0 e pool (w1 : MWorld) :
  Pool.valid ws0 pool -> ws0 `prefix_of` Manager.wrappers w1 ->
  Manager.find_client e pool w1 = (Ok (Pool.first_with_endpoint ws0 e pool), w1).
Proof.
  intros Hvalid Hpre.
  induction Hvalid as [|client pool Hlt _ IH]; [reflexivity|].
  destruct (lookup_lt_is_Some_2 _ _ Hlt) as [c Hc].
  simpl. unfold bind, Manager.read_wrapper.
  rewrite (prefix_lookup_Some _ _ _ _ Hc Hpre), Hc. cbv beta iota.
  destruct (String.eqb (endpoint c) e); [reflexivity|exact IH].
Qed.

Lemma pick_client_run self ws0 acc e (w1 : MWorld) :
  Pool.valid ws0 (_replica_clients self) -> ws0 `prefix_of` Manager.wrappers w1 ->
  connectable self ws0 [e] ->
  exists c w2,
    Manager.pick_client self acc e w1 = (Ok (acc ++ [c]), w2)
    /\ Manager.env w2 = Manager.env w1 /\ Manager.calls w2 = Manager.calls w1
    /\ (endpoint <$> Manager.wrappers w2 !! c) = Some e
    /\ (forall c', Pool.first_with_endpoint ws0 e (_replica_clients self) = Some c' ->
                   c = c' /\ w2 = w1).
Proof.
  intros Hvalid Hpre Hparse. unfold Manager.pick_client, bind.
  rewrite (find_client_run ws0 e _ w1 Hvalid Hpre).
  destruct (Pool.first_with_endpoint ws0 e (_replica_clients self)) as [c|] eqn:Hfound.
  - exists c, w1. do 3 (split; [reflexivity|]). split.
    + destruct (first_with_endpoint_Some _ _ _ _ Hfound) as (_ & wc & Hwc & He).
      now rewrite (prefix_lookup_Some _ _ _ _ Hwc Hpre), <- He.
    + intros c' [= <-]. split; reflexivity.
  - specialize (Hparse e (list_elem_of_here _ _) Hfound).
    destruct (opt_str_truthy (_original_connection_string self));
      unfold Manager.from_connection_string, Manager.from_credential, bind;
      rewrite Hparse;
      unfold Manager.from_connection_string, Manager.from_credential, bind,
        Manager.new_transport, Manager.new_wrapper, alloc, ret; simpl;
      eexists _, _; (split; [reflexivity|]); simpl;
      (do 2 (split; [reflexivity|])); (split; [|discriminate]);
      now rewrite list_lookup_middle.
Qed.

(** The loop over the discovered endpoints. *)
Lemma connectable_cons self ws e eps :
  connectable self ws (e :: eps) -> connectable self ws [e] /\ connectable self ws eps.
Proof.
  intros Hall. split; intros e' He' Hnone; apply (Hall e'); try exact Hnone.
  - apply list_elem_of_singleton in He' as ->. apply list_elem_of_here.
  - now apply list_elem_of_further.
Qed.

Lemma rebuild_run self ws0 eps :
  forall acc (w1 : MWorld),
    Pool.valid ws0 (_replica_clients self) -> ws0 `prefix_of` Manager.wrappers w1 ->
    connectable self ws0 eps ->
    exists picks w2,
      for_each eps (Manager.pick_client self) acc w1 = (Ok (acc ++ picks), w2)
      /\ length picks = length eps
      /\ Manager.env w2 = Manager.env w1 /\ Manager.calls w2 = Manager.calls w1
      /\ objects_kept w1 w2
      /\ (forall i e c,
             eps !! i = Some e ->
             Pool.first_with_endpoint ws0 e (_replica_clients self) = Some c ->
             picks !! i = Some c)
      /\ (forall i e,
             eps !! i = Some e ->
             exists c, picks !! i = Some c
                       /\ (endpoint <$> Manager.wrappers w2 !! c) = Some e)
      /\ ((forall e, e ∈ eps ->
                     is_Some (Pool.first_with_endpoint ws0 e (_replica_clients self))) ->
          w2 = w1).
Proof.
  induction eps as [|e eps IH]; intros acc w1 Hvalid Hpre Hparse.
  - exists [], w1. simpl. rewrite app_nil_r.
    repeat split; try discriminate; try reflexivity; intros; discriminate.
  - apply connectable_cons in Hparse as [Hparse1 Hparse].
    destruct (pick_client_run self ws0 acc e w1 Hvalid Hpre Hparse1)
      as (c & w2 & Hpick & Henv & Hcalls & Hend & Hfound).
    pose proof (preserves_kept_pick_client w1 self acc e w1 (objects_kept_refl w1))
      as Hkept1. rewrite Hpick in Hkept1. simpl in Hkept1.
    destruct (IH (acc ++ [c]) w2 Hvalid) as
      (picks & w3 & Hrun & Hlen & Henv' & Hcalls' & Hkept2 & Hreuse & Hevery & Hsame).
    { etransitivity; [exact Hpre|apply Hkept1]. }
    { exact Hparse. }
    exists (c :: picks), w3. cbn [for_each]. unfold bind at 1. rewrite Hpick, Hrun.
    split; [now rewrite <- app_assoc|].
    split; [simpl; now rewrite Hlen|].
    split; [congruence|]. split; [congruence|].
    split; [eapply objects_kept_trans; eassumption|].
    split; [|split].
    + intros [|i] e' c' Hi Hf; simpl in *.
      * inversion Hi; subst. destruct (Hfound _ Hf) as [-> _]. reflexivity.
      * eapply Hreuse; eassumption.
    + intros [|i] e' Hi; simpl in *.
      * inversion Hi; subst. exists c. split; [reflexivity|].
        destruct (Manager.wrappers w2 !! c) as [wc|] eqn:Hwc; [|discriminate].
        now rewrite (prefix_lookup_Some _ _ _ _ Hwc (proj1 Hkept2)).
      * apply Hevery; exact Hi.
    + intros Hall.
      destruct (Hall e (list_elem_of_here _ _)) as [c' Hc'].
      destruct (Hfound _ Hc') as [_ ->].
      apply Hsame. intros e' He'. apply Hall. now apply list_elem_of_further.
Qed.

(** What a rebuild does, in full. *)
Lemma refresh_clients_rebuild self (w : MWorld) c0 rest e eps :
  _replica_discovery_enabled self = true ->
  Qle_bool (_next_update_time self) (reading w) = true ->
  discovered (_original_endpoint self) true (after_clock w) = Some (e :: eps) ->
  _replica_clients self = c0 :: rest ->
  Pool.valid (Manager.wrappers w) (c0 :: rest) ->
  connectable self (Manager.wrappers w) (e :: eps) ->
  exists picks w',
    Manager.refresh_clients self w =
    (Ok (set_next_update_time (set_replica_clients self (c0 :: picks))
           (reading
              (snd (for_each (e :: eps) (Manager.pick_client self) [c0]
                      (after_discovery (_original_endpoint self) true (after_clock w))))
            + MINIMAL_CLIENT_REFRESH_INTERVAL)), w')
    /\ length picks = S (length eps)
    /\ objects_kept w w'
    /\ (forall i e' c,
           (e :: eps) !! i = Some e' ->
           Pool.first_with_endpoint (Manager.wrappers w) e' (c0 :: rest) = Some c ->
           picks !! i = Some c)
    /\ (forall i e',
           (e :: eps) !! i = Some e' ->
           exists c, picks !! i = Some c
                     /\ (endpoint <$> Manager.wrappers w' !! c) = Some e')
    /\ ((forall e', e' ∈ e :: eps ->
                    is_Some (Pool.first_with_endpoint (Manager.wrappers w) e' (c0 :: rest))) ->
        Manager.wrappers w' = Manager.wrappers w
        /\ Manager.transports w' = Manager.transports w).
Proof.
  intros Hon Hdue Hanswer Hpool Hvalid Hparse.
  set (w1 := after_clock w) in *.
  set (w2 := after_discovery (_original_endpoint self) true w1).
  destruct (after_clock_objects w) as (Hw1 & Ht1 & _). fold w1 in Hw1, Ht1.
  destruct (after_discovery_objects (_original_endpoint self) true w1)
    as (Hw2 & Ht2 & _). fold w2 in Hw2, Ht2.
  rewrite <- Hpool in Hvalid.
  destruct (rebuild_run self (Manager.wrappers w) (e :: eps) [c0] w2 Hvalid)
    as (picks & w3 & Hrun & Hlen & _ & _ & Hkept & Hreuse & Hevery & Hsame).
  { rewrite Hw2, Hw1. reflexivity. }
  { exact Hparse. }
  destruct (after_clock_objects w3) as (Hw4 & Ht4 & _).
  exists picks, (after_clock w3).
  split; [|split; [exact Hlen|split; [|split; [|split]]]].
  - unfold Manager.refresh_clients. rewrite Hon.
    change (negb true) with false. cbv iota.
    unfold bind at 1. rewrite now_run, Hdue.
    change (negb true) with false. cbv iota.
    unfold bind at 1. rewrite discover_run. fold w1 w2. rewrite Hanswer.
    rewrite Hpool. unfold bind at 1. unfold ret at 1.
    unfold bind at 1. rewrite Hrun. simpl snd.
    unfold bind, ret. rewrite now_run. reflexivity.
  - destruct Hkept as [Hk1 Hk2]. split.
    + rewrite Hw4. rewrite Hw2, Hw1 in Hk1. exact Hk1.
    + rewrite Ht4. rewrite Ht2, Ht1 in Hk2. exact Hk2.
  - rewrite <- Hpool. exact Hreuse.
  - intros i e' Hi. destruct (Hevery i e' Hi) as (c & Hc & Hend).
    exists c. rewrite Hw4. split; assumption.
  - intros Hall. rewrite <- Hpool in Hall.
    rewrite Hw4, Ht4, (Hsame Hall), Hw2, Ht2, Hw1, Ht1. split; reflexivity.
Qed.

(** C7. When [refresh_clients] rebuilds the pool from a discovered list (and
    the clients it has to make can be made), the
    original client stays at position 0; the client taken for a discovered
    endpoint that some wrapper of the pool already has is that same wrapper
    object; every wrapper object that existed before is unchanged afterwards,
    [failed_attempts] and [backoff_end_time] included; and when the list is
    the endpoints of the replicas already in the pool (all distinct), the
    pool comes out as it was and nothing is created. *)
Theorem refresh_clients_rebuild_reuses_wrappers
  self (w : MWorld) c0 rest e eps :
  _replica_discovery_enabled self = true ->
  Qle_bool (_next_update_time self) (reading w) = true ->
  discovered (_original_endpoint self) true (after_clock w) = Some (e :: eps) ->
  _replica_clients self = c0 :: rest ->
  Pool.valid (Manager.wrappers w) (c0 :: rest) ->
  connectable self (Manager.wrappers w) (e :: eps) ->
  exists self' w',
    Manager.refresh_clients self w = (Ok self', w')
    /\ _replica_clients self' !! 0 = Some c0
    /\ length (_replica_clients self') = S (length (e :: eps))
    /\ (forall i e' c,
           (e :: eps) !! i = Some e' ->
           Pool.first_with_endpoint (Manager.wrappers w) e' (c0 :: rest) = Some c ->
           _replica_clients self' !! S i = Some c)
    /\ (forall c wc,
           Manager.wrappers w !! c = Some wc -> Manager.wrappers w' !! c = Some wc)
    /\ (NoDup (Pool.endpoints (Manager.wrappers w) (c0 :: rest)) ->
        Pool.endpoints (Manager.wrappers w) rest = Some <$> (e :: eps) ->
        _replica_clients self' = c0 :: rest
        /\ Manager.wrappers w' = Manager.wrappers w).
Proof.
  intros Hon Hdue Hanswer Hpool Hvalid Hparse.
  destruct (refresh_clients_rebuild self w c0 rest e eps Hon Hdue Hanswer Hpool Hvalid
              Hparse)
    as (picks & w' & Hrun & Hlen & [Hkept _] & Hreuse & _ & Hsame).
  eexists _, w'. split; [exact Hrun|]. simpl.
  split; [reflexivity|]. split; [now rewrite Hlen|].
  split; [exact Hreuse|].
  split; [intros c wc Hc; exact (prefix_lookup_Some _ _ _ _ Hc Hkept)|].
  intros Hnodup Hendpoints.
  assert (Hown : forall i e', (e :: eps) !! i = Some e' ->
            exists c, rest !! i = Some c
              /\ Pool.first_with_endpoint (Manager.wrappers w) e' (c0 :: rest) = Some c).
  { intros i e' Hi.
    assert (Hith : Pool.endpoints (Manager.wrappers w) rest !! i = Some (Some e')).
    { rewrite Hendpoints.
      change ((Some <$> (e :: eps)) !! i = Some (Some e')).
      rewrite list_lookup_fmap, Hi. reflexivity. }
    unfold Pool.endpoints in Hith. rewrite list_lookup_fmap in Hith.
    destruct (rest !! i) as [c|] eqn:Hc; [|discriminate]. simpl in Hith.
    destruct (Manager.wrappers w !! c) as [wc|] eqn:Hwc; [|discriminate].
    simpl in Hith. inversion Hith; subst.
    exists c. split; [reflexivity|].
    now apply (first_with_endpoint_own _ (c0 :: rest) (S i) c wc). }
  assert (Hpicks : picks = rest).
  { apply list_eq. intros i.
    destruct ((e :: eps) !! i) as [e'|] eqn:Hi.
    - destruct (Hown i e' Hi) as (c & Hc & Hfirst).
      now rewrite (Hreuse i e' c Hi Hfirst).
    - apply lookup_ge_None in Hi.
      assert (Hrest : length rest = length (e :: eps)).
      { rewrite <- (length_fmap (fun client => endpoint <$> Manager.wrappers w !! client)).
        change (length (Pool.endpoints (Manager.wrappers w) rest) = length (e :: eps)).
        rewrite Hendpoints. simpl. now rewrite length_fmap. }
      rewrite (proj2 (lookup_ge_None picks i)), (proj2 (lookup_ge_None rest i));
        [reflexivity| |]; simpl in *; lia. }
  split; [now rewrite Hpicks|].
  apply Hsame. intros e' He'.
  apply list_elem_of_lookup in He' as [i Hi].
  destruct (Hown i e' Hi) as (c & _ & Hfirst). eauto.
Qed.

(** C10. When the discovered list contains the endpoint of the original
    client (and the clients that the rebuild has to make can be made), the
    rebuilt pool holds the original client twice: at position 0
    and at the position of that endpoint; so the pool may hold two references
    to one endpoint. *)
Theorem refresh_clients_lists_original_twice
  self (w : MWorld) c0 wc0 rest e eps i :
  _replica_discovery_enabled self = true ->
  Qle_bool (_next_update_time self) (reading w) = true ->
  discovered (_original_endpoint self) true (after_clock w) = Some (e :: eps) ->
  _replica_clients self = c0 :: rest ->
  Pool.valid (Manager.wrappers w) (c0 :: rest) ->
  connectable self (Manager.wrappers w) (e :: eps) ->
  Manager.wrappers w !! c0 = Some wc0 ->
  endpoint wc0 = _original_endpoint self ->
  (e :: eps) !! i = Some (_original_endpoint self) ->
  exists self' w',
    Manager.refresh_clients self w = (Ok self', w')
    /\ _replica_clients self' !! 0 = Some c0
    /\ _replica_clients self' !! S i = Some c0
    /\ ~ NoDup (_replica_clients self').
Proof.
  intros Hon Hdue Hanswer Hpool Hvalid Hparse Hc0 Hend Hi.
  destruct (refresh_clients_rebuild self w c0 rest e eps Hon Hdue Hanswer Hpool Hvalid
              Hparse)
    as (picks & w' & Hrun & _ & _ & Hreuse & _).
  assert (Hfirst : Pool.first_with_endpoint (Manager.wrappers w)
                     (_original_endpoint self) (c0 :: rest) = Some c0).
  { simpl. rewrite Hc0, Hend, String.eqb_refl. reflexivity. }
  pose proof (Hreuse i _ c0 Hi Hfirst) as Hagain.
  eexists _, w'. split; [exact Hrun|]. simpl.
  split; [reflexivity|]. split; [exact Hagain|].
  intros Hnodup.
  pose proof (NoDup_lookup (c0 :: picks) 0 (S i) c0 Hnodup eq_refl Hagain).
  discriminate.
Qed.

(** C9, as the code has it.  [refresh_clients] closes nothing: a wrapper that
    existed before the call, dropped from the pool or not, is the same
    afterwards and so is its transport, which therefore stays open if it was
    open. *)
Theorem refresh_clients_closes_no_transport self (w : MWorld) c wc t :
  Manager.wrappers w !! c = Some wc ->
  Manager.transports w !! _client wc = Some t ->
  Manager.wrappers (snd (Manager.refresh_clients self w)) !! c = Some wc
  /\ Manager.transports (snd (Manager.refresh_clients self w)) !! _client wc = Some t.
Proof.
  intros Hc Ht. destruct (refresh_clients_keeps_objects self w) as [Hw Htr].
  split; eapply prefix_lookup_Some; eassumption.
Qed.

(** ** Construction *)

(** A loop that makes one new wrapper per endpoint and appends it. *)
Lemma allocate_each (make : string -> M MWorld loc) eps :
  (forall fe, fe ∈ eps -> forall w : MWorld,
      exists w', make fe w = (Ok (length (Manager.wrappers w)), w')
                 /\ length (Manager.wrappers w') = S (length (Manager.wrappers w))
                 /\ objects_kept w w') ->
  forall acc (w1 : MWorld),
    exists w2,
      for_each eps (fun clients fe => bind (make fe) (fun c' => ret (clients ++ [c'])))
        acc w1
      = (Ok (acc ++ seq (length (Manager.wrappers w1)) (length eps)), w2)
      /\ objects_kept w1 w2.
Proof.
  induction eps as [|fe eps IH]; intros Hmake acc w1.
  - exists w1. simpl. rewrite app_nil_r. split; [reflexivity|apply objects_kept_refl].
  - destruct (Hmake fe (list_elem_of_here _ _) w1) as (w' & Hrun & Hlen & Hkept).
    destruct (IH (fun fe' Hin => Hmake fe' (list_elem_of_further _ _ _ Hin))
                (acc ++ [length (Manager.wrappers w1)]) w')
      as (w2 & Hloop & Hkept').
    exists w2. cbn [for_each]. unfold bind at 1. unfold bind at 1. rewrite Hrun.
    unfold ret at 1. rewrite Hloop, Hlen, <- app_assoc.
    split; [reflexivity|eapply objects_kept_trans; eassumption].
Qed.

Lemma from_connection_string_run e cs ua rt rb kw (w : MWorld) :
  connection_string_parses cs = true ->
  exists w',
    Manager.from_connection_string e cs ua rt rb kw w
    = (Ok (length (Manager.wrappers w)), w')
    /\ length (Manager.wrappers w') = S (length (Manager.wrappers w))
    /\ objects_kept w w'
    /\ Manager.wrappers w' !! length (Manager.wrappers w)
       = Some {| endpoint := e; _client := length (Manager.transports w);
                 backoff_end_time := 0; failed_attempts := 0 |}
    /\ Manager.transports w' !! length (Manager.transports w)
       = Some {| auth := WithConnectionString cs; user_agent := ua; retry_total := rt;
                 retry_backoff_max := rb; extra := kw; closed := false |}.
Proof.
  intros Hparse.
  unfold Manager.from_connection_string, bind, Manager.new_transport,
    Manager.new_wrapper, alloc. rewrite Hparse. simpl.
  eexists. split; [reflexivity|]. simpl.
  split; [rewrite length_app; simpl; lia|].
  split; [split; simpl; now apply prefix_app_r|].
  split; now rewrite list_lookup_middle.
Qed.

(** A connection string that does not parse: the constructor of the
    transport raises and nothing is made. *)
Lemma from_connection_string_invalid e cs ua rt rb kw (w : MWorld) :
  connection_string_parses cs = false ->
  Manager.from_connection_string e cs ua rt rb kw w
  = (Raise (ValueError "Invalid connection string."), w).
Proof.
  intros Hparse. unfold Manager.from_connection_string, bind. now rewrite Hparse.
Qed.

(** C3, as the code has it.  Construction raises the configuration error and
    creates no wrapper and no transport when the arguments supply neither a
    non-empty connection string with a non-empty endpoint nor a non-empty
    endpoint with a credential.  With a non-empty connection string and a
    non-empty endpoint the connection string decides, whether or not a
    credential is supplied as well.  When it parses, as do the connection
    strings made from it for the discovered endpoints, construction succeeds:
    the clients are built from the connection string, the original one first
    and one per discovered endpoint.  When it does not parse, construction
    raises the error of the transport's constructor, which is not the
    configuration error, and creates nothing. *)
Theorem init_configuration_contract
  connection_string ep credential user_agent retry_total retry_backoff_max
  replica_discovery_enabled min_backoff_sec max_backoff_sec kwargs (w : MWorld) :
  let run :=
    Manager.__init__ connection_string ep credential user_agent retry_total
      retry_backoff_max replica_discovery_enabled min_backoff_sec max_backoff_sec
      kwargs w in
  let w2 := after_discovery ep replica_discovery_enabled (after_clock w) in
  (opt_str_truthy connection_string && str_truthy ep = false ->
   str_truthy ep && opt_truthy credential = false ->
   run = (Raise (ValueError
            "Please pass either endpoint and credential, or a connection string with a value."),
          w2)
   /\ Manager.wrappers w2 = Manager.wrappers w
   /\ Manager.transports w2 = Manager.transports w)
  /\ (forall cs eps,
        connection_string = Some cs ->
        str_truthy cs && str_truthy ep = true ->
        discovered ep replica_discovery_enabled (after_clock w) = Some eps ->
        Forall (fun s => connection_string_parses s = true)
          (cs :: ((fun fe => replace cs ep fe) <$> eps)) ->
        exists self' w',
          run = (Ok self', w')
          /\ _replica_clients self'
             = seq (length (Manager.wrappers w)) (S (length eps))
          /\ _credential self' = credential
          /\ (endpoint <$> Manager.wrappers w' !! length (Manager.wrappers w))
             = Some ep
          /\ (auth <$> Manager.transports w' !! length (Manager.transports w))
             = Some (WithConnectionString cs))
  /\ (forall cs,
        connection_string = Some cs ->
        str_truthy cs && str_truthy ep = true ->
        connection_string_parses cs = false ->
        run = (Raise (ValueError "Invalid connection string."), w2)
        /\ Manager.wrappers w2 = Manager.wrappers w
        /\ Manager.transports w2 = Manager.transports w).
Proof.
  intros run w2.
  destruct (after_clock_objects w) as (Hw1 & Ht1 & _).
  destruct (after_discovery_objects ep replica_discovery_enabled (after_clock w))
    as (Hw2 & Ht2 & _). fold w2 in Hw2, Ht2.
  split; [|split].
  - intros Hno1 Hno2. unfold run, Manager.__init__.
    unfold bind at 1. rewrite now_run. unfold bind at 1. rewrite discover_run.
    fold w2. rewrite Hno1, Hno2.
    split; [reflexivity|]. split; congruence.
  - intros cs eps -> Hyes Hanswer Hparse. unfold run, Manager.__init__.
    apply Forall_cons in Hparse as [Hparse0 Hparse].
    unfold bind at 1. rewrite now_run. unfold bind at 1. rewrite discover_run.
    fold w2. rewrite Hanswer.
    change (opt_str_truthy (Some cs)) with (str_truthy cs). rewrite Hyes.
    change (default EmptyString (Some cs)) with cs.
    destruct (from_connection_string_run ep cs user_agent retry_total
                retry_backoff_max kwargs w2 Hparse0)
      as (w3 & Hfirst & Hlen & _ & Hwrap & Htrans).
    unfold bind at 1. rewrite Hfirst.
    unfold bind at 1. unfold Manager.iterate, ret at 1.
    destruct (allocate_each
                (fun fe => Manager.from_connection_string fe
                             (replace cs ep fe) user_agent retry_total
                             retry_backoff_max kwargs) eps) with
      (acc := [length (Manager.wrappers w2)]) (w1 := w3) as (w4 & Hloop & Hkept).
    { intros fe Hfe w'.
      assert (Hfe' : connection_string_parses (replace cs ep fe) = true).
      { rewrite Forall_fmap in Hparse.
        exact (proj1 (Forall_forall _ _) Hparse fe Hfe). }
      destruct (from_connection_string_run fe (replace cs ep fe) user_agent
                  retry_total retry_backoff_max kwargs w' Hfe')
        as (w'' & H1 & H2 & H3 & _). eauto. }
    unfold bind at 1.
    match goal with
    | |- context [for_each eps ?body ?acc ?st] =>
        change (for_each eps body acc st)
          with (for_each eps
                  (fun clients fe =>
                     bind (Manager.from_connection_string fe (replace cs ep fe)
                             user_agent retry_total retry_backoff_max kwargs)
                       (fun c' => ret (clients ++ [c'])))
                  [length (Manager.wrappers w2)] w3)
    end.
    rewrite Hloop. unfold ret. eexists _, w4. split; [reflexivity|]. simpl.
    split; [now rewrite Hlen, Hw2, Hw1|].
    split; [reflexivity|].
    destruct Hkept as [Hkw Hkt]. rewrite Hw2, Hw1 in Hwrap. rewrite Ht2, Ht1 in Htrans.
    split.
    + now rewrite (prefix_lookup_Some _ _ _ _ Hwrap Hkw).
    + now rewrite (prefix_lookup_Some _ _ _ _ Htrans Hkt).
  - intros cs -> Hyes Hparse. unfold run, Manager.__init__.
    unfold bind at 1. rewrite now_run. unfold bind at 1. rewrite discover_run.
    fold w2.
    change (opt_str_truthy (Some cs)) with (str_truthy cs). rewrite Hyes.
    change (default EmptyString (Some cs)) with cs.
    unfold bind at 1. rewrite (from_connection_string_invalid _ _ _ _ _ _ _ Hparse).
    split; [reflexivity|]. split; congruence.
Qed.

End ManagerFacts.

(** ** Concrete runs of the manager *)

Section ScriptedManagerRuns.
Import Scripted Rebuild.

Lemma pool_world_valid replicas :
  Pool.valid (Manager.wrappers (pool_world replicas)) [0; 1].
Proof. repeat constructor. Defined.

(** The connection string of [pool_manager] with its endpoint replaced
    still starts with [Endpoint=]. *)
Lemma pool_manager_connectable discovery_enabled next_update_time ws eps :
  connectable (pool_manager discovery_enabled next_update_time) ws eps.
Proof. intros e _ _. destruct e; vm_compute; reflexivity. Defined.

(** C3, as stated, fails: with a connection string and a credential both
    supplied, construction returns a manager with one client. *)
Lemma init_accepts_connection_string_with_credential :
  exists self' w',
    Manager.__init__ (Some "Endpoint=https://a.io;Id=1;Secret=s") "https://a.io" (Some 7)
      "ua" 3 60 false 30 600 [] (empty_world (Some []))
    = (Ok self', w')
    /\ _replica_clients self' = [0]
    /\ length (Manager.wrappers w') = 1.
Proof. eexists _, _. vm_compute. repeat split. Qed.

Lemma init_configuration_contract_witness :
  (Manager.__init__ None "https://a.io" None "ua" 3 60 false 30 600 []
     (empty_world (Some [])))
  = (Raise (ValueError
       "Please pass either endpoint and credential, or a connection string with a value."),
     after_discovery "https://a.io" false (after_clock (empty_world (Some []))))
  /\ (exists self' w',
        Manager.__init__ (Some "Endpoint=https://a.io;Id=1;Secret=s") "https://a.io"
          (Some 7) "ua" 3 60 true 30 600 [] (empty_world (Some ["https://b.io"]))
        = (Ok self', w')
        /\ _replica_clients self' = [0; 1])
  /\ Manager.__init__ (Some "garbage") "https://a.io" (Some 7) "ua" 3 60 true 30 600 []
       (empty_world (Some ["https://b.io"]))
     = (Raise (ValueError "Invalid connection string."),
        after_discovery "https://a.io" true
          (after_clock (empty_world (Some ["https://b.io"])))).
Proof.
  split; [|split].
  - refine (proj1 (proj1 (init_configuration_contract None "https://a.io" None "ua" 3 60
                            false 30 600 [] (empty_world (Some []))) _ _));
      reflexivity.
  - destruct (proj1 (proj2 (init_configuration_contract
                              (Some "Endpoint=https://a.io;Id=1;Secret=s") "https://a.io"
                              (Some 7) "ua" 3 60 true 30 600 []
                              (empty_world (Some ["https://b.io"]))))
                _ ["https://b.io"] eq_refl ltac:(reflexivity) ltac:(reflexivity)
                ltac:(repeat constructor))
      as (self' & w' & Hrun & Hpool & _).
    exists self', w'. split; [exact Hrun|exact Hpool].
  - refine (proj1 (proj2 (proj2 (init_configuration_contract (Some "garbage")
                                   "https://a.io" (Some 7) "ua" 3 60 true 30 600 []
                                   (empty_world (Some ["https://b.io"]))))
                     "garbage" eq_refl _ _)); reflexivity.
Defined.

Lemma calculate_backoff_within_bounds_witness :
  fst (Manager._calculate_backoff (backoff_manager 30 30) 5 (empty_world None))
  = Ok (inject_Z 30000)
  /\ exists r,
       fst (Manager._calculate_backoff (backoff_manager 30 600) 3 (empty_world None))
       = Ok r
       /\ (inject_Z 30000 <= r)%Q /\ (r <= inject_Z 600000)%Q.
Proof.
  split.
  - refine (proj1 (calculate_backoff_within_bounds (backoff_manager 30 30) 5
                     (empty_world None)) _). simpl. lia.
  - refine (proj2 (calculate_backoff_within_bounds (backoff_manager 30 600) 3
                     (empty_world None)) _ _ _ _); simpl; try lia;
      unfold Qle; simpl; lia.
Defined.

Lemma refresh_clients_leaves_pool_unchanged_witness :
  Manager.refresh_clients (pool_manager false 0) (pool_world None)
  = (Ok (pool_manager false 0), pool_world None)
  /\ Manager.refresh_clients (pool_manager true 5000) (pool_world None)
     = (Ok (pool_manager true 5000), after_clock (pool_world None))
  /\ Manager.refresh_clients (pool_manager true 0) (pool_world None)
     = (Ok (pool_manager true 4600),
        after_clock (after_discovery "https://a.io" true (after_clock (pool_world None))))
  /\ Manager.refresh_clients (pool_manager true 0) (pool_world (Some []))
     = (Ok (pool_manager true 1030),
        after_clock
          (after_discovery "https://a.io" true (after_clock (pool_world (Some []))))).
Proof.
  split; [|split; [|split]].
  - refine (proj1 (refresh_clients_leaves_pool_unchanged (pool_manager false 0)
                     (pool_world None)) _). reflexivity.
  - refine (proj1 (proj1 (proj2 (refresh_clients_leaves_pool_unchanged
                                   (pool_manager true 5000) (pool_world None))) _ _));
      reflexivity.
  - refine (proj1 (proj2 (proj2 (refresh_clients_leaves_pool_unchanged
                                   (pool_manager true 0) (pool_world None))))
              _ _ _); reflexivity.
  - refine (proj1 (proj2 (proj2 (proj2 (refresh_clients_leaves_pool_unchanged
                                          (pool_manager true 0) (pool_world (Some []))))))
              _ _ _); reflexivity.
Defined.

Lemma refresh_clients_rebuild_reuses_wrappers_witness :
  exists self' w',
    Manager.refresh_clients (pool_manager true 0) (pool_world (Some ["https://b.io"]))
    = (Ok self', w')
    /\ _replica_clients self' = [0; 1]
    /\ Manager.wrappers w' !! 1
       = Some (wrapper_at "https://b.io" 1 2 (2000000 # 1)).
Proof.
  destruct (refresh_clients_rebuild_reuses_wrappers (pool_manager true 0)
              (pool_world (Some ["https://b.io"])) 0 [1] "https://b.io" []
              ltac:(reflexivity) ltac:(reflexivity) ltac:(reflexivity)
              ltac:(reflexivity) (pool_world_valid _) (pool_manager_connectable _ _ _ _))
    as (self' & w' & Hrun & _ & _ & _ & Hkept & Hsame).
  exists self', w'. split; [exact Hrun|]. split.
  - refine (proj1 (Hsame _ ltac:(reflexivity))).
    apply (bool_decide_unpack _). vm_compute. reflexivity.
  - apply Hkept. reflexivity.
Defined.

Lemma refresh_clients_lists_original_twice_witness :
  exists self' w',
    Manager.refresh_clients (pool_manager true 0)
      (pool_world (Some ["https://b.io"; "https://a.io"]))
    = (Ok self', w')
    /\ _replica_clients self' !! 0 = Some 0
    /\ _replica_clients self' !! 2 = Some 0.
Proof.
  destruct (refresh_clients_lists_original_twice (pool_manager true 0)
              (pool_world (Some ["https://b.io"; "https://a.io"])) 0
              (wrapper_at "https://a.io" 0 0 0) [1] "https://b.io" ["https://a.io"] 1
              ltac:(reflexivity) ltac:(reflexivity) ltac:(reflexivity)
              ltac:(reflexivity) (pool_world_valid _) (pool_manager_connectable _ _ _ _)
              ltac:(reflexivity) ltac:(reflexivity) ltac:(reflexivity))
    as (self' & w' & Hrun & H0 & H2 & _).
  exists self', w'. split; [exact Hrun|]. split; assumption.
Defined.

(** C9, as stated, fails: discovery now advertises only [https://c.io]; the
    rebuild drops the wrapper of [https://b.io] (location 1) from the pool and
    its transport is still open afterwards. *)
Lemma refresh_clients_leaves_dropped_transport_open :
  exists self' w',
    Manager.refresh_clients (pool_manager true 0) (pool_world (Some ["https://c.io"]))
    = (Ok self', w')
    /\ _replica_clients (pool_manager true 0) = [0; 1]
    /\ _replica_clients self' = [0; 2]
    /\ (_client <$> Manager.wrappers w' !! 1) = Some 1
    /\ (closed <$> Manager.transports w' !! 1) = Some false.
Proof. eexists _, _. vm_compute. repeat split. Qed.

Lemma refresh_clients_closes_no_transport_witness :
  (closed <$>
     Manager.transports
       (snd (Manager.refresh_clients (pool_manager true 0)
               (pool_world (Some ["https://c.io"])))) !! 1)
  = Some false.
Proof.
  destruct (refresh_clients_closes_no_transport (pool_manager true 0)
              (pool_world (Some ["https://c.io"])) 1
              (wrapper_at "https://b.io" 1 2 (2000000 # 1))
              (open_transport "Endpoint=https://b.io;Id=1;Secret=s")
              ltac:(reflexivity) ltac:(reflexivity)) as [_ Hopen].
  simpl _client in Hopen. rewrite Hopen. reflexivity.
Defined.

End ScriptedManagerRuns.

(** * Further properties of the wrapper *)

Section LoopFacts.
Context {St : Type}.

Lemma for_each_app {A B} (l1 l2 : list A) (body : B -> A -> M St B) acc (st : St) :
  for_each (l1 ++ l2) body acc st
  = bind (for_each l1 body acc) (for_each l2 body) st.
Proof.
  revert acc st. induction l1 as [|x l1 IH]; intros acc st; simpl.
  - reflexivity.
  - unfold bind in *.
    destruct (body acc x st) as [[acc'|e] st']; [|reflexivity].
    apply IH.
Qed.

End LoopFacts.

Section LoadFacts.
Context {Server : Type} `{client : AzureAppConfigurationClient Server}.
Import ChangeDetection Loading.

Local Abbreviation World := (Wrapper.World (Server := Server)).

Lemma ask_lists_app filters1 filters2 (srv : Server) :
  ask_lists (filters1 ++ filters2) srv
  = (fst (ask_lists filters1 srv) ++ fst (ask_lists filters2 (snd (ask_lists filters1 srv))),
     snd (ask_lists filters2 (snd (ask_lists filters1 srv)))).
Proof.
  revert srv. induction filters1 as [|[kf lf] filters1 IH]; intros srv; simpl.
  - now destruct (ask_lists filters2 srv).
  - destruct (list_configuration_settings kf lf srv) as [a srv1].
    rewrite IH. destruct (ask_lists filters1 srv1) as [rest srv2]. reflexivity.
Qed.

(** The outer loop of a load when every listing succeeds. *)
Lemma load_selects_listed refresh_on selects :
  forall acc (w : World) (d : SentinelKeys),
    Wrapper.dicts w !! refresh_on = Some d ->
    forallb is_listed (fst (ask_lists (filters_of selects) (Wrapper.server w))) = true ->
    for_each selects (Wrapper.load_select refresh_on refresh_on) acc w =
    (Ok (acc ++ listed_settings (fst (ask_lists (filters_of selects) (Wrapper.server w)))),
     after_lists (filters_of selects)
       (snd (ask_lists (filters_of selects) (Wrapper.server w)))
       (<[refresh_on :=
            fold_left overwrite_watched
              (listed_settings (fst (ask_lists (filters_of selects) (Wrapper.server w))))
              d]> (Wrapper.dicts w))
       (Wrapper.events w)).
Proof.
  induction selects as [|select selects IH]; intros acc w d Hd Hok.
  - simpl. unfold ret, after_lists, listed_settings. simpl.
    rewrite !app_nil_r, list_insert_id by exact Hd. now destruct w.
  - cbn [for_each]. unfold bind at 1. unfold Wrapper.load_select at 1.
    unfold bind at 1. unfold Wrapper.client_list at 1.
    cbn [filters_of fmap list_fmap ask_lists] in Hok |- *.
    destruct (list_configuration_settings (key_filter select) (label_filter select)
                (Wrapper.server w)) as [[l|status_code] srv1]; cycle 1.
    { destruct (ask_lists _ srv1); discriminate. }
    rewrite (keep_configurations_run refresh_on l acc _ d) by exact Hd.
    assert (Hlt : refresh_on < length (Wrapper.dicts w))
      by (eapply lookup_lt_Some; exact Hd).
    change ((fun select => (key_filter select, label_filter select)) <$> selects)
      with (filters_of selects) in *.
    destruct (ask_lists (filters_of selects) srv1) as [rest srv2] eqn:Hrest.
    simpl in Hok.
    rewrite (IH (acc ++ l) _ (fold_left overwrite_watched l d)); simpl;
      rewrite ?Hrest; simpl; [|now apply list_lookup_insert_eq|exact Hok].
    unfold after_lists, listed_settings. simpl.
    rewrite list_insert_insert_eq, fold_left_app, <- !app_assoc. reflexivity.
Qed.

(** X1. When every listing succeeds, [load_configuration_settings] sends one
    listing per selector, in order, and returns everything that was listed,
    in that order, feature flags included; the caller's map has the etag of
    every watched setting among them overwritten. *)
Theorem load_configuration_settings_returns_listings
  selects refresh_on (w : World) (d : SentinelKeys) :
  Wrapper.dicts w !! refresh_on = Some d ->
  forallb is_listed (fst (ask_lists (filters_of selects) (Wrapper.server w))) = true ->
  let answers := fst (ask_lists (filters_of selects) (Wrapper.server w)) in
  Wrapper.load_configuration_settings selects refresh_on None w =
  (Ok (listed_settings answers, refresh_on),
   after_lists (filters_of selects)
     (snd (ask_lists (filters_of selects) (Wrapper.server w)))
     (<[refresh_on := fold_left overwrite_watched (listed_settings answers) d]>
        (Wrapper.dicts w))
     (Wrapper.events w ++ [EnteredLoadConfigurationSettings selects refresh_on])).
Proof.
  intros Hd Hok answers. unfold Wrapper.load_configuration_settings.
  unfold bind at 1. unfold Wrapper.log, modify. unfold bind at 1. simpl default.
  rewrite (load_selects_listed refresh_on selects [] _ d); [reflexivity|exact Hd|exact Hok].
Qed.

(** X2. When the listing for one selector fails, [load_configuration_settings]
    raises that error and lists nothing further; the etags that the earlier
    listings wrote into the caller's map stay written. *)
Theorem load_configuration_settings_listing_failure
  pre select post refresh_on (w : World) (d : SentinelKeys) status_code :
  Wrapper.dicts w !! refresh_on = Some d ->
  forallb is_listed (fst (ask_lists (filters_of pre) (Wrapper.server w))) = true ->
  fst (list_configuration_settings (key_filter select) (label_filter select)
         (snd (ask_lists (filters_of pre) (Wrapper.server w))))
  = ListFailed status_code ->
  Wrapper.load_configuration_settings (pre ++ select :: post) refresh_on None w =
  (Raise (HttpResponseError status_code),
   after_lists (filters_of (pre ++ [select]))
     (snd (list_configuration_settings (key_filter select) (label_filter select)
             (snd (ask_lists (filters_of pre) (Wrapper.server w)))))
     (<[refresh_on :=
          fold_left overwrite_watched
            (listed_settings (fst (ask_lists (filters_of pre) (Wrapper.server w)))) d]>
        (Wrapper.dicts w))
     (Wrapper.events w
      ++ [EnteredLoadConfigurationSettings (pre ++ select :: post) refresh_on])).
Proof.
  intros Hd Hok Hfail. unfold Wrapper.load_configuration_settings.
  unfold bind at 1. unfold Wrapper.log, modify. unfold bind at 1. simpl default.
  rewrite for_each_app. unfold bind at 1.
  rewrite (load_selects_listed refresh_on pre [] _ d); [|exact Hd|exact Hok].
  cbn [for_each]. unfold bind at 1. unfold Wrapper.load_select at 1.
  unfold bind at 1. unfold Wrapper.client_list at 1. simpl Wrapper.server.
  destruct (list_configuration_settings (key_filter select) (label_filter select)
              (snd (ask_lists (filters_of pre) (Wrapper.server w))))
    as [a srv2]. simpl in Hfail. subst a.
  unfold after_lists, filters_of, sent_lists. simpl.
  rewrite !fmap_app, <- !app_assoc. reflexivity.
Qed.

(** The inner loop of a load whose [sentinel_keys] is another dict than
    [refresh_on]. *)
Lemma keep_configurations_separate refresh_on sentinel_keys configs :
  sentinel_keys <> refresh_on ->
  forall acc (w : World) (d d' : SentinelKeys),
    Wrapper.dicts w !! refresh_on = Some d ->
    Wrapper.dicts w !! sentinel_keys = Some d' ->
    for_each configs (Wrapper.keep_configuration refresh_on sentinel_keys) acc w =
    (Ok (acc ++ configs),
     with_dicts w
       (<[sentinel_keys := fold_left (overwrite_into d) configs d']> (Wrapper.dicts w))).
Proof.
  intros Hne. induction configs as [|config configs IH]; intros acc w d d' Hd Hd'.
  - simpl. unfold ret. rewrite app_nil_r, list_insert_id by exact Hd'.
    now rewrite with_dicts_id.
  - cbn [for_each fold_left].
    unfold bind at 1. unfold Wrapper.keep_configuration at 1.
    unfold bind at 1. unfold Wrapper.read_dict at 1. rewrite Hd.
    assert (Hlt : sentinel_keys < length (Wrapper.dicts w))
      by (eapply lookup_lt_Some; exact Hd').
    unfold overwrite_into at 2.
    destruct (dict_in (Setting.key config, Setting.label config) d) eqn:Hin.
    + unfold bind at 1. unfold Wrapper.setitem, bind, Wrapper.read_dict, modify, ret.
      rewrite Hd'.
      rewrite (IH _ _ d (dict_set d' (Setting.key config, Setting.label config)
                           (Setting.etag config))).
      * unfold with_dicts. simpl. rewrite list_insert_insert_eq, <- app_assoc.
        reflexivity.
      * simpl. rewrite list_lookup_insert_ne by exact Hne. exact Hd.
      * simpl. now apply list_lookup_insert_eq.
    + unfold ret. rewrite (IH _ _ d d' Hd Hd'), <- app_assoc. reflexivity.
Qed.

Lemma load_selects_separate refresh_on sentinel_keys selects :
  sentinel_keys <> refresh_on ->
  forall acc (w : World) (d d' : SentinelKeys) res w',
    Wrapper.dicts w !! refresh_on = Some d ->
    Wrapper.dicts w !! sentinel_keys = Some d' ->
    for_each selects (Wrapper.load_select refresh_on sentinel_keys) acc w = (Ok res, w') ->
    exists new,
      res = acc ++ new
      /\ Wrapper.dicts w'
         = <[sentinel_keys := fold_left (overwrite_into d) new d']> (Wrapper.dicts w).
Proof.
  intros Hne.
  induction selects as [|select selects IH]; intros acc w d d' res w' Hd Hd' Hrun.
  - simpl in Hrun. unfold ret in Hrun. inversion Hrun; subst.
    exists []. rewrite app_nil_r. simpl. now rewrite list_insert_id.
  - cbn [for_each] in Hrun. unfold bind at 1 in Hrun.
    unfold Wrapper.load_select at 1 in Hrun. unfold bind at 1 in Hrun.
    unfold Wrapper.client_list at 1 in Hrun.
    destruct (list_configuration_settings (key_filter select) (label_filter select)
                (Wrapper.server w)) as [[l|status_code] srv]; [|discriminate].
    rewrite (keep_configurations_separate refresh_on sentinel_keys l Hne acc _ d d')
      in Hrun by assumption.
    assert (Hlt : sentinel_keys < length (Wrapper.dicts w))
      by (eapply lookup_lt_Some; exact Hd').
    eapply (IH _ _ d) in Hrun as (new & -> & Hdicts).
    + exists (l ++ new). split; [now rewrite app_assoc|].
      rewrite Hdicts. simpl. now rewrite list_insert_insert_eq, fold_left_app.
    + simpl. rewrite list_lookup_insert_ne by exact Hne. exact Hd.
    + simpl. now apply list_lookup_insert_eq.
Qed.

(** X3. Called with a separate [sentinel_keys] dict, [load_configuration_settings]
    returns that dict and writes only into it: for each returned setting whose
    (key, label) is in [refresh_on], the etag is assigned in [sentinel_keys]
    (added there if the key is new); [refresh_on] itself is left as it was. *)
Theorem load_configuration_settings_separate_sentinel_keys
  selects refresh_on sentinel_keys (w : World) (d d' : SentinelKeys) settings r w' :
  sentinel_keys <> refresh_on ->
  Wrapper.dicts w !! refresh_on = Some d ->
  Wrapper.dicts w !! sentinel_keys = Some d' ->
  Wrapper.load_configuration_settings selects refresh_on (Some sentinel_keys) w
  = (Ok (settings, r), w') ->
  r = sentinel_keys
  /\ Wrapper.dicts w'
     = <[sentinel_keys := fold_left (overwrite_into d) settings d']> (Wrapper.dicts w)
  /\ Wrapper.dicts w' !! refresh_on = Some d.
Proof.
  intros Hne Hd Hd' Hrun. unfold Wrapper.load_configuration_settings in Hrun.
  unfold bind at 1 in Hrun. unfold Wrapper.log, modify in Hrun.
  unfold bind at 1 in Hrun. simpl default in Hrun.
  match type of Hrun with
  | context [for_each selects ?body ?acc ?w1] =>
      destruct (for_each selects body acc w1) as [[res|e] w2] eqn:Hloop;
        [|discriminate]
  end.
  unfold ret in Hrun. inversion Hrun; subst.
  eapply (load_selects_separate _ _ _ Hne _ _ d d') in Hloop as (new & -> & Hdicts);
    [|exact Hd|exact Hd'].
  simpl in Hdicts. split; [reflexivity|]. split; [exact Hdicts|].
  rewrite Hdicts, list_lookup_insert_ne by exact Hne. exact Hd.
Qed.

Lemma ask_all_app headers items1 items2 (srv : Server) :
  ask_all headers (items1 ++ items2) srv
  = (fst (ask_all headers items1 srv)
     ++ fst (ask_all headers items2 (snd (ask_all headers items1 srv))),
     snd (ask_all headers items2 (snd (ask_all headers items1 srv)))).
Proof.
  revert srv. induction items1 as [|[[key label] etag] items1 IH]; intros srv; simpl.
  - now destruct (ask_all headers items2 srv).
  - destruct (get_configuration_setting key label etag headers srv) as [a srv1].
    rewrite IH. destruct (ask_all headers items1 srv1) as [rest srv2]. reflexivity.
Qed.

(** The loop of a refresh up to the first answer that is a transport error
    other than 404. *)
Lemma refresh_loop_raises headers pre :
  forall n i need_refresh (usk : SentinelKeys) (w : World) key label etag post status_code,
    drop i usk = pre ++ ((key, label), etag) :: post ->
    length (pre ++ ((key, label), etag) :: post) <= n ->
    forallb recognised (fst (ask_all headers pre (Wrapper.server w))) = true ->
    fst (get_configuration_setting key label etag headers
           (snd (ask_all headers pre (Wrapper.server w)))) = Failed status_code ->
    status_code <> 404%Z ->
    Wrapper.refresh_loop headers n i need_refresh usk w =
    (Raise (HttpResponseError status_code),
     after_gets (pre ++ [((key, label), etag)])
       (snd (get_configuration_setting key label etag headers
               (snd (ask_all headers pre (Wrapper.server w))))) w).
Proof.
  induction pre as [|[[key0 label0] etag0] pre IH];
    intros n i need_refresh usk w key label etag post status_code
           Hdrop Hlen Hrec Hfail Hne.
  - simpl in *. apply drop_lookup_cons in Hdrop as [Hi _].
    destruct n as [|n]; [lia|]. simpl.
    unfold SentinelKeys, dict in *. rewrite Hi. unfold bind at 1.
    rewrite check_unfold.
    destruct (get_configuration_setting key label etag headers (Wrapper.server w))
      as [a srv1]. simpl in *. subst a. simpl.
    destruct (decide (status_code = 404%Z)); [contradiction|reflexivity].
  - simpl in Hdrop. apply drop_lookup_cons in Hdrop as [Hi Hrest].
    destruct n as [|n]; [simpl in Hlen; lia|]. simpl in Hlen. simpl.
    unfold SentinelKeys, dict in *. rewrite Hi. unfold bind at 1.
    rewrite check_unfold. simpl in Hrec, Hfail |- *.
    destruct (get_configuration_setting key0 label0 etag0 headers (Wrapper.server w))
      as [a srv1] eqn:Hget. simpl in *.
    destruct (ask_all headers pre srv1) as [rest srv2] eqn:Hask. simpl in *.
    apply andb_prop in Hrec as [Hreca Hrecs].
    pose proof (checkForChange_recognised ((key0, label0), etag0) a Hreca) as Hcheck.
    simpl in Hcheck. rewrite Hcheck. clear Hcheck. cbv beta iota.
    etransitivity.
    { eapply (IH n (S i) _ _ (after_get key0 label0 etag0 srv1 w) key label etag post
                status_code); simpl; rewrite ?Hask; simpl;
        [|lia|exact Hrecs|exact Hfail|exact Hne].
      destruct a; try exact Hrest.
      rewrite (dict_set_drop _ _ _ _ _ Hi). exact Hrest. }
    simpl. rewrite Hask. simpl. now rewrite after_gets_cons.
Qed.

(** X4. When the service answers the check of some watched entry with a
    transport error other than 404, all earlier answers being ones the check
    returns on, [refresh_configuration_settings] raises that error: the
    entries after it are not asked about, nothing is loaded and no dict is
    touched, whatever the earlier entries reported. *)
Theorem refresh_configuration_settings_propagates_error
  selects refresh_on headers kwargs (w : World) pre key label etag post status_code :
  Wrapper.dicts w !! refresh_on
  = Some ((pre ++ ((key, label), etag) :: post) : SentinelKeys) ->
  forallb recognised (fst (ask_all headers pre (Wrapper.server w))) = true ->
  fst (get_configuration_setting key label etag headers
         (snd (ask_all headers pre (Wrapper.server w)))) = Failed status_code ->
  status_code <> 404%Z ->
  Wrapper.refresh_configuration_settings selects refresh_on headers kwargs w =
  (Raise (HttpResponseError status_code),
   after_gets (pre ++ [((key, label), etag)])
     (snd (get_configuration_setting key label etag headers
             (snd (ask_all headers pre (Wrapper.server w))))) w).
Proof.
  intros Hd Hrec Hfail Hne. unfold Wrapper.refresh_configuration_settings.
  unfold bind at 1. unfold Wrapper.read_dict at 1. rewrite Hd.
  unfold bind at 1.
  rewrite (refresh_loop_raises headers pre _ 0 false _ w key label etag post status_code);
    [reflexivity|apply drop_0|reflexivity|exact Hrec|exact Hfail|exact Hne].
Qed.

End LoadFacts.

(** ** Loading feature flags *)

Section FlagLoadFacts.
Context {Server : Type} `{client : AzureAppConfigurationClient Server}.
Context {Json : Type}.
Variable json_loads : string -> option Json.
Variable FEATURE_FLAG_PREFIX : string.
Variables PERCENTAGE_FILTER_NAMES TIME_WINDOW_FILTER_NAMES TARGETING_FILTER_NAMES : list string.
Variables CUSTOM_FILTER_KEY PERCENTAGE_FILTER_KEY TIME_WINDOW_FILTER_KEY TARGETING_FILTER_KEY : string.
Import ChangeDetection Loading.

Local Abbreviation World := (Wrapper.World (Server := Server)).
Local Abbreviation load_feature_flags :=
  (Wrapper.load_feature_flags json_loads FEATURE_FLAG_PREFIX
     PERCENTAGE_FILTER_NAMES TIME_WINDOW_FILTER_NAMES TARGETING_FILTER_NAMES
     CUSTOM_FILTER_KEY PERCENTAGE_FILTER_KEY TIME_WINDOW_FILTER_KEY TARGETING_FILTER_KEY).
Local Abbreviation refresh_feature_flags :=
  (Wrapper.refresh_feature_flags json_loads FEATURE_FLAG_PREFIX
     PERCENTAGE_FILTER_NAMES TIME_WINDOW_FILTER_NAMES TARGETING_FILTER_NAMES
     CUSTOM_FILTER_KEY PERCENTAGE_FILTER_KEY TIME_WINDOW_FILTER_KEY TARGETING_FILTER_KEY).
Local Abbreviation classify_filter :=
  (Wrapper.classify_filter PERCENTAGE_FILTER_NAMES TIME_WINDOW_FILTER_NAMES
     TARGETING_FILTER_NAMES CUSTOM_FILTER_KEY PERCENTAGE_FILTER_KEY
     TIME_WINDOW_FILTER_KEY TARGETING_FILTER_KEY).
Local Abbreviation tally :=
  (Loading.tally PERCENTAGE_FILTER_NAMES TIME_WINDOW_FILTER_NAMES
     TARGETING_FILTER_NAMES CUSTOM_FILTER_KEY PERCENTAGE_FILTER_KEY
     TIME_WINDOW_FILTER_KEY TARGETING_FILTER_KEY).
Local Abbreviation tally_flag :=
  (Loading.tally_flag PERCENTAGE_FILTER_NAMES TIME_WINDOW_FILTER_NAMES
     TARGETING_FILTER_NAMES CUSTOM_FILTER_KEY PERCENTAGE_FILTER_KEY
     TIME_WINDOW_FILTER_KEY TARGETING_FILTER_KEY).
Local Abbreviation filter_key :=
  (Loading.filter_key PERCENTAGE_FILTER_NAMES TIME_WINDOW_FILTER_NAMES
     TARGETING_FILTER_NAMES CUSTOM_FILTER_KEY PERCENTAGE_FILTER_KEY
     TIME_WINDOW_FILTER_KEY TARGETING_FILTER_KEY).
Local Abbreviation parse_all := (Loading.parse_all json_loads).
Local Abbreviation flag_filters_of := (Loading.flag_filters_of FEATURE_FLAG_PREFIX).

Lemma parse_all_app l1 l2 p :
  parse_all (l1 ++ l2) = Some p ->
  exists p1 p2, parse_all l1 = Some p1 /\ parse_all l2 = Some p2 /\ p = p1 ++ p2.
Proof.
  revert p. induction l1 as [|flag l1 IH]; intros p; simpl.
  - intros Hp. exists [], p. auto.
  - destruct (json_loads (Setting.value flag)) as [j|]; [|discriminate].
    destruct (parse_all (l1 ++ l2)) as [js|] eqn:Hjs; [|discriminate].
    intros [= <-]. destruct (IH js eq_refl) as (p1 & p2 & -> & -> & ->).
    exists (j :: p1), p2. auto.
Qed.

Lemma track_app enabled l1 l2 d :
  track enabled (l1 ++ l2) d = track enabled l2 (track enabled l1 d).
Proof. unfold track. destruct enabled; [apply fold_left_app|reflexivity]. Qed.

Local Abbreviation flag_body r enabled :=
  (fun x : list Json * dict string bool =>
     let '(loaded_feature_flags, filters_used) := x in
     fun feature_flag : Setting.t =>
     bind
       match json_loads (Setting.value feature_flag) with
       | Some j => ret j
       | None => raise JSONDecodeError
       end
       (fun parsed : Json =>
          bind
            (if enabled
             then Wrapper.setitem r (Setting.key feature_flag, Setting.label feature_flag)
                    (Setting.etag feature_flag)
             else ret tt)
            (fun _ : unit =>
               bind (Wrapper.get_filters feature_flag)
                 (fun filters : list (option string) =>
                    ret (loaded_feature_flags ++ [parsed],
                         fold_left classify_filter filters filters_used)))))
  (only parsing).

Local Abbreviation select_body r enabled :=
  (fun (acc : list Json * dict string bool) (select : SettingSelector) =>
     bind
       (Wrapper.client_list (String.append FEATURE_FLAG_PREFIX (key_filter select))
          (label_filter select))
       (fun feature_flags : list Setting.t =>
          for_each feature_flags (flag_body r enabled) acc)) (only parsing).

(** The inner loop of a load of feature flags, when every value parses. *)
Lemma load_flags_run r (enabled : bool) flags :
  forall loaded filters_used (w : World) (d : SentinelKeys) parsed,
    Wrapper.dicts w !! r = Some d ->
    forallb Setting.is_feature_flag flags = true ->
    parse_all flags = Some parsed ->
    for_each flags (flag_body r enabled) (loaded, filters_used) w =
    (Ok (loaded ++ parsed, fold_left tally_flag flags filters_used),
     with_dicts w (<[r := track enabled flags d]> (Wrapper.dicts w))).
Proof.
  induction flags as [|flag flags IH];
    intros loaded filters_used w d parsed Hd Hflags Hparse.
  - simpl in Hparse. inversion Hparse; subst. simpl. unfold ret, track.
    destruct enabled; simpl; rewrite app_nil_r, list_insert_id by exact Hd;
      now rewrite with_dicts_id.
  - simpl in Hparse, Hflags. apply andb_prop in Hflags as [Hflag Hflags].
    destruct (json_loads (Setting.value flag)) as [j|] eqn:Hj; [|discriminate].
    destruct (Loading.parse_all json_loads flags) as [js|] eqn:Hjs; [|discriminate].
    inversion Hparse; subst.
    assert (Hlt : r < length (Wrapper.dicts w)) by (eapply lookup_lt_Some; exact Hd).
    cbn [for_each]. unfold bind at 1. rewrite Hj. unfold bind at 1. unfold ret at 1.
    unfold bind at 1. unfold Wrapper.get_filters. rewrite Hflag.
    destruct enabled.
    + unfold Wrapper.setitem, bind, Wrapper.read_dict, modify, ret. rewrite Hd.
      erewrite (IH _ _ _ (track_flag d flag) js); [| |exact Hflags|reflexivity].
      * unfold with_dicts, track. simpl.
        rewrite list_insert_insert_eq, <- app_assoc. reflexivity.
      * simpl. now apply list_lookup_insert_eq.
    + unfold bind, ret. erewrite (IH _ _ _ d js); [|exact Hd|exact Hflags|reflexivity].
      rewrite <- app_assoc. reflexivity.
Qed.

(** The outer loop, when every listing succeeds and every value parses. *)
Lemma load_flag_selects_run r (enabled : bool) selects :
  forall loaded filters_used (w : World) (d : SentinelKeys) parsed,
    Wrapper.dicts w !! r = Some d ->
    forallb is_listed (fst (ask_lists (flag_filters_of selects) (Wrapper.server w)))
    = true ->
    forallb Setting.is_feature_flag
      (listed_settings (fst (ask_lists (flag_filters_of selects) (Wrapper.server w))))
    = true ->
    parse_all (listed_settings (fst (ask_lists (flag_filters_of selects)
                                       (Wrapper.server w)))) = Some parsed ->
    for_each selects (select_body r enabled) (loaded, filters_used) w =
    (Ok (loaded ++ parsed,
         fold_left tally_flag
           (listed_settings (fst (ask_lists (flag_filters_of selects) (Wrapper.server w))))
           filters_used),
     after_lists (flag_filters_of selects)
       (snd (ask_lists (flag_filters_of selects) (Wrapper.server w)))
       (<[r := track enabled
                 (listed_settings (fst (ask_lists (flag_filters_of selects)
                                          (Wrapper.server w)))) d]>
          (Wrapper.dicts w))
       (Wrapper.events w)).
Proof.
  induction selects as [|select selects IH];
    intros loaded filters_used w d parsed Hd Hok Hflags Hparse.
  - simpl in *. inversion Hparse; subst. unfold ret, after_lists, listed_settings, track.
    destruct enabled; simpl; rewrite !app_nil_r, list_insert_id by exact Hd;
      now destruct w.
  - cbn [for_each]. unfold bind at 1. unfold bind at 1.
    unfold Wrapper.client_list at 1.
    cbn [Loading.flag_filters_of fmap list_fmap ask_lists] in Hok, Hflags, Hparse |- *.
    destruct (list_configuration_settings
                (String.append FEATURE_FLAG_PREFIX (key_filter select))
                (label_filter select) (Wrapper.server w))
      as [[l|status_code] srv1]; cycle 1.
    { destruct (ask_lists _ srv1); discriminate. }
    change ((fun select => (String.append FEATURE_FLAG_PREFIX (key_filter select),
                            label_filter select)) <$> selects)
      with (flag_filters_of selects) in *.
    destruct (ask_lists (flag_filters_of selects) srv1) as [rest srv2] eqn:Hrest.
    simpl in Hok. unfold listed_settings in Hparse, Hflags. simpl in Hparse, Hflags.
    apply parse_all_app in Hparse as (p1 & p2 & Hp1 & Hp2 & ->).
    rewrite forallb_app in Hflags. apply andb_prop in Hflags as [Hf1 Hf2].
    assert (Hlt : r < length (Wrapper.dicts w)) by (eapply lookup_lt_Some; exact Hd).
    rewrite (load_flags_run r enabled l loaded filters_used _ d p1) by assumption.
    rewrite (IH (loaded ++ p1) _ _ (track enabled l d) p2); simpl;
      rewrite ?Hrest; simpl;
      [|now apply list_lookup_insert_eq|exact Hok|exact Hf2|exact Hp2].
    unfold after_lists, listed_settings. simpl.
    rewrite list_insert_insert_eq, fold_left_app, track_app, <- !app_assoc.
    reflexivity.
Qed.

(** ** The tally, key by key *)

Lemma dict_get_set_eq {K V} `{EqDecision K} (d : dict K V) k v :
  dict_get (dict_set d k v) k = Some v.
Proof.
  induction d as [|[k' v'] d IH]; simpl.
  - destruct (decide (k = k)); [reflexivity|contradiction].
  - destruct (decide (k = k')) as [->|Hne]; simpl.
    + destruct (decide (k' = k')); [reflexivity|contradiction].
    + destruct (decide (k = k')); [contradiction|exact IH].
Qed.

Lemma dict_get_set_ne {K V} `{EqDecision K} (d : dict K V) k k' v :
  k <> k' -> dict_get (dict_set d k v) k' = dict_get d k'.
Proof.
  intros Hne. induction d as [|[k0 v0] d IH]; simpl.
  - destruct (decide (k' = k)); [congruence|reflexivity].
  - destruct (decide (k = k0)) as [->|Hne0]; simpl.
    + destruct (decide (k' = k0)); [congruence|reflexivity].
    + destruct (decide (k' = k0)); [reflexivity|exact IH].
Qed.

Lemma dict_get_set_true (d : dict string bool) k k' :
  dict_get (dict_set d k' true) k = Some true <-> k' = k \/ dict_get d k = Some true.
Proof.
  destruct (decide (k' = k)) as [->|Hne].
  - rewrite dict_get_set_eq. split; [intros _; now left|reflexivity].
  - rewrite dict_get_set_ne by exact Hne.
    split; [intros Hk; now right|intros [Heq|Hk]; [contradiction|exact Hk]].
Qed.

Lemma classify_filter_key filters_used name :
  classify_filter filters_used name = dict_set filters_used (filter_key name) true.
Proof.
  unfold Wrapper.classify_filter, Loading.filter_key.
  repeat match goal with |- context [if ?b then _ else _] => destruct b end;
    reflexivity.
Qed.

Lemma classify_filters_get names : forall filters_used k,
  dict_get (fold_left classify_filter names filters_used) k = Some true
  <-> dict_get filters_used k = Some true
      \/ exists name, name ∈ names /\ filter_key name = k.
Proof.
  induction names as [|name names IH]; intros filters_used k; simpl.
  - split; [now left|]. intros [Hk|(name & Hin & _)]; [exact Hk|]. inversion Hin.
  - rewrite IH, classify_filter_key, dict_get_set_true. split.
    + intros [[Hkey|Hk]|(name' & Hin & Hkey)].
      * right. exists name. split; [apply list_elem_of_here|exact Hkey].
      * now left.
      * right. exists name'. split; [now apply list_elem_of_further|exact Hkey].
    + intros [Hk|(name' & Hin & Hkey)]; [left; now right|].
      apply elem_of_cons in Hin as [->|Hin]; [left; now left|].
      right. exists name'. split; assumption.
Qed.

Lemma tally_flags_get flags : forall filters_used k,
  dict_get (fold_left tally_flag flags filters_used) k = Some true
  <-> dict_get filters_used k = Some true
      \/ exists flag name,
           flag ∈ flags /\ name ∈ Setting.filters flag /\ filter_key name = k.
Proof.
  induction flags as [|flag flags IH]; intros filters_used k; simpl.
  - split; [now left|]. intros [Hk|(flag & name & Hin & _)]; [exact Hk|]. inversion Hin.
  - rewrite IH. unfold Loading.tally_flag. rewrite classify_filters_get. split.
    + intros [[Hk|(name & Hin & Hkey)]|(flag' & name & Hin & Hname & Hkey)].
      * now left.
      * right. exists flag, name. split; [apply list_elem_of_here|]. split; assumption.
      * right. exists flag', name. split; [now apply list_elem_of_further|].
        split; assumption.
    + intros [Hk|(flag' & name & Hin & Hname & Hkey)]; [left; now left|].
      apply elem_of_cons in Hin as [->|Hin].
      * left. right. exists name. split; assumption.
      * right. exists flag', name. split; [exact Hin|]. split; assumption.
Qed.

Lemma tally_get flags k :
  dict_get (tally flags) k = Some true
  <-> exists flag name,
        flag ∈ flags /\ name ∈ Setting.filters flag /\ filter_key name = k.
Proof.
  unfold Loading.tally. rewrite tally_flags_get. simpl. split; [|now right].
  intros [Hk|Hex]; [discriminate|exact Hex].
Qed.

(** With four different keys, the key of a filter tells its kind. *)
Lemma filter_key_kind name :
  NoDup [PERCENTAGE_FILTER_KEY; TIME_WINDOW_FILTER_KEY; TARGETING_FILTER_KEY;
         CUSTOM_FILTER_KEY] ->
  (filter_key name = PERCENTAGE_FILTER_KEY
   <-> Wrapper.name_in name PERCENTAGE_FILTER_NAMES = true)
  /\ (filter_key name = TIME_WINDOW_FILTER_KEY
      <-> Wrapper.name_in name PERCENTAGE_FILTER_NAMES = false
          /\ Wrapper.name_in name TIME_WINDOW_FILTER_NAMES = true)
  /\ (filter_key name = TARGETING_FILTER_KEY
      <-> Wrapper.name_in name PERCENTAGE_FILTER_NAMES = false
          /\ Wrapper.name_in name TIME_WINDOW_FILTER_NAMES = false
          /\ Wrapper.name_in name TARGETING_FILTER_NAMES = true)
  /\ (filter_key name = CUSTOM_FILTER_KEY
      <-> Wrapper.name_in name PERCENTAGE_FILTER_NAMES = false
          /\ Wrapper.name_in name TIME_WINDOW_FILTER_NAMES = false
          /\ Wrapper.name_in name TARGETING_FILTER_NAMES = false).
Proof.
  intros Hkeys.
  apply NoDup_cons in Hkeys as [Hp Hkeys]. apply NoDup_cons in Hkeys as [Ht Hkeys].
  apply NoDup_cons in Hkeys as [Hg _].
  assert (Hpt : PERCENTAGE_FILTER_KEY <> TIME_WINDOW_FILTER_KEY)
    by (intros Heq; apply Hp; rewrite Heq; apply list_elem_of_here).
  assert (Hpg : PERCENTAGE_FILTER_KEY <> TARGETING_FILTER_KEY)
    by (intros Heq; apply Hp; rewrite Heq;
        apply list_elem_of_further, list_elem_of_here).
  assert (Hpc : PERCENTAGE_FILTER_KEY <> CUSTOM_FILTER_KEY)
    by (intros Heq; apply Hp; rewrite Heq;
        apply list_elem_of_further, list_elem_of_further, list_elem_of_here).
  assert (Htg : TIME_WINDOW_FILTER_KEY <> TARGETING_FILTER_KEY)
    by (intros Heq; apply Ht; rewrite Heq; apply list_elem_of_here).
  assert (Htc : TIME_WINDOW_FILTER_KEY <> CUSTOM_FILTER_KEY)
    by (intros Heq; apply Ht; rewrite Heq;
        apply list_elem_of_further, list_elem_of_here).
  assert (Hgc : TARGETING_FILTER_KEY <> CUSTOM_FILTER_KEY)
    by (intros Heq; apply Hg; rewrite Heq; apply list_elem_of_here).
  clear Hp Ht Hg.
  unfold Loading.filter_key.
  destruct (Wrapper.name_in name PERCENTAGE_FILTER_NAMES),
           (Wrapper.name_in name TIME_WINDOW_FILTER_NAMES),
           (Wrapper.name_in name TARGETING_FILTER_NAMES);
    repeat split; intros;
    repeat match goal with H : _ /\ _ |- _ => destruct H end;
    repeat split; congruence.
Qed.

(** X5. When every listing succeeds and lists feature flags only, and every
    value parses, [load_feature_flags] lists each selector under the
    feature-flag prefix, in order, and returns the parsed values in the order
    listed, the tally of filter kinds over exactly these flags, and a sentinel
    map that is a new dict: it holds the etag of each listed flag when refresh
    is enabled and is empty when it is not, and no dict that existed before is
    changed.  With four different tally keys, the tally has the percentage
    key exactly when some listed flag has a filter named in the percentage
    names; the time-window key exactly when some filter is named in the
    time-window names and not in the percentage names; the targeting key
    exactly when some filter is named in the targeting names and in neither of
    the former; and the custom key exactly when some filter is named in none
    of the three lists or has no name. *)
Theorem load_feature_flags_returns_fresh_results
  selects enabled kwargs (w : World) parsed :
  let answers := fst (ask_lists (flag_filters_of selects) (Wrapper.server w)) in
  let flags := listed_settings answers in
  let has (k : string) (kind : option string -> Prop) (filters_used : dict string bool) :=
    dict_get filters_used k = Some true
    <-> exists flag name, flag ∈ flags /\ name ∈ Setting.filters flag /\ kind name in
  forallb is_listed answers = true ->
  forallb Setting.is_feature_flag flags = true ->
  parse_all flags = Some parsed ->
  exists filters_used,
    load_feature_flags selects enabled kwargs w =
    (Ok (parsed, length (Wrapper.dicts w), filters_used),
     after_lists (flag_filters_of selects)
       (snd (ask_lists (flag_filters_of selects) (Wrapper.server w)))
       (Wrapper.dicts w ++ [tracked enabled flags])
       (Wrapper.events w ++ [EnteredLoadFeatureFlags selects enabled]))
    /\ filters_used = tally flags
    /\ (NoDup [PERCENTAGE_FILTER_KEY; TIME_WINDOW_FILTER_KEY; TARGETING_FILTER_KEY;
               CUSTOM_FILTER_KEY] ->
        has PERCENTAGE_FILTER_KEY
          (fun name => Wrapper.name_in name PERCENTAGE_FILTER_NAMES = true) filters_used
        /\ has TIME_WINDOW_FILTER_KEY
             (fun name => Wrapper.name_in name PERCENTAGE_FILTER_NAMES = false
                          /\ Wrapper.name_in name TIME_WINDOW_FILTER_NAMES = true)
             filters_used
        /\ has TARGETING_FILTER_KEY
             (fun name => Wrapper.name_in name PERCENTAGE_FILTER_NAMES = false
                          /\ Wrapper.name_in name TIME_WINDOW_FILTER_NAMES = false
                          /\ Wrapper.name_in name TARGETING_FILTER_NAMES = true)
             filters_used
        /\ has CUSTOM_FILTER_KEY
             (fun name => Wrapper.name_in name PERCENTAGE_FILTER_NAMES = false
                          /\ Wrapper.name_in name TIME_WINDOW_FILTER_NAMES = false
                          /\ Wrapper.name_in name TARGETING_FILTER_NAMES = false)
             filters_used).
Proof.
  intros answers flags has Hok Hflags Hparse.
  exists (tally flags). split; [|split; [reflexivity|]].
  - unfold Wrapper.load_feature_flags.
    unfold bind at 1. unfold Wrapper.log, modify. unfold bind at 1.
    unfold Wrapper.new_dict, alloc. cbv beta iota zeta. simpl Wrapper.dicts.
    unfold bind at 1.
    rewrite (load_flag_selects_run (length (Wrapper.dicts w)) enabled selects [] [] _ []
               parsed);
      [|simpl; now rewrite list_lookup_middle|exact Hok|exact Hflags|exact Hparse].
    unfold ret, after_lists, tracked, Loading.tally. simpl. fold answers. fold flags.
    rewrite insert_app_r_alt, Nat.sub_diag by lia. reflexivity.
  - intros Hkeys. unfold has.
    assert (Hkind : forall k (kind : option string -> Prop),
               (forall name, filter_key name = k <-> kind name) ->
               dict_get (tally flags) k = Some true
               <-> exists flag name,
                     flag ∈ flags /\ name ∈ Setting.filters flag /\ kind name).
    { intros k kind Hk. rewrite tally_get.
      split; intros (flag & name & Hin & Hname & Hkey);
        exists flag, name; (split; [exact Hin|]); (split; [exact Hname|]);
        now apply Hk. }
    split; [|split; [|split]]; apply Hkind; intros name;
      destruct (filter_key_kind name Hkeys) as (H1 & H2 & H3 & H4); assumption.
Qed.

(** X23. A setting that is listed under the feature-flag prefix without
    being a feature flag makes [load_feature_flags] raise [AttributeError]
    when its filters are read, after its value has been parsed; no dict that
    existed before is changed. *)
Theorem load_feature_flags_raises_on_plain_setting
  select selects enabled kwargs (w : World) flags s rest parsed j :
  fst (list_configuration_settings
         (String.append FEATURE_FLAG_PREFIX (key_filter select)) (label_filter select)
         (Wrapper.server w))
  = Listed (flags ++ s :: rest) ->
  forallb Setting.is_feature_flag flags = true ->
  parse_all flags = Some parsed ->
  json_loads (Setting.value s) = Some j ->
  Setting.is_feature_flag s = false ->
  fst (load_feature_flags (select :: selects) enabled kwargs w) = Raise AttributeError.
Proof.
  intros Hlist Hflags Hparse Hj Hplain.
  unfold Wrapper.load_feature_flags.
  unfold bind at 1. unfold Wrapper.log, modify. unfold bind at 1.
  unfold Wrapper.new_dict, alloc. cbv beta iota zeta. simpl Wrapper.dicts.
  unfold bind at 1. cbn [for_each]. unfold bind at 1. unfold bind at 1.
  unfold Wrapper.client_list at 1. simpl Wrapper.server.
  destruct (list_configuration_settings
              (String.append FEATURE_FLAG_PREFIX (key_filter select))
              (label_filter select) (Wrapper.server w)) as [a srv1].
  simpl in Hlist. subst a.
  rewrite for_each_app. unfold bind at 1.
  rewrite (load_flags_run (length (Wrapper.dicts w)) enabled flags [] [] _ [] parsed);
    [|simpl; now rewrite list_lookup_middle|exact Hflags|exact Hparse].
  cbn [for_each]. unfold bind at 1. unfold bind at 1. rewrite Hj.
  unfold ret at 1. unfold bind at 1.
  unfold Wrapper.get_filters. rewrite Hplain.
  destruct enabled.
  - unfold Wrapper.setitem, bind, Wrapper.read_dict, modify, with_dicts. simpl.
    rewrite list_lookup_insert_eq by (rewrite length_app; simpl; lia). reflexivity.
  - reflexivity.
Qed.

(** Dicts that existed in [ds] are still there, unchanged. *)
Lemma preserves_kept_dicts_client_list (ds : store SentinelKeys) kf lf :
  preserves (fun w : World => ds `prefix_of` Wrapper.dicts w) (Wrapper.client_list kf lf).
Proof.
  intros w Hw. unfold Wrapper.client_list.
  destruct (list_configuration_settings kf lf (Wrapper.server w)) as [[l|c] srv];
    exact Hw.
Qed.

Lemma preserves_kept_dicts_setitem (ds : store SentinelKeys) r k v :
  length ds <= r ->
  preserves (fun w : World => ds `prefix_of` Wrapper.dicts w) (Wrapper.setitem r k v).
Proof.
  intros Hr w [ext Hext]. unfold Wrapper.setitem, bind, Wrapper.read_dict, modify.
  destruct (Wrapper.dicts w !! r) as [d|]; [|now exists ext]. simpl.
  rewrite Hext, insert_app_r_alt by exact Hr. now eexists.
Qed.

Lemma preserves_kept_dicts_check (ds : store SentinelKeys) key label etag headers :
  preserves (fun w : World => ds `prefix_of` Wrapper.dicts w)
    (Wrapper._check_configuration_setting key label etag headers).
Proof. intros w Hw. rewrite check_unfold. exact Hw. Qed.

Lemma load_feature_flags_keeps_dicts selects enabled kwargs (w : World) :
  Wrapper.dicts w `prefix_of`
    Wrapper.dicts (snd (load_feature_flags selects enabled kwargs w)).
Proof.
  unfold Wrapper.load_feature_flags.
  unfold bind at 1. unfold Wrapper.log, modify. unfold bind at 1.
  unfold Wrapper.new_dict, alloc. cbv beta iota zeta. simpl Wrapper.dicts.
  match goal with
  | |- context [bind ?m ?k ?w1] =>
      apply (preserves_bind (fun w' : World => Wrapper.dicts w `prefix_of` Wrapper.dicts w')
               m k)
  end.
  - apply preserves_for_each. intros acc select.
    apply preserves_bind; [apply preserves_kept_dicts_client_list|].
    intros flags. apply preserves_for_each. intros [loaded filters_used] flag.
    apply preserves_bind.
    { destruct (json_loads (Setting.value flag)); [apply preserves_ret|apply preserves_raise]. }
    intros parsed. apply preserves_bind.
    { destruct enabled; [|apply preserves_ret].
      now apply preserves_kept_dicts_setitem. }
    intros _. apply preserves_bind; [|intros; apply preserves_ret].
    unfold Wrapper.get_filters.
    destruct (Setting.is_feature_flag flag); [apply preserves_ret|apply preserves_raise].
  - intros [loaded filters_used]. apply preserves_ret.
  - simpl. now apply prefix_app_r.
Qed.

(** X6. [refresh_feature_flags] never changes a dict that existed before the
    call, the caller's watched map included, however it ends; and with an
    empty watched map it returns [(False, None, None, {})] at once, sending
    nothing. *)
Theorem refresh_feature_flags_keeps_caller_map
  refresh_on selects headers kwargs (w : World) :
  Wrapper.dicts w `prefix_of`
    Wrapper.dicts (snd (refresh_feature_flags refresh_on selects headers kwargs w))
  /\ (Wrapper.dicts w !! refresh_on = Some ([] : SentinelKeys) ->
      refresh_feature_flags refresh_on selects headers kwargs w
      = (Ok (false, None, None, []), w)).
Proof.
  split.
  - unfold Wrapper.refresh_feature_flags, bind, Wrapper.read_dict.
    destruct (Wrapper.dicts w !! refresh_on) as [items|]; [|reflexivity].
    assert (Hloop : forall items (w1 : World),
               Wrapper.dicts w `prefix_of` Wrapper.dicts w1 ->
               Wrapper.dicts w `prefix_of`
                 Wrapper.dicts
                   (snd (Wrapper.refresh_feature_flags_loop json_loads FEATURE_FLAG_PREFIX
                           PERCENTAGE_FILTER_NAMES TIME_WINDOW_FILTER_NAMES
                           TARGETING_FILTER_NAMES CUSTOM_FILTER_KEY PERCENTAGE_FILTER_KEY
                           TIME_WINDOW_FILTER_KEY TARGETING_FILTER_KEY
                           selects headers kwargs items w1))).
    { clear items. induction items as [|[[key label] etag] items IH]; intros w1 Hw1.
      - exact Hw1.
      - cbn [Wrapper.refresh_feature_flags_loop]. unfold bind at 1.
        pose proof (preserves_kept_dicts_check (Wrapper.dicts w) key label etag headers
                      w1 Hw1) as Hcheck.
        destruct (Wrapper._check_configuration_setting key label etag headers w1)
          as [[changed|e] w2]; [|exact Hcheck]. simpl in Hcheck.
        change (tuple2_truthy changed) with true. cbv iota. unfold bind at 1.
        pose proof (load_feature_flags_keeps_dicts selects true kwargs w2) as Hload.
        destruct (Wrapper.load_feature_flags _ _ _ _ _ _ _ _ _ selects true kwargs w2)
          as [[[[ff sk] fu]|e] w3]; simpl in *; etransitivity; eassumption. }
    apply Hloop. reflexivity.
  - intros Hd. unfold Wrapper.refresh_feature_flags, bind, Wrapper.read_dict.
    unfold SentinelKeys, dict in *. rewrite Hd. reflexivity.
Qed.

(** X7. When the service answers the check of the first watched feature flag
    with a transport error other than 404, [refresh_feature_flags] raises
    that error, having sent that one request and loaded nothing. *)
Theorem refresh_feature_flags_propagates_error
  refresh_on selects headers kwargs (w : World) key label etag
  (items : SentinelKeys) status_code :
  Wrapper.dicts w !! refresh_on = Some ((((key, label), etag) :: items) : SentinelKeys) ->
  fst (get_configuration_setting key label etag headers (Wrapper.server w))
  = Failed status_code ->
  status_code <> 404%Z ->
  refresh_feature_flags refresh_on selects headers kwargs w
  = (Raise (HttpResponseError status_code),
     after_get key label etag
       (snd (get_configuration_setting key label etag headers (Wrapper.server w))) w).
Proof.
  intros Hd Hfail Hne.
  rewrite (refresh_feature_flags_first_check_loads _ _ _ _ _ _ _ _ _
             refresh_on selects headers kwargs w key label etag items Hd).
  rewrite check_unfold, Hfail. simpl.
  destruct (decide (status_code = 404%Z)); [contradiction|reflexivity].
Qed.

(** ** The tally of filter kinds *)

Lemma dict_set_Forall {K V} `{EqDecision K} (P : K * V -> Prop) (d : dict K V) k v :
  Forall P d -> P (k, v) -> Forall P (dict_set d k v).
Proof.
  intros Hd Hkv. induction Hd as [|[k' v'] d Hhead Hd IH]; simpl.
  - repeat constructor. exact Hkv.
  - destruct (decide (k = k')); constructor; assumption.
Qed.

Lemma dict_set_true_keeps (d : dict string bool) k k' :
  dict_get d k = Some true -> dict_get (dict_set d k' true) k = Some true.
Proof.
  intros Hk. destruct (decide (k' = k)) as [->|Hne].
  - apply dict_get_set_eq.
  - now rewrite dict_get_set_ne.
Qed.

Local Abbreviation tally_keys :=
  [PERCENTAGE_FILTER_KEY; TIME_WINDOW_FILTER_KEY; TARGETING_FILTER_KEY; CUSTOM_FILTER_KEY].

Lemma classify_filter_keeps filters_used name k :
  dict_get filters_used k = Some true ->
  dict_get (classify_filter filters_used name) k = Some true.
Proof.
  intros Hk. unfold Wrapper.classify_filter.
  repeat match goal with |- context [if ?b then _ else _] => destruct b end;
    now apply dict_set_true_keeps.
Qed.

Lemma classify_filter_entries filters_used name :
  Forall (fun p => snd p = true /\ fst p ∈ tally_keys) filters_used ->
  Forall (fun p => snd p = true /\ fst p ∈ tally_keys)
    (classify_filter filters_used name).
Proof.
  intros Hall. unfold Wrapper.classify_filter.
  repeat match goal with |- context [if ?b then _ else _] => destruct b end;
    (apply dict_set_Forall; [exact Hall|]); simpl; (split; [reflexivity|]);
    repeat first [apply list_elem_of_here | apply list_elem_of_further].
Qed.

Lemma classify_filters_keep names : forall filters_used k,
  dict_get filters_used k = Some true ->
  dict_get (fold_left classify_filter names filters_used) k = Some true.
Proof.
  induction names as [|name names IH]; intros filters_used k Hk; [exact Hk|].
  simpl. apply IH. now apply classify_filter_keeps.
Qed.

Lemma tally_flag_keeps filters_used flag k :
  dict_get filters_used k = Some true ->
  dict_get (tally_flag filters_used flag) k = Some true.
Proof. apply classify_filters_keep. Qed.

Lemma tally_flags_keep flags : forall filters_used k,
  dict_get filters_used k = Some true ->
  dict_get (fold_left tally_flag flags filters_used) k = Some true.
Proof.
  induction flags as [|flag flags IH]; intros filters_used k Hk; [exact Hk|].
  simpl. apply IH. now apply tally_flag_keeps.
Qed.

(** Once a filter has been classified under [k], the tally over all flags
    has [k]. *)
Lemma tally_has flags flag name k :
  flag ∈ flags -> name ∈ Setting.filters flag ->
  (forall filters_used, dict_get (classify_filter filters_used name) k = Some true) ->
  dict_get (tally flags) k = Some true.
Proof.
  intros Hflag Hname Hsets.
  apply list_elem_of_split in Hflag as (flags1 & flags2 & ->).
  apply list_elem_of_split in Hname as (names1 & names2 & Hnames).
  unfold Loading.tally. rewrite fold_left_app. simpl.
  apply tally_flags_keep. unfold Loading.tally_flag at 1.
  rewrite Hnames, fold_left_app. simpl.
  apply classify_filters_keep, Hsets.
Qed.

(** X8. The tally that a load of feature flags returns has only the four
    filter-kind keys, each with [True]; it is empty when no flag has a filter;
    a filter named in the percentage names puts the percentage key in it; and
    a filter whose name is in none of the three name lists, or that has no
    name, puts the custom key in it. *)
Theorem filter_tally_classifies (flags : list Setting.t) :
  Forall (fun p => snd p = true /\ fst p ∈ tally_keys) (tally flags)
  /\ (Forall (fun flag => Setting.filters flag = []) flags -> tally flags = [])
  /\ (forall flag name,
         flag ∈ flags -> name ∈ Setting.filters flag ->
         Wrapper.name_in name PERCENTAGE_FILTER_NAMES = true ->
         dict_get (tally flags) PERCENTAGE_FILTER_KEY = Some true)
  /\ (forall flag name,
         flag ∈ flags -> name ∈ Setting.filters flag ->
         Wrapper.name_in name PERCENTAGE_FILTER_NAMES = false ->
         Wrapper.name_in name TIME_WINDOW_FILTER_NAMES = false ->
         Wrapper.name_in name TARGETING_FILTER_NAMES = false ->
         dict_get (tally flags) CUSTOM_FILTER_KEY = Some true).
Proof.
  split; [|split; [|split]].
  - unfold Loading.tally.
    assert (Hgen : forall filters_used,
               Forall (fun p => snd p = true /\ fst p ∈ tally_keys) filters_used ->
               Forall (fun p => snd p = true /\ fst p ∈ tally_keys)
                 (fold_left tally_flag flags filters_used)).
    { induction flags as [|flag flags IH]; intros filters_used Hall; [exact Hall|].
      simpl. apply IH. unfold Loading.tally_flag.
      generalize (Setting.filters flag). intros names. revert filters_used Hall.
      induction names as [|name names IHn]; intros filters_used Hall; [exact Hall|].
      simpl. apply IHn. now apply classify_filter_entries. }
    apply Hgen. constructor.
  - intros Hnone. unfold Loading.tally.
    induction Hnone as [|flag flags Hflag _ IH]; [reflexivity|].
    simpl. unfold Loading.tally_flag at 2. rewrite Hflag. exact IH.
  - intros flag name Hflag Hname Hpct.
    apply (tally_has flags flag name _ Hflag Hname).
    intros filters_used. unfold Wrapper.classify_filter. rewrite Hpct.
    apply dict_get_set_eq.
  - intros flag name Hflag Hname Hpct Htw Htg.
    apply (tally_has flags flag name _ Hflag Hname).
    intros filters_used. unfold Wrapper.classify_filter. rewrite Hpct, Htw, Htg.
    apply dict_get_set_eq.
Qed.

End FlagLoadFacts.

(** * Further properties of the manager *)

Section HealthFacts.
Context {Env : Type} `{surroundings : Surroundings Env}.
Import Rebuild.

Local Abbreviation MWorld := (Manager.World (Env := Env)).

Local Abbreviation active_body :=
  (fun (active_clients : list loc) (client : loc) =>
     bind (Manager.is_active client)
       (fun active : bool =>
          if active then ret (active_clients ++ [client]) else ret active_clients)).

(** Reading the clock and testing a client touch no object. *)
Lemma preserves_objects_now (ws : store _ConfigurationClientWrapper) (ts : store Transport) :
  preserves (fun w : MWorld => Manager.wrappers w = ws /\ Manager.transports w = ts)
    Manager.now.
Proof.
  intros w [Hw Ht]. rewrite now_run. simpl.
  destruct (after_clock_objects w) as (H1 & H2 & _). split; congruence.
Qed.

Lemma preserves_objects_is_active ws ts client :
  preserves (fun w : MWorld => Manager.wrappers w = ws /\ Manager.transports w = ts)
    (Manager.is_active client).
Proof.
  unfold Manager.is_active.
  apply preserves_bind; [apply preserves_read_wrapper|]. intros c.
  apply preserves_bind; [apply preserves_objects_now|]. intros t. apply preserves_ret.
Qed.

Lemma active_loop_sublist pool :
  forall acc (w : MWorld) l w',
    for_each pool active_body acc w = (Ok l, w') ->
    exists picked, l = acc ++ picked /\ picked `sublist_of` pool.
Proof.
  induction pool as [|client pool IH]; intros acc w l w' Hrun.
  - simpl in Hrun. unfold ret in Hrun. inversion Hrun; subst.
    exists []. now rewrite app_nil_r.
  - cbn [for_each] in Hrun. unfold bind at 1 in Hrun. unfold bind at 1 in Hrun.
    destruct (Manager.is_active client w) as [[[|]|e] w1]; [| |discriminate].
    + unfold ret at 1 in Hrun. apply IH in Hrun as (picked & -> & Hsub).
      exists (client :: picked). rewrite <- app_assoc.
      split; [reflexivity|now constructor].
    + unfold ret at 1 in Hrun. apply IH in Hrun as (picked & -> & Hsub).
      exists picked. split; [reflexivity|now constructor].
Qed.

(** X9. [get_active_clients] returns clients of the pool in pool order, each
    at most as often as the pool holds it, and changes no wrapper and no
    transport, however it ends. *)
Theorem get_active_clients_selects_in_order
  (self : ConfigurationClientManager) (w : MWorld) :
  match fst (Manager.get_active_clients self w) with
  | Ok active_clients => active_clients `sublist_of` _replica_clients self
  | Raise _ => True
  end
  /\ Manager.wrappers (snd (Manager.get_active_clients self w)) = Manager.wrappers w
  /\ Manager.transports (snd (Manager.get_active_clients self w)) = Manager.transports w.
Proof.
  split.
  - unfold Manager.get_active_clients.
    destruct (for_each (_replica_clients self) active_body [] w) as [[l|e] w'] eqn:Hrun;
      [|exact I].
    apply active_loop_sublist in Hrun as (picked & -> & Hsub). exact Hsub.
  - apply (preserves_for_each
             (fun w' : MWorld => Manager.wrappers w' = Manager.wrappers w
                                 /\ Manager.transports w' = Manager.transports w)
             active_body (_replica_clients self)); [|split; reflexivity].
    intros acc client. apply preserves_bind; [apply preserves_objects_is_active|].
    intros [|]; apply preserves_ret.
Qed.

Lemma is_active_run client (w : MWorld) wc :
  Manager.wrappers w !! client = Some wc ->
  Manager.is_active client w
  = (Ok (Qle_bool (backoff_end_time wc) (reading w * 1000)), after_clock w).
Proof.
  intros Hc. unfold Manager.is_active, bind, Manager.read_wrapper. rewrite Hc.
  rewrite now_run. reflexivity.
Qed.

Lemma active_loop_uniform (verdict : bool) pool :
  forall acc (w0 w : MWorld),
    Manager.wrappers w = Manager.wrappers w0 ->
    Forall2 (fun client t =>
               exists wc, Manager.wrappers w0 !! client = Some wc
                          /\ Qle_bool (backoff_end_time wc) (t * 1000) = verdict)
      pool (readings (length pool) (Manager.env w)) ->
    fst (for_each pool active_body acc w)
    = Ok (if verdict then acc ++ pool else acc).
Proof.
  induction pool as [|client pool IH]; intros acc w0 w Hsame Hall.
  - simpl. destruct verdict; [now rewrite app_nil_r|reflexivity].
  - simpl in Hall.
    destruct (time_time (Manager.env w)) as [t e'] eqn:Hclock.
    apply Forall2_cons in Hall as [(wc & Hc & Hverdict) Hall].
    cbn [for_each]. unfold bind at 1. unfold bind at 1.
    rewrite (is_active_run client w wc) by now rewrite Hsame.
    unfold reading. rewrite Hclock. simpl fst. rewrite Hverdict.
    destruct (after_clock_objects w) as (Hw1 & _ & _).
    assert (He : Manager.env (after_clock w) = e').
    { unfold after_clock, Manager.now. now rewrite Hclock. }
    rewrite <- He in Hall.
    destruct verdict; unfold ret at 1.
    + rewrite (IH _ w0) by (congruence || assumption). now rewrite <- app_assoc.
    + rewrite (IH _ w0) by (congruence || assumption). reflexivity.
Qed.

(** X10. [get_active_clients] reads the clock once per client.  It returns
    the whole pool, in order, when the backoff of every client has ended at
    the reading taken for it (as it has for a client that never failed, once
    the clock is not negative), and the empty list when every client is still
    backing off at its reading. *)
Theorem get_active_clients_by_backoff
  (self : ConfigurationClientManager) (w : MWorld) :
  (Forall2 (fun client t =>
              exists wc, Manager.wrappers w !! client = Some wc
                         /\ Qle_bool (backoff_end_time wc) (t * 1000) = true)
     (_replica_clients self)
     (readings (length (_replica_clients self)) (Manager.env w)) ->
   fst (Manager.get_active_clients self w) = Ok (_replica_clients self))
  /\ (Forall2 (fun client t =>
                 exists wc, Manager.wrappers w !! client = Some wc
                            /\ Qle_bool (backoff_end_time wc) (t * 1000) = false)
        (_replica_clients self)
        (readings (length (_replica_clients self)) (Manager.env w)) ->
      fst (Manager.get_active_clients self w) = Ok []).
Proof.
  split; intros Hall; unfold Manager.get_active_clients.
  - now rewrite (active_loop_uniform true _ [] w w eq_refl Hall).
  - now rewrite (active_loop_uniform false _ [] w w eq_refl Hall).
Qed.

(** ** Backing off *)

(** The delay that [_calculate_backoff] returns and the world it leaves:
    objects untouched, at most the jitter drawn. *)
Lemma calculate_backoff_run (self : ConfigurationClientManager) attempts (w : MWorld) :
  (0 <= attempts)%Z ->
  (0 <= fst (random_uniform (Manager.env w)))%Q ->
  (fst (random_uniform (Manager.env w)) <= 1)%Q ->
  exists delay w1,
    Manager._calculate_backoff self attempts w = (Ok delay, w1)
    /\ Manager.wrappers w1 = Manager.wrappers w
    /\ Manager.transports w1 = Manager.transports w
    /\ (inject_Z (_min_backoff_sec self * 1000) <= delay)%Q
    /\ (delay <= inject_Z (Z.max (_min_backoff_sec self) (_max_backoff_sec self) * 1000))%Q.
Proof.
  intros Hattempts Hu0 Hu1. unfold Manager._calculate_backoff.
  destruct (Z.leb_spec (_max_backoff_sec self) (_min_backoff_sec self)) as [Hle|Hlt].
  - exists (inject_Z (_min_backoff_sec self * 1000)), w. unfold ret.
    split; [reflexivity|]. do 2 (split; [reflexivity|]).
    split; [apply Qle_refl|]. rewrite <- Zle_Qle. lia.
  - destruct (Z.ltb_spec (Z.min attempts 63) 0); [lia|].
    unfold bind, Manager.uniform01, ret.
    destruct (random_uniform (Manager.env w)) as [u e]. simpl in Hu0, Hu1.
    eexists _, _. split; [reflexivity|]. simpl. do 2 (split; [reflexivity|]).
    pose proof (backoff_ceiling_bounds (_min_backoff_sec self * 1000)
                  (_max_backoff_sec self * 1000) (Z.min attempts 63)
                  ltac:(lia) ltac:(lia)) as Hc.
    cbv zeta in Hc.
    set (c' := if _ : bool then (_max_backoff_sec self * 1000)%Z else _) in *.
    destruct (jitter_between (_min_backoff_sec self * 1000) c' u ltac:(lia) Hu0 Hu1)
      as [Hlo Hhi].
    split; [exact Hlo|]. eapply Qle_trans; [exact Hhi|]. rewrite <- Zle_Qle. lia.
Qed.

(** The clock and the jitter after [_calculate_backoff] depend on nothing
    but the clock and the jitter before. *)
Lemma calculate_backoff_env (self : ConfigurationClientManager) attempts (w w1 : MWorld) :
  Manager.env w1 = Manager.env w ->
  Manager.env (snd (Manager._calculate_backoff self attempts w1))
  = Manager.env (snd (Manager._calculate_backoff self attempts w)).
Proof.
  intros He. unfold Manager._calculate_backoff.
  destruct (_max_backoff_sec self <=? _min_backoff_sec self)%Z; [exact He|].
  destruct (Z.min attempts 63 <? 0)%Z; [exact He|].
  unfold bind, Manager.uniform01, ret. rewrite He.
  destruct (random_uniform (Manager.env w)). reflexivity.
Qed.

Lemma calculate_backoff_result (self : ConfigurationClientManager) attempts
  (w w1 : MWorld) :
  Manager.env w1 = Manager.env w ->
  fst (Manager._calculate_backoff self attempts w1)
  = fst (Manager._calculate_backoff self attempts w).
Proof.
  intros He. unfold Manager._calculate_backoff.
  destruct (_max_backoff_sec self <=? _min_backoff_sec self)%Z; [reflexivity|].
  destruct (Z.min attempts 63 <? 0)%Z; [reflexivity|].
  unfold bind, Manager.uniform01, ret. rewrite He.
  destruct (random_uniform (Manager.env w)). reflexivity.
Qed.

(** What [backoff] does to the client; the clock is read after the delay
    has been calculated. *)
Lemma backoff_run
  (self : ConfigurationClientManager) client (w : MWorld) wc :
  Manager.wrappers w !! client = Some wc ->
  (0 <= failed_attempts wc + 1)%Z ->
  (0 <= fst (random_uniform (Manager.env w)))%Q ->
  (fst (random_uniform (Manager.env w)) <= 1)%Q ->
  exists delay w',
    Manager.backoff self client w = (Ok tt, w')
    /\ Manager.wrappers w'
       = <[client := {| endpoint := endpoint wc; _client := _client wc;
                        backoff_end_time :=
                          reading (snd (Manager._calculate_backoff self
                                          (failed_attempts wc + 1) w)) * 1000 + delay;
                        failed_attempts := failed_attempts wc + 1 |}]>
           (Manager.wrappers w)
    /\ Manager.transports w' = Manager.transports w
    /\ (inject_Z (_min_backoff_sec self * 1000) <= delay)%Q
    /\ (delay <= inject_Z (Z.max (_min_backoff_sec self) (_max_backoff_sec self) * 1000))%Q
    /\ fst (Manager._calculate_backoff self (failed_attempts wc + 1) w) = Ok delay.
Proof.
  intros Hc Hattempts Hu0 Hu1.
  assert (Hlt : client < length (Manager.wrappers w)) by (eapply lookup_lt_Some; exact Hc).
  unfold Manager.backoff. unfold bind at 1. unfold Manager.read_wrapper at 1. rewrite Hc.
  unfold bind at 1. unfold Manager.write_wrapper at 1, modify. cbv beta iota.
  set (w1 := {| Manager.wrappers := _; Manager.transports := Manager.transports w;
                Manager.env := Manager.env w; Manager.calls := Manager.calls w |}).
  destruct (calculate_backoff_run self (failed_attempts wc + 1) w1 Hattempts Hu0 Hu1)
    as (delay & w2 & Hcalc & Hw2 & Ht2 & Hlo & Hhi).
  pose proof (calculate_backoff_env self (failed_attempts wc + 1) w w1 eq_refl) as Henv.
  pose proof (calculate_backoff_result self (failed_attempts wc + 1) w w1 eq_refl)
    as Hres.
  rewrite Hcalc in Henv, Hres. simpl snd in Henv. simpl fst in Hres.
  unfold bind at 1. simpl failed_attempts. rewrite Hcalc.
  unfold bind at 1. rewrite now_run.
  destruct (after_clock_objects w2) as (Hw3 & Ht3 & _).
  unfold bind at 1. unfold Manager.read_wrapper at 1.
  rewrite Hw3, Hw2. simpl Manager.wrappers.
  rewrite list_lookup_insert_eq by exact Hlt.
  unfold Manager.write_wrapper, modify. simpl.
  exists delay. eexists. split; [reflexivity|]. simpl.
  rewrite Hw3, Hw2, Ht3, Ht2. simpl. rewrite list_insert_insert_eq.
  unfold reading at 2. rewrite <- Henv. fold (reading w2).
  do 4 (split; [first [reflexivity|assumption]|]). now rewrite <- Hres.
Qed.


(** X12. After [backoff] the client is not active for as long as the clock
    has moved on by less than the minimum backoff since [backoff] read it:
    [is_active] is then [False]. *)
Theorem backoff_takes_client_out_of_rotation
  (self : ConfigurationClientManager) client (w : MWorld) wc :
  Manager.wrappers w !! client = Some wc ->
  (0 <= failed_attempts wc + 1)%Z ->
  (0 <= fst (random_uniform (Manager.env w)))%Q ->
  (fst (random_uniform (Manager.env w)) <= 1)%Q ->
  (reading (snd (Manager.backoff self client w)) * 1000 <
   reading (snd (Manager._calculate_backoff self (failed_attempts wc + 1) w)) * 1000
   + inject_Z (_min_backoff_sec self * 1000))%Q ->
  fst (Manager.is_active client (snd (Manager.backoff self client w))) = Ok false.
Proof.
  intros Hc Hattempts Hu0 Hu1.
  assert (Hlt : client < length (Manager.wrappers w)) by (eapply lookup_lt_Some; exact Hc).
  destruct (backoff_run self client w wc Hc Hattempts Hu0 Hu1)
    as (delay & w' & Hrun & Hw' & _ & Hlo & _).
  rewrite Hrun. simpl snd. intros Hclock.
  erewrite is_active_run; [|rewrite Hw'; now apply list_lookup_insert_eq].
  simpl. f_equal.
  destruct (Qle_bool _ _) eqn:Hle; [|reflexivity].
  apply Qle_bool_imp_le in Hle. exfalso. lra.
Qed.

(** ** The shape of the backoff delay *)

Lemma backoff_ceiling_monotone (lo hi k1 k2 : Z) :
  (0 <= k1 <= k2)%Z ->
  let clamp := fun c : Z => if ((c >? hi) || (c <=? 0))%Z then hi else c in
  (clamp (Z.max 1 lo * Z.shiftl 1 k1) <= clamp (Z.max 1 lo * Z.shiftl 1 k2))%Z.
Proof.
  intros Hk clamp. rewrite !Z.shiftl_1_l.
  assert (H1 : (0 < 2 ^ k1)%Z) by (apply Z.pow_pos_nonneg; lia).
  assert (H2 : (2 ^ k1 <= 2 ^ k2)%Z) by (apply Z.pow_le_mono_r; lia).
  assert (Hc : (Z.max 1 lo * 2 ^ k1 <= Z.max 1 lo * 2 ^ k2)%Z) by nia.
  assert (Hp : (0 < Z.max 1 lo * 2 ^ k1)%Z) by nia.
  unfold clamp.
  destruct (Z.gtb_spec (Z.max 1 lo * 2 ^ k1) hi),
           (Z.gtb_spec (Z.max 1 lo * 2 ^ k2) hi); simpl;
    repeat match goal with |- context [(?c <=? 0)%Z] => destruct (Z.leb_spec c 0) end;
    lia.
Qed.

(** X13. For one and the same jitter draw, more failed attempts never give a
    shorter delay. *)
Theorem calculate_backoff_monotone
  (self : ConfigurationClientManager) (attempts1 attempts2 : Z) (w : MWorld) :
  (0 <= attempts1 <= attempts2)%Z ->
  (0 <= fst (random_uniform (Manager.env w)))%Q ->
  exists delay1 delay2,
    fst (Manager._calculate_backoff self attempts1 w) = Ok delay1
    /\ fst (Manager._calculate_backoff self attempts2 w) = Ok delay2
    /\ (delay1 <= delay2)%Q.
Proof.
  intros Hattempts Hu0. unfold Manager._calculate_backoff.
  destruct (Z.leb_spec (_max_backoff_sec self) (_min_backoff_sec self)) as [Hle|Hlt].
  - eexists _, _. split; [reflexivity|]. split; [reflexivity|apply Qle_refl].
  - destruct (Z.ltb_spec (Z.min attempts1 63) 0); [lia|].
    destruct (Z.ltb_spec (Z.min attempts2 63) 0); [lia|].
    unfold bind, Manager.uniform01, ret.
    destruct (random_uniform (Manager.env w)) as [u e]. simpl in Hu0.
    eexists _, _. split; [reflexivity|]. split; [reflexivity|].
    pose proof (backoff_ceiling_monotone (_min_backoff_sec self * 1000)
                  (_max_backoff_sec self * 1000) (Z.min attempts1 63)
                  (Z.min attempts2 63) ltac:(lia)) as Hmono.
    cbv zeta beta in Hmono.
    set (c1 := if _ : bool then (_max_backoff_sec self * 1000)%Z else _) in *.
    set (c2 := if _ : bool then (_max_backoff_sec self * 1000)%Z else _) in *.
    apply Qplus_le_r. rewrite !(Qmult_comm u).
    apply Qmult_le_compat_r; [rewrite <- Zle_Qle; lia|exact Hu0].
Qed.

(** X14. The exponent is capped: from 63 attempts on the delay is the one for
    63; and once [max(1, min_ms) * 2^attempts] exceeds the maximum, the draw
    is taken over the whole range from the minimum to the maximum. *)
Theorem calculate_backoff_saturates
  (self : ConfigurationClientManager) (attempts : Z) (w : MWorld) :
  ((63 <= attempts)%Z ->
   Manager._calculate_backoff self attempts w = Manager._calculate_backoff self 63 w)
  /\ ((_min_backoff_sec self < _max_backoff_sec self)%Z ->
      (0 <= attempts)%Z ->
      (_max_backoff_sec self * 1000
       < Z.max 1 (_min_backoff_sec self * 1000) * 2 ^ Z.min attempts 63)%Z ->
      fst (Manager._calculate_backoff self attempts w)
      = Ok (inject_Z (_min_backoff_sec self * 1000)
            + fst (random_uniform (Manager.env w))
              * inject_Z (_max_backoff_sec self * 1000 - _min_backoff_sec self * 1000))%Q).
Proof.
  split.
  - intros Hcap. unfold Manager._calculate_backoff.
    replace (Z.min attempts 63) with (Z.min 63 63) by lia. reflexivity.
  - intros Hlt Hattempts Hover. unfold Manager._calculate_backoff.
    destruct (Z.leb_spec (_max_backoff_sec self) (_min_backoff_sec self)); [lia|].
    destruct (Z.ltb_spec (Z.min attempts 63) 0); [lia|].
    rewrite Z.shiftl_1_l.
    destruct (Z.gtb_spec (Z.max 1 (_min_backoff_sec self * 1000) * 2 ^ Z.min attempts 63)
                (_max_backoff_sec self * 1000)); [|lia].
    simpl orb. cbv iota. unfold bind, Manager.uniform01, ret.
    destruct (random_uniform (Manager.env w)) as [u e]. reflexivity.
Qed.

(** X15. Unless the maximum does not exceed the minimum, a negative number of
    attempts makes [_calculate_backoff] raise [ValueError], before any jitter
    is drawn; when it does not exceed it, the minimum is returned all the
    same. *)
Theorem calculate_backoff_negative_attempts
  (self : ConfigurationClientManager) (attempts : Z) (w : MWorld) :
  (attempts < 0)%Z ->
  ((_min_backoff_sec self < _max_backoff_sec self)%Z ->
   Manager._calculate_backoff self attempts w
   = (Raise (ValueError "negative shift count"), w))
  /\ ((_max_backoff_sec self <= _min_backoff_sec self)%Z ->
      Manager._calculate_backoff self attempts w
      = (Ok (inject_Z (_min_backoff_sec self * 1000)), w)).
Proof.
  intros Hneg. unfold Manager._calculate_backoff. split; intros Hcmp.
  - destruct (Z.leb_spec (_max_backoff_sec self) (_min_backoff_sec self)); [lia|].
    destruct (Z.ltb_spec (Z.min attempts 63) 0); [reflexivity|lia].
  - destruct (Z.leb_spec (_max_backoff_sec self) (_min_backoff_sec self));
      [reflexivity|lia].
Qed.

(** ** Equality of managers *)

Lemma wrapper_eqb_sym a b : Manager.wrapper_eqb a b = Manager.wrapper_eqb b a.
Proof.
  unfold Manager.wrapper_eqb.
  now rewrite String.eqb_sym, Nat.eqb_sym, Qeq_bool_comm, Z.eqb_sym.
Qed.

Lemma eq_loop_sym pool1 : forall pool2 (w : MWorld),
  Manager.eq_loop pool1 pool2 w = Manager.eq_loop pool2 pool1 w.
Proof.
  induction pool1 as [|c1 pool1 IH]; intros [|c2 pool2] w; try reflexivity.
  simpl. unfold bind, Manager.read_wrapper.
  destruct (Manager.wrappers w !! c1) as [a|] eqn:Ha,
           (Manager.wrappers w !! c2) as [b|] eqn:Hb;
    cbv beta iota; rewrite ?Ha, ?Hb; try reflexivity.
  rewrite (wrapper_eqb_sym a b).
  destruct (Manager.wrapper_eqb b a); simpl; [apply IH|reflexivity].
Qed.

Lemma wrapper_eqb_fields a b :
  Manager.wrapper_eqb a b = true <-> Lifecycle.equal_fields a b.
Proof.
  unfold Manager.wrapper_eqb, Lifecycle.equal_fields.
  rewrite !andb_true_iff, String.eqb_eq, Nat.eqb_eq, Qeq_bool_iff, Z.eqb_eq.
  split.
  - intros [[[He Hc] Hb] Hf]. split; [exact He|]. split; [exact Hc|].
    split; [exact Hb|exact Hf].
  - intros (He & Hc & Hb & Hf). split; [split; [split|]|]; assumption.
Qed.

Lemma eq_loop_decides pool1 : forall pool2 (w : MWorld),
  Pool.valid (Manager.wrappers w) pool1 -> Pool.valid (Manager.wrappers w) pool2 ->
  length pool1 = length pool2 ->
  exists b, Manager.eq_loop pool1 pool2 w = (Ok b, w)
            /\ (b = true <-> Lifecycle.same_wrappers (Manager.wrappers w) pool1 pool2).
Proof.
  induction pool1 as [|c1 pool1 IH]; intros [|c2 pool2] w Hv1 Hv2 Hlen;
    try discriminate.
  - exists true. split; [reflexivity|]. split; [constructor|reflexivity].
  - apply Forall_cons in Hv1 as [Hc1 Hv1]. apply Forall_cons in Hv2 as [Hc2 Hv2].
    destruct (lookup_lt_is_Some_2 _ _ Hc1) as [a Ha].
    destruct (lookup_lt_is_Some_2 _ _ Hc2) as [b Hb].
    simpl. unfold bind, Manager.read_wrapper. rewrite Ha, Hb. cbv beta iota.
    destruct (Manager.wrapper_eqb a b) eqn:Heq; simpl.
    + destruct (IH pool2 w Hv1 Hv2 ltac:(simpl in Hlen; lia)) as (r & Hrun & Hiff).
      exists r. split; [exact Hrun|]. rewrite Hiff. split.
      * intros Hrest. constructor; [|exact Hrest].
        exists a, b. split; [exact Ha|]. split; [exact Hb|].
        now apply wrapper_eqb_fields.
      * intros Hall. now apply Forall2_cons in Hall as [_ Hrest].
    + exists false. split; [reflexivity|]. split; [discriminate|].
      intros Hall. apply Forall2_cons in Hall as [(a' & b' & Ha' & Hb' & Heq') _].
      apply wrapper_eqb_fields in Heq'. congruence.
Qed.

(** X16. Comparing two managers gives the same answer in either order; the
    answer is [False] when the pools differ in length; and for pools whose
    clients all exist it is [True] exactly when, position by position, the
    two wrappers have the same endpoint, the same transport object, ends of
    backoff that are equal as numbers and the same count of failed attempts,
    whatever the other fields of the managers are. *)
Theorem manager_eq_compares_pools
  (self other : ConfigurationClientManager) (w : MWorld) :
  Manager.__eq__ self other w = Manager.__eq__ other self w
  /\ (length (_replica_clients self) <> length (_replica_clients other) ->
      Manager.__eq__ self other w = (Ok false, w))
  /\ (Pool.valid (Manager.wrappers w) (_replica_clients self) ->
      Pool.valid (Manager.wrappers w) (_replica_clients other) ->
      exists b, Manager.__eq__ self other w = (Ok b, w)
                /\ (b = true <->
                    Lifecycle.same_wrappers (Manager.wrappers w)
                      (_replica_clients self) (_replica_clients other))).
Proof.
  unfold Manager.__eq__. split; [|split].
  - rewrite (Nat.eqb_sym (length (_replica_clients self))).
    destruct (length (_replica_clients other) =? length (_replica_clients self));
      simpl; [apply eq_loop_sym|reflexivity].
  - intros Hlen. apply Nat.eqb_neq in Hlen. rewrite Hlen. reflexivity.
  - intros Hv1 Hv2.
    destruct (Nat.eqb_spec (length (_replica_clients self))
                (length (_replica_clients other))) as [Hlen|Hlen]; simpl.
    + now apply eq_loop_decides.
    + exists false. split; [reflexivity|]. split; [discriminate|].
      intros Hall. apply Forall2_length in Hall. contradiction.
Qed.

(** ** Closing *)

Lemma closing_idempotent t : Lifecycle.closing (Lifecycle.closing t) = Lifecycle.closing t.
Proof. reflexivity. Qed.

Lemma close_loop pool :
  forall w1 : MWorld,
    Lifecycle.closable (Manager.wrappers w1) (Manager.transports w1) pool ->
    exists w2,
      for_each pool (fun (_ : unit) client => Manager.wrapper_close client) tt w1
      = (Ok tt, w2)
      /\ Manager.wrappers w2 = Manager.wrappers w1
      /\ Manager.env w2 = Manager.env w1 /\ Manager.calls w2 = Manager.calls w1
      /\ length (Manager.transports w2) = length (Manager.transports w1)
      /\ (forall l t,
             Manager.transports w1 !! l = Some t ->
             Manager.transports w2 !! l
             = Some (if bool_decide (l ∈ Lifecycle.clients_of (Manager.wrappers w1) pool)
                     then Lifecycle.closing t else t)).
Proof.
  induction pool as [|client pool IH]; intros w1 Hclosable.
  - exists w1. simpl. repeat split. intros l t Ht. exact Ht.
  - apply Forall_cons in Hclosable as [(wc & Hc & Htc) Hrest].
    destruct (lookup_lt_is_Some_2 _ _ Htc) as [t0 Ht0].
    cbn [for_each]. unfold bind at 1. unfold Manager.wrapper_close at 1.
    unfold bind at 1. unfold Manager.read_wrapper at 1. rewrite Hc. cbv beta iota.
    rewrite Ht0.
    set (w1' := {| Manager.wrappers := Manager.wrappers w1;
                   Manager.transports := _;
                   Manager.env := Manager.env w1; Manager.calls := Manager.calls w1 |}).
    destruct (IH w1') as (w2 & Hrun & Hw & He & Hcl & Hlen & Hts).
    { unfold Lifecycle.closable in *. simpl. eapply Forall_impl; [exact Hrest|].
      intros c (wc' & Hc' & Htc'). exists wc'. split; [exact Hc'|].
      now rewrite length_insert. }
    exists w2. split; [exact Hrun|]. split; [exact Hw|].
    split; [exact He|]. split; [exact Hcl|].
    split; [rewrite Hlen; simpl; now rewrite length_insert|].
    intros l t Ht. unfold Lifecycle.clients_of. simpl. rewrite Hc. simpl.
    fold (Lifecycle.clients_of (Manager.wrappers w1) pool).
    destruct (decide (l = _client wc)) as [->|Hne].
    + rewrite Ht0 in Ht. inversion Ht; subst t0.
      rewrite (Hts (_client wc) (Lifecycle.closing t)).
      * rewrite (bool_decide_eq_true_2 (_client wc ∈ _client wc :: _))
          by apply list_elem_of_here.
        simpl. now destruct (bool_decide _).
      * simpl. now apply list_lookup_insert_eq.
    + rewrite (Hts l t) by (simpl; now rewrite list_lookup_insert_ne).
      simpl. f_equal.
      destruct (bool_decide (l ∈ Lifecycle.clients_of (Manager.wrappers w1) pool)) eqn:Hin.
      * apply bool_decide_eq_true in Hin.
        rewrite bool_decide_eq_true_2 by now apply list_elem_of_further.
        reflexivity.
      * apply bool_decide_eq_false in Hin.
        rewrite bool_decide_eq_false_2; [reflexivity|].
        intros Hin'. apply elem_of_cons in Hin' as [?|?]; contradiction.
Qed.

(** X17. [close] on a manager whose clients and their transports all exist
    closes exactly the transports that the wrappers of the pool own: each of
    them is afterwards as before but closed, whether or not it was closed
    already, and every other transport and every wrapper is left as it was. *)
Theorem close_closes_pool_transports (self : ConfigurationClientManager) (w : MWorld) :
  Lifecycle.closable (Manager.wrappers w) (Manager.transports w) (_replica_clients self) ->
  exists w',
    Manager.close self w = (Ok tt, w')
    /\ Manager.wrappers w' = Manager.wrappers w
    /\ length (Manager.transports w') = length (Manager.transports w)
    /\ (forall l t,
           Manager.transports w !! l = Some t ->
           Manager.transports w' !! l
           = Some (if bool_decide
                        (l ∈ Lifecycle.clients_of (Manager.wrappers w)
                               (_replica_clients self))
                   then Lifecycle.closing t else t)).
Proof.
  intros Hclosable. unfold Manager.close.
  destruct (close_loop (_replica_clients self) w Hclosable)
    as (w' & Hrun & Hw & _ & _ & Hlen & Hts).
  exists w'. repeat split; assumption.
Qed.

(** ** New replicas *)

Lemma from_connection_string_exact e cs ua rt rb kw (w : MWorld) :
  connection_string_parses cs = true ->
  Manager.from_connection_string e cs ua rt rb kw w
  = (Ok (length (Manager.wrappers w)),
     {| Manager.wrappers :=
          Manager.wrappers w ++ [Lifecycle.fresh_wrapper e (length (Manager.transports w))];
        Manager.transports :=
          Manager.transports w
          ++ [{| auth := WithConnectionString cs; user_agent := ua; retry_total := rt;
                 retry_backoff_max := rb; extra := kw; closed := false |}];
        Manager.env := Manager.env w; Manager.calls := Manager.calls w |}).
Proof.
  intros Hparse. unfold Manager.from_connection_string, bind at 1.
  rewrite Hparse. reflexivity.
Qed.

Lemma from_credential_exact e cred ua rt rb kw (w : MWorld) :
  opt_truthy cred = true ->
  Manager.from_credential e cred ua rt rb kw w
  = (Ok (length (Manager.wrappers w)),
     {| Manager.wrappers :=
          Manager.wrappers w ++ [Lifecycle.fresh_wrapper e (length (Manager.transports w))];
        Manager.transports :=
          Manager.transports w
          ++ [{| auth := WithCredential e cred; user_agent := ua; retry_total := rt;
                 retry_backoff_max := rb; extra := kw; closed := false |}];
        Manager.env := Manager.env w; Manager.calls := Manager.calls w |}).
Proof.
  intros Hcred. unfold Manager.from_credential, bind at 1.
  rewrite Hcred. reflexivity.
Qed.

Lemma pick_client_found self ws0 acc e c (w1 : MWorld) :
  Pool.valid ws0 (_replica_clients self) -> ws0 `prefix_of` Manager.wrappers w1 ->
  Pool.first_with_endpoint ws0 e (_replica_clients self) = Some c ->
  Manager.pick_client self acc e w1 = (Ok (acc ++ [c]), w1).
Proof.
  intros Hvalid Hpre Hfound. unfold Manager.pick_client, bind.
  rewrite (find_client_run ws0 e _ w1 Hvalid Hpre), Hfound. reflexivity.
Qed.

Lemma pick_client_missing self ws0 acc e (w1 : MWorld) :
  Pool.valid ws0 (_replica_clients self) -> ws0 `prefix_of` Manager.wrappers w1 ->
  connectable self ws0 [e] ->
  Pool.first_with_endpoint ws0 e (_replica_clients self) = None ->
  Manager.pick_client self acc e w1
  = (Ok (acc ++ [length (Manager.wrappers w1)]),
     {| Manager.wrappers :=
          Manager.wrappers w1
          ++ [Lifecycle.fresh_wrapper e (length (Manager.transports w1))];
        Manager.transports :=
          Manager.transports w1 ++ [Lifecycle.replica_transport self e];
        Manager.env := Manager.env w1; Manager.calls := Manager.calls w1 |}).
Proof.
  intros Hvalid Hpre Hparse Hnone. unfold Manager.pick_client. unfold bind at 1.
  rewrite (find_client_run ws0 e _ w1 Hvalid Hpre), Hnone.
  unfold Lifecycle.replica_transport.
  specialize (Hparse e (list_elem_of_here _ _) Hnone).
  destruct (opt_str_truthy (_original_connection_string self)) eqn:Hcs.
  - unfold bind. rewrite (from_connection_string_exact _ _ _ _ _ _ _ Hparse).
    reflexivity.
  - unfold bind. rewrite (from_credential_exact _ _ _ _ _ _ _ Hparse).
    reflexivity.
Qed.

Lemma missing_before_S ws pool e0 eps i :
  Lifecycle.missing_before ws pool (e0 :: eps) (S i)
  = (if Lifecycle.is_missing ws pool e0 then 1 else 0)
    + Lifecycle.missing_before ws pool eps i.
Proof.
  unfold Lifecycle.missing_before. simpl.
  destruct (Lifecycle.is_missing ws pool e0); reflexivity.
Qed.

(** The loop over the discovered endpoints makes one new client, at the end
    of the stores, for each endpoint that no wrapper of the old pool has. *)
Lemma rebuild_creates self ws0 eps :
  forall acc (w1 : MWorld),
    Pool.valid ws0 (_replica_clients self) -> ws0 `prefix_of` Manager.wrappers w1 ->
    connectable self ws0 eps ->
    exists picks w2,
      for_each eps (Manager.pick_client self) acc w1 = (Ok (acc ++ picks), w2)
      /\ objects_kept w1 w2
      /\ (forall i e,
             eps !! i = Some e ->
             Pool.first_with_endpoint ws0 e (_replica_clients self) = None ->
             let k := Lifecycle.missing_before ws0 (_replica_clients self) eps i in
             picks !! i = Some (length (Manager.wrappers w1) + k)
             /\ Manager.wrappers w2 !! (length (Manager.wrappers w1) + k)
                = Some (Lifecycle.fresh_wrapper e (length (Manager.transports w1) + k))
             /\ Manager.transports w2 !! (length (Manager.transports w1) + k)
                = Some (Lifecycle.replica_transport self e)).
Proof.
  induction eps as [|e0 eps IH]; intros acc w1 Hvalid Hpre Hparse.
  - exists [], w1. simpl. rewrite app_nil_r.
    split; [reflexivity|]. split; [apply objects_kept_refl|].
    intros i e Hi. discriminate.
  - apply connectable_cons in Hparse as [Hparse1 Hparse].
    destruct (Pool.first_with_endpoint ws0 e0 (_replica_clients self)) as [c|] eqn:Hfound.
    + destruct (IH (acc ++ [c]) w1 Hvalid Hpre Hparse)
        as (picks & w2 & Hrun & Hkept & Hnew).
      exists (c :: picks), w2. cbn [for_each]. unfold bind at 1.
      rewrite (pick_client_found self ws0 acc e0 c w1 Hvalid Hpre Hfound), Hrun.
      split; [now rewrite <- app_assoc|]. split; [exact Hkept|].
      intros [|i] e Hi Hnone; simpl in Hi.
      * inversion Hi; subst. congruence.
      * cbv zeta. rewrite missing_before_S. unfold Lifecycle.is_missing.
        rewrite Hfound. cbn [Nat.add]. apply (Hnew i e Hi Hnone).
    + set (w1' := {| Manager.wrappers :=
                       Manager.wrappers w1
                       ++ [Lifecycle.fresh_wrapper e0 (length (Manager.transports w1))];
                     Manager.transports :=
                       Manager.transports w1 ++ [Lifecycle.replica_transport self e0];
                     Manager.env := Manager.env w1; Manager.calls := Manager.calls w1 |}).
      destruct (IH (acc ++ [length (Manager.wrappers w1)]) w1' Hvalid)
        as (picks & w2 & Hrun & [Hkw Hkt] & Hnew).
      { simpl. etransitivity; [exact Hpre|]. now apply prefix_app_r. }
      { exact Hparse. }
      exists (length (Manager.wrappers w1) :: picks), w2. cbn [for_each]. unfold bind at 1.
      rewrite (pick_client_missing self ws0 acc e0 w1 Hvalid Hpre Hparse1 Hfound).
      fold w1'.
      rewrite Hrun.
      split; [now rewrite <- app_assoc|].
      split.
      { split; (etransitivity; [|eassumption]); simpl; now apply prefix_app_r. }
      intros [|i] e Hi Hnone; simpl in Hi.
      * inversion Hi; subst. unfold Lifecycle.missing_before. simpl.
        rewrite !Nat.add_0_r. split; [reflexivity|]. split.
        -- apply (prefix_lookup_Some _ _ _ _ (list_lookup_middle _ _ _ _ eq_refl) Hkw).
        -- apply (prefix_lookup_Some _ _ _ _ (list_lookup_middle _ _ _ _ eq_refl) Hkt).
      * cbv zeta. rewrite missing_before_S. unfold Lifecycle.is_missing.
        rewrite Hfound.
        destruct (Hnew i e Hi Hnone) as (Hp & Hw & Ht). cbv zeta in Hp, Hw, Ht.
        unfold w1' in Hp, Hw, Ht. cbn [Manager.wrappers Manager.transports] in Hp, Hw, Ht.
        repeat rewrite length_app in Hp. repeat rewrite length_app in Hw.
        repeat rewrite length_app in Ht. cbn [length] in Hp, Hw, Ht.
        repeat rewrite <- Nat.add_assoc in Hp. repeat rewrite <- Nat.add_assoc in Hw.
        repeat rewrite <- Nat.add_assoc in Ht.
        split; [exact Hp|]. split; [exact Hw|exact Ht].
Qed.

(** A rebuild, given the run of its loop. *)
Lemma refresh_clients_rebuild_unfold self (w : MWorld) c0 rest e eps picks w3 :
  _replica_discovery_enabled self = true ->
  Qle_bool (_next_update_time self) (reading w) = true ->
  discovered (_original_endpoint self) true (after_clock w) = Some (e :: eps) ->
  _replica_clients self = c0 :: rest ->
  for_each (e :: eps) (Manager.pick_client self) [c0]
    (after_discovery (_original_endpoint self) true (after_clock w)) = (Ok picks, w3) ->
  Manager.refresh_clients self w =
  (Ok (set_next_update_time (set_replica_clients self picks)
         (reading w3 + MINIMAL_CLIENT_REFRESH_INTERVAL)), after_clock w3).
Proof.
  intros Hon Hdue Hanswer Hpool Hrun.
  unfold Manager.refresh_clients. rewrite Hon.
  change (negb true) with false. cbv iota.
  unfold bind at 1. rewrite now_run, Hdue.
  change (negb true) with false. cbv iota.
  unfold bind at 1. rewrite discover_run, Hanswer.
  rewrite Hpool. unfold bind at 1. unfold ret at 1.
  unfold bind at 1. rewrite Hrun.
  unfold bind, ret. rewrite now_run. reflexivity.
Qed.

(** X18. When [refresh_clients] rebuilds the pool (and the clients it has to
    make can be made), a discovered endpoint that
    no wrapper of the old pool has gets a client of its own, made then: a new
    wrapper with that endpoint, no failed attempt and no backoff, over a new,
    open transport that is built from the manager's connection string with the
    original endpoint replaced, or from its credential when it has no
    connection string.  The new clients are numbered in the order of the
    discovered list, so an unknown endpoint listed twice gets two clients. *)
Theorem refresh_clients_creates_missing_replicas
  self (w : MWorld) c0 rest e eps :
  _replica_discovery_enabled self = true ->
  Qle_bool (_next_update_time self) (reading w) = true ->
  discovered (_original_endpoint self) true (after_clock w) = Some (e :: eps) ->
  _replica_clients self = c0 :: rest ->
  Pool.valid (Manager.wrappers w) (c0 :: rest) ->
  connectable self (Manager.wrappers w) (e :: eps) ->
  exists self' w',
    Manager.refresh_clients self w = (Ok self', w')
    /\ forall i e',
         (e :: eps) !! i = Some e' ->
         Pool.first_with_endpoint (Manager.wrappers w) e' (c0 :: rest) = None ->
         let k := Lifecycle.missing_before (Manager.wrappers w) (c0 :: rest) (e :: eps) i in
         _replica_clients self' !! S i = Some (length (Manager.wrappers w) + k)
         /\ Manager.wrappers w' !! (length (Manager.wrappers w) + k)
            = Some (Lifecycle.fresh_wrapper e' (length (Manager.transports w) + k))
         /\ Manager.transports w' !! (length (Manager.transports w) + k)
            = Some (Lifecycle.replica_transport self e').
Proof.
  intros Hon Hdue Hanswer Hpool Hvalid Hparse.
  set (w2 := after_discovery (_original_endpoint self) true (after_clock w)).
  destruct (after_clock_objects w) as (Hw1 & Ht1 & _).
  destruct (after_discovery_objects (_original_endpoint self) true (after_clock w))
    as (Hw2 & Ht2 & _). fold w2 in Hw2, Ht2.
  rewrite <- Hpool in Hvalid.
  destruct (rebuild_creates self (Manager.wrappers w) (e :: eps) [c0] w2 Hvalid)
    as (picks & w3 & Hrun & _ & Hnew).
  { rewrite Hw2, Hw1. reflexivity. }
  { exact Hparse. }
  destruct (after_clock_objects w3) as (Hw4 & Ht4 & _).
  eexists _, _. split.
  { exact (refresh_clients_rebuild_unfold self w c0 rest e eps _ w3
             Hon Hdue Hanswer Hpool Hrun). }
  intros i e' Hi Hnone. rewrite <- Hpool in Hnone |- *.
  specialize (Hnew i e' Hi Hnone). cbv zeta in Hnew |- *.
  rewrite Hw2, Hw1, Ht2, Ht1 in Hnew. rewrite Hw4, Ht4. exact Hnew.
Qed.

(** X19. A rebuild (in which the clients it has to make can be made) reads
    the clock, asks discovery once, for the original
    endpoint, and reads the clock again; the manager then has one client for
    the original endpoint and one per discovered endpoint, is due for the
    next discovery 30 seconds after the second reading, and keeps its
    connection string, credential and backoff bounds. *)
Theorem refresh_clients_rebuild_schedule
  self (w : MWorld) c0 rest e eps :
  _replica_discovery_enabled self = true ->
  Qle_bool (_next_update_time self) (reading w) = true ->
  discovered (_original_endpoint self) true (after_clock w) = Some (e :: eps) ->
  _replica_clients self = c0 :: rest ->
  Pool.valid (Manager.wrappers w) (c0 :: rest) ->
  connectable self (Manager.wrappers w) (e :: eps) ->
  exists self' w',
    Manager.refresh_clients self w = (Ok self', w')
    /\ Manager.get_client_count self' = S (length (e :: eps))
    /\ _next_update_time self'
       = (reading (after_discovery (_original_endpoint self) true (after_clock w))
          + MINIMAL_CLIENT_REFRESH_INTERVAL)%Q
    /\ Manager.calls w'
       = Manager.calls w
         ++ [ReadClock; Discovered (_original_endpoint self) true; ReadClock]
    /\ _original_endpoint self' = _original_endpoint self
    /\ _original_connection_string self' = _original_connection_string self
    /\ _credential self' = _credential self
    /\ _min_backoff_sec self' = _min_backoff_sec self
    /\ _max_backoff_sec self' = _max_backoff_sec self.
Proof.
  intros Hon Hdue Hanswer Hpool Hvalid Hparse.
  set (w2 := after_discovery (_original_endpoint self) true (after_clock w)).
  destruct (after_clock_objects w) as (Hw1 & _ & Hc1).
  destruct (after_discovery_objects (_original_endpoint self) true (after_clock w))
    as (Hw2 & _ & Hc2). fold w2 in Hw2, Hc2.
  rewrite <- Hpool in Hvalid.
  destruct (rebuild_run self (Manager.wrappers w) (e :: eps) [c0] w2 Hvalid)
    as (picks & w3 & Hrun & Hlen & Henv & Hcalls & _).
  { rewrite Hw2, Hw1. reflexivity. }
  { exact Hparse. }
  destruct (after_clock_objects w3) as (_ & _ & Hc4).
  eexists _, _. split.
  { exact (refresh_clients_rebuild_unfold self w c0 rest e eps _ w3
             Hon Hdue Hanswer Hpool Hrun). }
  split; [unfold Manager.get_client_count; simpl; now rewrite Hlen|].
  split; [simpl; unfold reading; now rewrite Henv|].
  split; [|repeat split].
  rewrite Hc4, Hcalls, Hc2, Hc1, <- !app_assoc. reflexivity.
Qed.

(** ** Construction, in full *)

Lemma fresh_wrappers_cons n e eps :
  Lifecycle.fresh_wrappers n (e :: eps)
  = Lifecycle.fresh_wrapper e n :: Lifecycle.fresh_wrappers (S n) eps.
Proof.
  unfold Lifecycle.fresh_wrappers. simpl. rewrite Nat.add_0_r. f_equal.
  apply imap_ext. intros i x _. simpl. f_equal. lia.
Qed.

(** A loop that makes one new client per endpoint and appends it. *)
Lemma allocate_each_exact (make : string -> M MWorld loc) (tr : string -> Transport) eps :
  (forall fe, fe ∈ eps -> forall w : MWorld,
      make fe w
      = (Ok (length (Manager.wrappers w)),
         {| Manager.wrappers :=
              Manager.wrappers w
              ++ [Lifecycle.fresh_wrapper fe (length (Manager.transports w))];
            Manager.transports := Manager.transports w ++ [tr fe];
            Manager.env := Manager.env w; Manager.calls := Manager.calls w |})) ->
  forall acc (w1 : MWorld),
    for_each eps (fun clients fe => bind (make fe) (fun c' => ret (clients ++ [c'])))
      acc w1
    = (Ok (acc ++ seq (length (Manager.wrappers w1)) (length eps)),
       {| Manager.wrappers :=
            Manager.wrappers w1
            ++ Lifecycle.fresh_wrappers (length (Manager.transports w1)) eps;
          Manager.transports := Manager.transports w1 ++ (tr <$> eps);
          Manager.env := Manager.env w1; Manager.calls := Manager.calls w1 |}).
Proof.
  induction eps as [|fe eps IH]; intros Hmake acc w1.
  - simpl. rewrite !app_nil_r. unfold ret. now destruct w1.
  - cbn [for_each]. unfold bind at 1. unfold bind at 1.
    rewrite (Hmake fe (list_elem_of_here _ _)). unfold ret at 1.
    rewrite (IH (fun fe' Hin => Hmake fe' (list_elem_of_further _ _ _ Hin))).
    cbn [Manager.wrappers Manager.transports Manager.env Manager.calls].
    rewrite !length_app. cbn [length]. rewrite !Nat.add_1_r, <- !app_assoc.
    rewrite fresh_wrappers_cons. reflexivity.
Qed.

(** What the constructor returns and builds when its arguments are accepted,
    the connection strings it uses parse and discovery answers with a
    list. *)
Lemma init_run
  connection_string ep credential user_agent retry_total retry_backoff_max
  replica_discovery_enabled min_backoff_sec max_backoff_sec kwargs (w : MWorld) eps :
  Lifecycle.accepted connection_string ep credential = true ->
  discovered ep replica_discovery_enabled (after_clock w) = Some eps ->
  Forall (fun s => connection_string_parses s = true)
    (Lifecycle.connection_strings_used connection_string ep eps) ->
  let self' :=
    Lifecycle.constructed connection_string ep credential user_agent retry_total
      retry_backoff_max replica_discovery_enabled min_backoff_sec max_backoff_sec kwargs
      (seq (length (Manager.wrappers w)) (S (length eps)))
      (reading w + MINIMAL_CLIENT_REFRESH_INTERVAL) in
  Manager.__init__ connection_string ep credential user_agent retry_total
    retry_backoff_max replica_discovery_enabled min_backoff_sec max_backoff_sec kwargs w
  = (Ok self',
     {| Manager.wrappers :=
          Manager.wrappers w
          ++ Lifecycle.fresh_wrappers (length (Manager.transports w)) (ep :: eps);
        Manager.transports :=
          Manager.transports w
          ++ Lifecycle.original_transport self'
             :: (Lifecycle.replica_transport self' <$> eps);
        Manager.env :=
          Manager.env (after_discovery ep replica_discovery_enabled (after_clock w));
        Manager.calls :=
          Manager.calls w ++ [ReadClock; Discovered ep replica_discovery_enabled] |}).
Proof.
  intros Hacc Hanswer Hparse self'.
  set (w2 := after_discovery ep replica_discovery_enabled (after_clock w)).
  destruct (after_clock_objects w) as (Hw1 & Ht1 & Hc1).
  destruct (after_discovery_objects ep replica_discovery_enabled (after_clock w))
    as (Hw2 & Ht2 & Hc2). fold w2 in Hw2, Ht2, Hc2.
  rewrite Hw1 in Hw2. rewrite Ht1 in Ht2. rewrite Hc1, <- app_assoc in Hc2.
  unfold Manager.__init__.
  unfold bind at 1. rewrite now_run. unfold bind at 1. rewrite discover_run.
  fold w2. rewrite Hanswer. unfold Lifecycle.accepted in Hacc.
  destruct (opt_str_truthy connection_string && str_truthy ep) eqn:Hcs.
  - destruct connection_string as [cs|]; [|discriminate].
    unfold Lifecycle.connection_strings_used in Hparse.
    change (opt_str_truthy (Some cs)) with (str_truthy cs) in Hcs.
    rewrite Hcs in Hparse. apply Forall_cons in Hparse as [Hparse0 Hparse].
    rewrite Forall_fmap in Hparse.
    apply andb_prop in Hcs as [Hcs Hep].
    change (default EmptyString (Some cs)) with cs.
    unfold bind at 1. rewrite (from_connection_string_exact _ _ _ _ _ _ _ Hparse0).
    unfold bind at 1. unfold Manager.iterate, ret at 1.
    unfold bind at 1.
    match goal with
    | |- context [for_each eps ?body ?acc ?st] =>
        change (for_each eps body acc st)
          with (for_each eps
                  (fun clients fe =>
                     bind (Manager.from_connection_string fe (replace cs ep fe)
                             user_agent retry_total retry_backoff_max kwargs)
                       (fun c' => ret (clients ++ [c'])))
                  acc st)
    end.
    rewrite (allocate_each_exact
               (fun fe => Manager.from_connection_string fe (replace cs ep fe)
                            user_agent retry_total retry_backoff_max kwargs)
               (fun fe => {| auth := WithConnectionString (replace cs ep fe);
                             user_agent := user_agent; retry_total := retry_total;
                             retry_backoff_max := retry_backoff_max; extra := kwargs;
                             closed := false |})).
    2:{ intros fe Hfe w'. apply from_connection_string_exact.
        exact (proj1 (Forall_forall _ _) Hparse fe Hfe). }
    unfold ret. cbn [Manager.wrappers Manager.transports Manager.env Manager.calls].
    rewrite !length_app, Hw2, Ht2, Hc2. cbn [length]. rewrite !Nat.add_1_r, <- !app_assoc.
    rewrite fresh_wrappers_cons.
    unfold self', Lifecycle.constructed, set_replica_clients,
      Lifecycle.original_transport, Lifecycle.replica_transport.
    cbn [_original_connection_string _original_endpoint _credential _user_agent
         _retry_total _retry_backoff_max _args].
    change (opt_str_truthy (Some cs)) with (str_truthy cs).
    rewrite Hcs. reflexivity.
  - simpl in Hacc. rewrite Hacc. apply andb_prop in Hacc as [Hep Hcred].
    rewrite Hep, andb_true_r in Hcs.
    unfold bind at 1. rewrite (from_credential_exact _ _ _ _ _ _ _ Hcred).
    unfold bind at 1. unfold Manager.iterate, ret at 1.
    unfold bind at 1.
    rewrite (allocate_each_exact
               (fun fe => Manager.from_credential fe credential
                            user_agent retry_total retry_backoff_max kwargs)
               (fun fe => {| auth := WithCredential fe credential;
                             user_agent := user_agent; retry_total := retry_total;
                             retry_backoff_max := retry_backoff_max; extra := kwargs;
                             closed := false |}))
      by (intros; now apply from_credential_exact).
    unfold ret. cbn [Manager.wrappers Manager.transports Manager.env Manager.calls].
    rewrite !length_app, Hw2, Ht2, Hc2. cbn [length]. rewrite !Nat.add_1_r, <- !app_assoc.
    rewrite fresh_wrappers_cons.
    unfold self', Lifecycle.constructed, set_replica_clients,
      Lifecycle.original_transport, Lifecycle.replica_transport.
    cbn [_original_connection_string _original_endpoint _credential _user_agent
         _retry_total _retry_backoff_max _args].
    rewrite Hcs. reflexivity.
Qed.

(** X20. When its arguments are accepted, the connection strings it uses
    parse and discovery answers with a list, the constructor reads the clock
    once and asks discovery once, then makes one new client for the original
    endpoint and one per discovered endpoint, in that order, each with no
    failed attempt and no backoff and an open transport of its own; it stores
    its arguments and is due for the next discovery 30 seconds after the
    reading.  The transports of the replicas are the ones that a later
    rebuild makes for new replicas: from the connection string with the
    endpoint replaced when it is used, from the credential otherwise. *)
Theorem init_builds_fresh_pool
  connection_string ep credential user_agent retry_total retry_backoff_max
  replica_discovery_enabled min_backoff_sec max_backoff_sec kwargs (w : MWorld) eps :
  Lifecycle.accepted connection_string ep credential = true ->
  discovered ep replica_discovery_enabled (after_clock w) = Some eps ->
  Forall (fun s => connection_string_parses s = true)
    (Lifecycle.connection_strings_used connection_string ep eps) ->
  exists self' w',
    Manager.__init__ connection_string ep credential user_agent retry_total
      retry_backoff_max replica_discovery_enabled min_backoff_sec max_backoff_sec kwargs w
    = (Ok self', w')
    /\ self'
       = Lifecycle.constructed connection_string ep credential user_agent retry_total
           retry_backoff_max replica_discovery_enabled min_backoff_sec max_backoff_sec
           kwargs (seq (length (Manager.wrappers w)) (S (length eps)))
           (reading w + MINIMAL_CLIENT_REFRESH_INTERVAL)
    /\ Manager.wrappers w'
       = Manager.wrappers w
         ++ Lifecycle.fresh_wrappers (length (Manager.transports w)) (ep :: eps)
    /\ Manager.transports w'
       = Manager.transports w
         ++ Lifecycle.original_transport self'
            :: (Lifecycle.replica_transport self' <$> eps)
    /\ Manager.calls w'
       = Manager.calls w ++ [ReadClock; Discovered ep replica_discovery_enabled].
Proof.
  intros Hacc Hanswer Hparse. eexists _, _. split.
  - exact (init_run connection_string ep credential user_agent retry_total
             retry_backoff_max replica_discovery_enabled min_backoff_sec max_backoff_sec
             kwargs w eps Hacc Hanswer Hparse).
  - split; [reflexivity|]. split; [reflexivity|]. split; reflexivity.
Qed.

(** X21. When discovery answers [None], the constructor raises [TypeError]
    although its arguments are accepted and its connection string, if it uses
    one, parses: the loop over the discovered endpoints cannot iterate.  By
    then the client for the original endpoint has been made, and its
    transport is left open. *)
Theorem init_raises_when_discovery_answers_none
  connection_string ep credential user_agent retry_total retry_backoff_max
  replica_discovery_enabled min_backoff_sec max_backoff_sec kwargs (w : MWorld) :
  Lifecycle.accepted connection_string ep credential = true ->
  discovered ep replica_discovery_enabled (after_clock w) = None ->
  Forall (fun s => connection_string_parses s = true)
    (Lifecycle.connection_strings_used connection_string ep []) ->
  let run :=
    Manager.__init__ connection_string ep credential user_agent retry_total
      retry_backoff_max replica_discovery_enabled min_backoff_sec max_backoff_sec
      kwargs w in
  fst run = Raise TypeError
  /\ Manager.wrappers (snd run)
     = Manager.wrappers w
       ++ [Lifecycle.fresh_wrapper ep (length (Manager.transports w))]
  /\ exists t, Manager.transports (snd run) = Manager.transports w ++ [t]
               /\ closed t = false.
Proof.
  intros Hacc Hanswer Hparse run.
  set (w2 := after_discovery ep replica_discovery_enabled (after_clock w)).
  destruct (after_clock_objects w) as (Hw1 & Ht1 & _).
  destruct (after_discovery_objects ep replica_discovery_enabled (after_clock w))
    as (Hw2 & Ht2 & _). fold w2 in Hw2, Ht2.
  rewrite Hw1 in Hw2. rewrite Ht1 in Ht2.
  assert (Hrun : exists t,
             run = (Raise TypeError,
                    {| Manager.wrappers :=
                         Manager.wrappers w
                         ++ [Lifecycle.fresh_wrapper ep (length (Manager.transports w))];
                       Manager.transports := Manager.transports w ++ [t];
                       Manager.env := Manager.env w2;
                       Manager.calls := Manager.calls w2 |})
             /\ closed t = false).
  { unfold run, Manager.__init__.
    unfold bind at 1. rewrite now_run. unfold bind at 1. rewrite discover_run.
    fold w2. rewrite Hanswer. unfold Lifecycle.accepted in Hacc.
    destruct (opt_str_truthy connection_string && str_truthy ep) eqn:Hcs.
    - destruct connection_string as [cs|]; [|discriminate].
      unfold Lifecycle.connection_strings_used in Hparse.
      change (opt_str_truthy (Some cs)) with (str_truthy cs) in Hcs.
      rewrite Hcs in Hparse. apply Forall_cons in Hparse as [Hparse0 _].
      change (default EmptyString (Some cs)) with cs.
      unfold bind at 1. rewrite (from_connection_string_exact _ _ _ _ _ _ _ Hparse0).
      unfold bind, Manager.iterate, raise. rewrite Hw2, Ht2.
      eexists. split; reflexivity.
    - simpl in Hacc. rewrite Hacc. apply andb_prop in Hacc as [_ Hcred].
      unfold bind at 1. rewrite (from_credential_exact _ _ _ _ _ _ _ Hcred).
      unfold bind, Manager.iterate, raise. rewrite Hw2, Ht2.
      eexists. split; reflexivity. }
  destruct Hrun as (t & -> & Hopen). simpl.
  split; [reflexivity|]. split; [reflexivity|]. exists t. split; [reflexivity|exact Hopen].
Qed.

Lemma readings_length n : forall e : Env, length (readings n e) = n.
Proof.
  induction n as [|n IH]; intros e; simpl; [reflexivity|].
  destruct (time_time e) as [t e']. simpl. now rewrite IH.
Qed.

(** X22. When construction succeeds as in X20, every client of the manager
    is active right afterwards,
    provided the clock is not negative: [get_active_clients] returns the
    whole pool, the original client first. *)
Theorem init_then_all_clients_active
  connection_string ep credential user_agent retry_total retry_backoff_max
  replica_discovery_enabled min_backoff_sec max_backoff_sec kwargs (w : MWorld) eps :
  Lifecycle.accepted connection_string ep credential = true ->
  discovered ep replica_discovery_enabled (after_clock w) = Some eps ->
  Forall (fun s => connection_string_parses s = true)
    (Lifecycle.connection_strings_used connection_string ep eps) ->
  Forall (fun t => (0 <= t)%Q)
    (readings (S (length eps))
       (Manager.env (after_discovery ep replica_discovery_enabled (after_clock w)))) ->
  exists self' w',
    Manager.__init__ connection_string ep credential user_agent retry_total
      retry_backoff_max replica_discovery_enabled min_backoff_sec max_backoff_sec kwargs w
    = (Ok self', w')
    /\ Manager.get_client_count self' = S (length eps)
    /\ fst (Manager.get_active_clients self' w') = Ok (_replica_clients self').
Proof.
  intros Hacc Hanswer Hparse Hclock. eexists _, _. split.
  { exact (init_run connection_string ep credential user_agent retry_total
             retry_backoff_max replica_discovery_enabled min_backoff_sec max_backoff_sec
             kwargs w eps Hacc Hanswer Hparse). }
  split.
  { unfold Manager.get_client_count, Lifecycle.constructed.
    cbn [_replica_clients]. now rewrite length_seq. }
  unfold Manager.get_active_clients.
  match goal with
  | |- fst (for_each ?pool _ _ ?w') = _ =>
      rewrite (active_loop_uniform true pool [] w' w' eq_refl); [reflexivity|]
  end.
  unfold Lifecycle.constructed. cbn [_replica_clients Manager.wrappers Manager.env].
  rewrite length_seq.
  apply Forall2_same_length_lookup_2.
  { now rewrite length_seq, readings_length. }
  intros i c t Hc Ht. apply lookup_seq in Hc as [-> Hi].
  destruct (lookup_lt_is_Some_2 (ep :: eps) i ltac:(simpl; lia)) as [fe Hfe].
  exists (Lifecycle.fresh_wrapper fe (length (Manager.transports w) + i)). split.
  - rewrite lookup_app_r by lia.
    replace (length (Manager.wrappers w) + i - length (Manager.wrappers w)) with i by lia.
    unfold Lifecycle.fresh_wrappers. rewrite list_lookup_imap, Hfe. reflexivity.
  - simpl. apply Qle_bool_iff.
    pose proof (proj1 (Forall_lookup _ _) Hclock i t Ht) as Hpos. simpl in Hpos.
    change 0%Q with (0 * 1000)%Q. apply Qmult_le_compat_r; [exact Hpos|discriminate].
Qed.

End HealthFacts.

(** * Concrete runs for the further properties *)

Section ScriptedLoadRuns.
Import Scripted ChangeDetection Loading.

Lemma load_configuration_settings_returns_listings_witness :
  Wrapper.load_configuration_settings [select_all] 0 None world_sentinel_moved
  = (Ok ([setting "sentinel" "" "e2"; setting "other" "" "x"], 0),
     after_lists [("*", "\0")] {| get_answers := [Found (setting "sentinel" "" "e2")];
                                  list_answers := [] |}
       [[(("sentinel", ""), Some "e2")]]
       [EnteredLoadConfigurationSettings [select_all] 0]).
Proof.
  exact (load_configuration_settings_returns_listings [select_all] 0
           world_sentinel_moved [(("sentinel", ""), Some "e1")]
           ltac:(reflexivity) ltac:(reflexivity)).
Defined.

Lemma load_configuration_settings_listing_failure_witness :
  fst (Wrapper.load_configuration_settings [select_all; select_prod] 0 None
         world_listing_fails)
  = Raise (HttpResponseError 503)
  /\ Wrapper.dicts
       (snd (Wrapper.load_configuration_settings [select_all; select_prod] 0 None
               world_listing_fails))
     = [[(("sentinel", ""), Some "e2")]].
Proof.
  pose proof (load_configuration_settings_listing_failure [select_all] select_prod [] 0
                world_listing_fails [(("sentinel", ""), Some "e1")] 503
                ltac:(reflexivity) ltac:(reflexivity) ltac:(reflexivity)) as Hrun.
  change ([select_all] ++ [select_prod]) with [select_all; select_prod] in Hrun.
  rewrite Hrun. split; reflexivity.
Defined.

Lemma load_configuration_settings_separate_sentinel_keys_witness :
  exists settings w',
    Wrapper.load_configuration_settings [select_all] 0 (Some 1) world_two_maps
    = (Ok (settings, 1), w')
    /\ Wrapper.dicts w' !! 0 = Some [(("sentinel", ""), Some "e1")]
    /\ Wrapper.dicts w' !! 1 = Some [(("sentinel", ""), Some "e2")].
Proof.
  eexists _, _. split; [vm_compute; reflexivity|].
  destruct (load_configuration_settings_separate_sentinel_keys [select_all] 0 1
              world_two_maps [(("sentinel", ""), Some "e1")] [] _ _ _
              ltac:(discriminate) ltac:(reflexivity) ltac:(reflexivity)
              ltac:(vm_compute; reflexivity)) as (_ & Hdicts & Hkept).
  split; [exact Hkept|]. rewrite Hdicts. reflexivity.
Defined.

Lemma refresh_configuration_settings_propagates_error_witness :
  fst (Wrapper.refresh_configuration_settings [select_all] 0 [] None world_check_fails)
  = Raise (HttpResponseError 503)
  /\ Wrapper.events
       (snd (Wrapper.refresh_configuration_settings [select_all] 0 [] None
               world_check_fails))
     = [SentGet "a" "" (Some "1"); SentGet "b" "" (Some "2")].
Proof.
  rewrite (refresh_configuration_settings_propagates_error [select_all] 0 [] None
             world_check_fails [(("a", ""), Some "1")] "b" "" (Some "2")
             [(("c", ""), Some "3")] 503
             ltac:(reflexivity) ltac:(reflexivity) ltac:(reflexivity)
             ltac:(discriminate)).
  split; reflexivity.
Defined.

End ScriptedLoadRuns.

Section ScriptedFlagRuns.
Import Scripted ChangeDetection Loading.

Lemma load_feature_flags_returns_fresh_results_witness :
  let run := Scripted.load_feature_flags [select_all] true None world_flag_unmodified in
  exists filters_used,
    fst run = Ok (["{}"], 1, filters_used)
    /\ dict_get filters_used "PRCNT" = Some true
    /\ Wrapper.dicts (snd run)
       = [[((".appconfig.featureflag/beta", ""), Some "e1")];
          [((".appconfig.featureflag/beta", ""), Some "e1")]].
Proof.
  intros run.
  pose proof (load_feature_flags_returns_fresh_results Some ".appconfig.featureflag/"
                ["Percentage"; "PercentageFilter"; "Microsoft.Percentage";
                 "Microsoft.PercentageFilter"]
                ["TimeWindow"; "TimeWindowFilter"; "Microsoft.TimeWindow";
                 "Microsoft.TimeWindowFilter"]
                ["Targeting"; "TargetingFilter"; "Microsoft.Targeting";
                 "Microsoft.TargetingFilter"]
                "CSTM" "PRCNT" "TIME" "TRGT" [select_all] true None
                world_flag_unmodified ["{}"]) as Hrun.
  cbv zeta in Hrun.
  destruct (Hrun ltac:(vm_compute; reflexivity) ltac:(vm_compute; reflexivity)
              ltac:(vm_compute; reflexivity)) as (filters_used & Hok & _ & Hkinds).
  exists filters_used. split; [exact (f_equal fst Hok)|]. split.
  - assert (Hkeys : NoDup ["PRCNT"; "TIME"; "TRGT"; "CSTM"])
      by (apply (bool_decide_unpack _); vm_compute; reflexivity).
    apply (proj1 (Hkinds Hkeys)).
    exists (flag ".appconfig.featureflag/beta" "" "e1" [Some "Percentage"]),
      (Some "Percentage").
    split; [apply list_elem_of_here|]. split; [apply list_elem_of_here|reflexivity].
  - exact (f_equal (fun r => Wrapper.dicts (snd r)) Hok).
Defined.

Lemma load_feature_flags_raises_on_plain_setting_witness :
  fst (Scripted.load_feature_flags [select_all] true None world_plain_under_flags)
  = Raise AttributeError.
Proof.
  exact (load_feature_flags_raises_on_plain_setting Some ".appconfig.featureflag/"
           ["Percentage"; "PercentageFilter"; "Microsoft.Percentage";
            "Microsoft.PercentageFilter"]
           ["TimeWindow"; "TimeWindowFilter"; "Microsoft.TimeWindow";
            "Microsoft.TimeWindowFilter"]
           ["Targeting"; "TargetingFilter"; "Microsoft.Targeting";
            "Microsoft.TargetingFilter"]
           "CSTM" "PRCNT" "TIME" "TRGT" select_all [] true None world_plain_under_flags
           [flag ".appconfig.featureflag/beta" "" "e1" [Some "Percentage"]]
           (setting ".appconfig.featureflag/odd" "" "e1") [] ["{}"] "{}"
           eq_refl eq_refl eq_refl eq_refl eq_refl).
Defined.

Lemma refresh_feature_flags_keeps_caller_map_witness :
  Scripted.refresh_feature_flags 0 [select_all] [] None world_nothing_watched
  = (Ok (false, None, None, []), world_nothing_watched).
Proof.
  exact (proj2 (refresh_feature_flags_keeps_caller_map Some ".appconfig.featureflag/"
                  ["Percentage"; "PercentageFilter"; "Microsoft.Percentage";
                   "Microsoft.PercentageFilter"]
                  ["TimeWindow"; "TimeWindowFilter"; "Microsoft.TimeWindow";
                   "Microsoft.TimeWindowFilter"]
                  ["Targeting"; "TargetingFilter"; "Microsoft.Targeting";
                   "Microsoft.TargetingFilter"]
                  "CSTM" "PRCNT" "TIME" "TRGT" 0 [select_all] [] None
                  world_nothing_watched) ltac:(reflexivity)).
Defined.

Lemma refresh_feature_flags_propagates_error_witness :
  fst (Scripted.refresh_feature_flags 0 [select_all] [] None world_flag_check_fails)
  = Raise (HttpResponseError 500).
Proof.
  exact (f_equal fst
           (refresh_feature_flags_propagates_error Some ".appconfig.featureflag/"
              ["Percentage"; "PercentageFilter"; "Microsoft.Percentage";
               "Microsoft.PercentageFilter"]
              ["TimeWindow"; "TimeWindowFilter"; "Microsoft.TimeWindow";
               "Microsoft.TimeWindowFilter"]
              ["Targeting"; "TargetingFilter"; "Microsoft.Targeting";
               "Microsoft.TargetingFilter"]
              "CSTM" "PRCNT" "TIME" "TRGT" 0 [select_all] [] None
              world_flag_check_fails ".appconfig.featureflag/beta" "" (Some "e1") [] 500
              ltac:(reflexivity) ltac:(reflexivity) ltac:(discriminate))).
Defined.

Lemma filter_tally_classifies_witness :
  tally_with_constants [flag_without_filters] = []
  /\ dict_get (tally_with_constants [flag_without_filters; flag_with_filters]) "PRCNT" = Some true
  /\ dict_get (tally_with_constants [flag_without_filters; flag_with_filters]) "CSTM" = Some true.
Proof.
  split; [|split].
  - refine (proj1 (proj2 (filter_tally_classifies _ _ _ _ _ _ _ [flag_without_filters])) _).
    repeat constructor.
  - refine (proj1 (proj2 (proj2 (filter_tally_classifies _ _ _ _ _ _ _
                                   [flag_without_filters; flag_with_filters])))
              flag_with_filters (Some "Percentage") _ _ _);
      [repeat constructor|repeat constructor|reflexivity].
  - refine (proj2 (proj2 (proj2 (filter_tally_classifies _ _ _ _ _ _ _
                                   [flag_without_filters; flag_with_filters])))
              flag_with_filters (Some "Mystery") _ _ _ _ _);
      [repeat constructor|repeat constructor|reflexivity|reflexivity|reflexivity].
Defined.

End ScriptedFlagRuns.

Section ScriptedHealthRuns.
Import Scripted Rebuild.

Lemma pool_world_closable replicas :
  Lifecycle.closable (Manager.wrappers (pool_world replicas))
    (Manager.transports (pool_world replicas)) [0; 1].
Proof.
  constructor; [eexists; split; [reflexivity|simpl; lia]|].
  constructor; [eexists; split; [reflexivity|simpl; lia]|]. constructor.
Defined.

Lemma get_active_clients_by_backoff_witness :
  fst (Manager.get_active_clients (set_replica_clients (pool_manager true 0) [0])
         (pool_world None)) = Ok [0]
  /\ fst (Manager.get_active_clients (set_replica_clients (pool_manager true 0) [1])
            (pool_world None)) = Ok [].
Proof.
  split.
  - refine (proj1 (get_active_clients_by_backoff
                     (set_replica_clients (pool_manager true 0) [0]) (pool_world None)) _).
    constructor; [|constructor]. eexists. split; reflexivity.
  - refine (proj2 (get_active_clients_by_backoff
                     (set_replica_clients (pool_manager true 0) [1]) (pool_world None)) _).
    constructor; [|constructor]. eexists. split; reflexivity.
Defined.


Lemma backoff_takes_client_out_of_rotation_witness :
  fst (Manager.is_active 0
         (snd (Manager.backoff (pool_manager true 0) 0 (pool_world None))))
  = Ok false.
Proof.
  apply (backoff_takes_client_out_of_rotation (pool_manager true 0) 0 (pool_world None)
           (wrapper_at "https://a.io" 0 0 0));
    [reflexivity|simpl; lia|unfold Qle; simpl; lia|unfold Qle; simpl; lia|].
  vm_compute. reflexivity.
Defined.

Lemma calculate_backoff_monotone_witness :
  exists delay1 delay2,
    fst (Manager._calculate_backoff (backoff_manager 30 600) 1 (empty_world None))
    = Ok delay1
    /\ fst (Manager._calculate_backoff (backoff_manager 30 600) 3 (empty_world None))
       = Ok delay2
    /\ (delay1 <= delay2)%Q.
Proof.
  refine (calculate_backoff_monotone (backoff_manager 30 600) 1 3 (empty_world None)
            _ _); [lia|unfold Qle; simpl; lia].
Defined.

Lemma calculate_backoff_saturates_witness :
  Manager._calculate_backoff (backoff_manager 30 600) 70 (empty_world None)
  = Manager._calculate_backoff (backoff_manager 30 600) 63 (empty_world None)
  /\ fst (Manager._calculate_backoff (backoff_manager 30 600) 10 (empty_world None))
     = Ok (inject_Z 30000 + (1 # 2) * inject_Z 570000)%Q.
Proof.
  split.
  - refine (proj1 (calculate_backoff_saturates (backoff_manager 30 600) 70
                     (empty_world None)) _). lia.
  - refine (proj2 (calculate_backoff_saturates (backoff_manager 30 600) 10
                     (empty_world None)) _ _ _);
      [simpl; lia|lia|vm_compute; reflexivity].
Defined.

Lemma calculate_backoff_negative_attempts_witness :
  Manager._calculate_backoff (backoff_manager 30 600) (-1) (empty_world None)
  = (Raise (ValueError "negative shift count"), empty_world None)
  /\ Manager._calculate_backoff (backoff_manager 30 30) (-1) (empty_world None)
     = (Ok (inject_Z 30000), empty_world None).
Proof.
  split.
  - refine (proj1 (calculate_backoff_negative_attempts (backoff_manager 30 600) (-1)
                     (empty_world None) _) _); simpl; lia.
  - refine (proj2 (calculate_backoff_negative_attempts (backoff_manager 30 30) (-1)
                     (empty_world None) _) _); simpl; lia.
Defined.

Lemma manager_eq_compares_pools_witness :
  Manager.__eq__ (pool_manager true 0) (set_replica_clients (pool_manager true 0) [0])
    (pool_world None)
  = (Ok false, pool_world None)
  /\ Manager.__eq__ (set_replica_clients (pool_manager true 0) [0])
       (set_replica_clients (pool_manager false 5) [1]) twin_world
     = (Ok true, twin_world)
  /\ Manager.__eq__ (set_replica_clients (pool_manager true 0) [0])
       (set_replica_clients (pool_manager true 0) [2]) twin_world
     = (Ok false, twin_world).
Proof.
  split; [|split].
  - refine (proj1 (proj2 (manager_eq_compares_pools (pool_manager true 0)
                            (set_replica_clients (pool_manager true 0) [0])
                            (pool_world None))) _).
    simpl. lia.
  - destruct (proj2 (proj2 (manager_eq_compares_pools
                              (set_replica_clients (pool_manager true 0) [0])
                              (set_replica_clients (pool_manager false 5) [1])
                              twin_world)))
      as (b & Hrun & Hiff).
    { repeat constructor. }
    { repeat constructor. }
    rewrite Hrun. f_equal. f_equal. apply Hiff.
    constructor; [|constructor].
    eexists _, _. split; [reflexivity|]. split; [reflexivity|].
    split; [reflexivity|]. split; [reflexivity|]. split; reflexivity.
  - destruct (proj2 (proj2 (manager_eq_compares_pools
                              (set_replica_clients (pool_manager true 0) [0])
                              (set_replica_clients (pool_manager true 0) [2])
                              twin_world)))
      as (b & Hrun & Hiff).
    { repeat constructor. }
    { repeat constructor. }
    rewrite Hrun. f_equal. f_equal. destruct b; [|reflexivity].
    pose proof (proj1 Hiff eq_refl) as Hall.
    apply Forall2_cons in Hall as [(a & b' & Ha & Hb & _ & _ & _ & Hf) _].
    simpl in Ha, Hb. inversion Ha; subst a. inversion Hb; subst b'. discriminate Hf.
Defined.

Lemma close_closes_pool_transports_witness :
  exists w',
    Manager.close (pool_manager true 0) (pool_world None) = (Ok tt, w')
    /\ (closed <$> Manager.transports w' !! 1) = Some true
    /\ Manager.wrappers w' = Manager.wrappers (pool_world None).
Proof.
  destruct (close_closes_pool_transports (pool_manager true 0) (pool_world None)
              (pool_world_closable None)) as (w' & Hrun & Hw & _ & Hts).
  exists w'. split; [exact Hrun|]. split; [|exact Hw].
  rewrite (Hts 1 _ eq_refl). vm_compute. reflexivity.
Defined.

Lemma refresh_clients_creates_missing_replicas_witness :
  exists self' w',
    Manager.refresh_clients (pool_manager true 0) (pool_world (Some ["https://c.io"]))
    = (Ok self', w')
    /\ _replica_clients self' !! 1 = Some 2
    /\ Manager.wrappers w' !! 2 = Some (wrapper_at "https://c.io" 2 0 0)
    /\ (auth <$> Manager.transports w' !! 2)
       = Some (WithConnectionString "Endpoint=https://c.io;Id=1;Secret=s").
Proof.
  destruct (refresh_clients_creates_missing_replicas (pool_manager true 0)
              (pool_world (Some ["https://c.io"])) 0 [1] "https://c.io" []
              ltac:(reflexivity) ltac:(reflexivity) ltac:(reflexivity)
              ltac:(reflexivity) (pool_world_valid _)
              (pool_manager_connectable _ _ _ _))
    as (self' & w' & Hrun & Hnew).
  destruct (Hnew 0 "https://c.io" eq_refl ltac:(reflexivity)) as (Hp & Hw & Ht).
  exists self', w'. split; [exact Hrun|]. split; [exact Hp|]. split; [exact Hw|].
  etransitivity; [exact (f_equal (fmap auth) Ht)|]. vm_compute. reflexivity.
Defined.

Lemma refresh_clients_rebuild_schedule_witness :
  exists self' w',
    Manager.refresh_clients (pool_manager true 0) (pool_world (Some ["https://c.io"]))
    = (Ok self', w')
    /\ Manager.get_client_count self' = 2
    /\ _next_update_time self' = (1000 + 30)%Q
    /\ Manager.calls w' = [ReadClock; Discovered "https://a.io" true; ReadClock].
Proof.
  destruct (refresh_clients_rebuild_schedule (pool_manager true 0)
              (pool_world (Some ["https://c.io"])) 0 [1] "https://c.io" []
              ltac:(reflexivity) ltac:(reflexivity) ltac:(reflexivity)
              ltac:(reflexivity) (pool_world_valid _)
              (pool_manager_connectable _ _ _ _))
    as (self' & w' & Hrun & Hcount & Hnext & Hcalls & _).
  exists self', w'. split; [exact Hrun|]. split; [exact Hcount|].
  split; [exact Hnext|exact Hcalls].
Defined.

Lemma init_builds_fresh_pool_witness :
  exists self' w',
    Manager.__init__ (Some "Endpoint=https://a.io;Id=1;Secret=s") "https://a.io" None
      "ua" 3 60 true 30 600 [] (empty_world (Some ["https://b.io"]))
    = (Ok self', w')
    /\ _replica_clients self' = [0; 1]
    /\ (auth <$> Manager.transports w' !! 1)
       = Some (WithConnectionString "Endpoint=https://b.io;Id=1;Secret=s").
Proof.
  destruct (init_builds_fresh_pool (Some "Endpoint=https://a.io;Id=1;Secret=s")
              "https://a.io" None "ua" 3 60 true 30 600 []
              (empty_world (Some ["https://b.io"])) ["https://b.io"]
              ltac:(reflexivity) ltac:(reflexivity) ltac:(repeat constructor))
    as (self' & w' & Hrun & -> & _ & Ht & _).
  eexists _, w'. split; [exact Hrun|]. split; [reflexivity|].
  rewrite Ht. vm_compute. reflexivity.
Defined.

Lemma init_raises_when_discovery_answers_none_witness :
  fst (Manager.__init__ None "https://a.io" (Some 7) "ua" 3 60 true 30 600 []
         (empty_world None))
  = Raise TypeError
  /\ Manager.wrappers
       (snd (Manager.__init__ None "https://a.io" (Some 7) "ua" 3 60 true 30 600 []
               (empty_world None)))
     = [wrapper_at "https://a.io" 0 0 0].
Proof.
  destruct (init_raises_when_discovery_answers_none None "https://a.io" (Some 7) "ua" 3
              60 true 30 600 [] (empty_world None)
              ltac:(reflexivity) ltac:(reflexivity) ltac:(constructor))
    as (Hraise & Hw & _).
  split; [exact Hraise|exact Hw].
Defined.

Lemma init_then_all_clients_active_witness :
  exists self' w',
    Manager.__init__ None "https://a.io" (Some 7) "ua" 3 60 true 30 600 []
      (empty_world (Some ["https://b.io"]))
    = (Ok self', w')
    /\ Manager.get_client_count self' = 2
    /\ fst (Manager.get_active_clients self' w') = Ok (_replica_clients self').
Proof.
  apply (init_then_all_clients_active None "https://a.io" (Some 7) "ua" 3 60 true 30 600
           [] (empty_world (Some ["https://b.io"])) ["https://b.io"]);
    [reflexivity|reflexivity|constructor|].
  repeat constructor; unfold Qle; simpl; lia.
Defined.

End ScriptedHealthRuns.
